(** * UpgradeHelperV11: the 0.11 validation-store migration helper

    A shallow embedding of
    [great_expectations/cli/upgrade_helpers/upgrade_helper_v11.py].

    The helper object ([self]) becomes an explicit [state] record threaded
    through a state-and-exception monad.  The store backends, the date parser,
    the JSON codec and the cloud clients are external to the file: they are
    taken as an environment of oracles acting on an abstract [World], so every
    statement holds for every behaviour of those collaborators.  Each oracle
    call is also appended to a ghost [trace], which lets statements speak
    about which backend operations were attempted and in which order.

    Only instances of Python's [Exception] are modelled as raised values;
    [BaseException]s outside that class (interpreter exit, keyboard
    interrupt) are outside the model. *)

From stdpp Require Import base strings list gmap.

(** ** Python values used by the helper *)

(** A store key is a tuple of path segments. *)
Abbreviation key := (list string).

(** A raised [Exception]: [type(e).__name__] and [str(e)]. *)
Record exn := Exn { exn_type : string; exn_str : string }.

#[global] Instance exn_eq_dec : EqDecision exn.
Proof. solve_decision. Defined.

Inductive result (A : Type) :=
| Ok (a : A)
| Raise (e : exn).
Arguments Ok {A} a.
Arguments Raise {A} e.

Definition dquote : string := String (Ascii.ascii_of_nat 34) EmptyString.
Definition squote : string := String (Ascii.ascii_of_nat 39) EmptyString.

(** Exceptions raised by the interpreter itself. *)
Definition IndexError : exn := Exn "IndexError" "tuple index out of range".
Definition KeyError (k : string) : exn := Exn "KeyError" (squote +:+ k +:+ squote).
Definition KeyError_None : exn := Exn "KeyError" "None".
Definition UnboundLocalError (v : string) : exn :=
  Exn "UnboundLocalError"
      ("local variable " +:+ squote +:+ v +:+ squote +:+ " referenced before assignment").
Definition TypeError (msg : string) : exn := Exn "TypeError" msg.
Definition AssertionError (msg : string) : exn := Exn "AssertionError" msg.

(** [isinstance(e, ParserError)], as tested by [except ParserError]. *)
Definition is_ParserError (e : exn) : bool := bool_decide (exn_type e = "ParserError").

(** Truthiness of [str | None] and [tuple | None]. *)
Definition truthy_str (s : option string) : bool :=
  match s with
  | Some s => bool_decide (s ≠ "")
  | None => false
  end.

Definition truthy_key (k : option key) : bool :=
  match k with
  | Some k => bool_decide (k ≠ [])
  | None => false
  end.

(** [t[i]] on a tuple, negative indices counting from the end. *)
Definition tuple_getitem (t : key) (i : Z) : result string :=
  let n := Z.of_nat (length t) in
  let j := if (i <? 0)%Z then (i + n)%Z else i in
  if ((j <? 0) || (n <=? j))%Z then Raise IndexError
  else match t !! Z.to_nat j with
       | Some x => Ok x
       | None => Raise IndexError
       end.

(** [l.insert(i, x)]: the index is clamped to [0 .. len(l)]. *)
Definition list_insert_at {A} (i : Z) (x : A) (l : list A) : list A :=
  let n := Z.of_nat (length l) in
  let j := if (i <? 0)%Z then Z.max 0 (i + n) else Z.min i n in
  take (Z.to_nat j) l ++ x :: drop (Z.to_nat j) l.

(** A dict whose iteration order is observed: [d[k] = v] replaces the value
    of an existing key in place and appends a new key at the end. *)
Fixpoint dict_set {V} (k : string) (v : V) (d : list (string * V)) : list (string * V) :=
  match d with
  | [] => [(k, v)]
  | (k', v') :: d' =>
      if decide (k' = k) then (k, v) :: d' else (k', v') :: dict_set k v d'
  end.

Fixpoint dict_get {V} (k : string) (d : list (string * V)) : option V :=
  match d with
  | [] => None
  | (k', v') :: d' => if decide (k' = k) then Some v' else dict_get k d'
  end.

(** ** Structured content ([json.loads] / [json.dumps]) *)

#[local] Set Warnings "-register-all".
Inductive json :=
| JNull
| JBool (b : bool)
| JNum (literal : string)
| JStr (s : string)
| JArr (items : list json)
| JObj (fields : list (string * json)).

(** [d[k]] for a string subscript [k]. *)
Definition json_getitem (d : json) (k : string) : result json :=
  match d with
  | JObj fs =>
      match dict_get k fs with
      | Some v => Ok v
      | None => Raise (KeyError k)
      end
  | JArr _ => Raise (TypeError "list indices must be integers or slices, not str")
  | JStr _ => Raise (TypeError "string indices must be integers")
  | JNum _ => Raise (TypeError "'int' object is not subscriptable")
  | JBool _ => Raise (TypeError "'bool' object is not subscriptable")
  | JNull => Raise (TypeError "'NoneType' object is not subscriptable")
  end.

(** [d[k] = v] for a string subscript [k]. *)
Definition json_setitem (d : json) (k : string) (v : json) : result json :=
  match d with
  | JObj fs => Ok (JObj (dict_set k v fs))
  | JArr _ => Raise (TypeError "list indices must be integers or slices, not str")
  | JStr _ => Raise (TypeError "'str' object does not support item assignment")
  | JNum _ => Raise (TypeError "'int' object does not support item assignment")
  | JBool _ => Raise (TypeError "'bool' object does not support item assignment")
  | JNull => Raise (TypeError "'NoneType' object does not support item assignment")
  end.

(** [d["meta"]["run_id"] = v]: the object under ["meta"] is mutated in
    place, so the outer object keeps it at the same position. *)
Definition set_meta_run_id (d : json) (v : json) : result json :=
  match json_getitem d "meta" with
  | Raise e => Raise e
  | Ok meta =>
      match json_setitem meta "run_id" v with
      | Raise e => Raise e
      | Ok meta' =>
          match d with
          | JObj fs => Ok (JObj (dict_set "meta" meta' fs))
          | _ => Ok d
          end
      end
  end.

(** ** Store backends, stores and sites *)

(** The class of a backend object.  [Subclass name base] is a class derived
    from [base]; [OtherStoreBackend name] is any class unrelated to the five
    the helper imports. *)
Inductive backend_class :=
| TupleFilesystemStoreBackend
| TupleS3StoreBackend
| TupleGCSStoreBackend
| DatabaseStoreBackend
| InMemoryStoreBackend
| Subclass (name : string) (base : backend_class)
| OtherStoreBackend (name : string).

#[global] Instance backend_class_eq_dec : EqDecision backend_class.
Proof. solve_decision. Defined.

(** [cls.__name__] *)
Definition class_name (c : backend_class) : string :=
  match c with
  | TupleFilesystemStoreBackend => "TupleFilesystemStoreBackend"
  | TupleS3StoreBackend => "TupleS3StoreBackend"
  | TupleGCSStoreBackend => "TupleGCSStoreBackend"
  | DatabaseStoreBackend => "DatabaseStoreBackend"
  | InMemoryStoreBackend => "InMemoryStoreBackend"
  | Subclass name _ => name
  | OtherStoreBackend name => name
  end.

(** [issubclass(c, target)] *)
Fixpoint issubclass (c target : backend_class) : bool :=
  bool_decide (c = target) ||
  match c with
  | Subclass _ base => issubclass base target
  | _ => false
  end.

(** A backend object: its identity and [type(store_backend)]. *)
Record backend := Backend { backend_id : string; backend_type : backend_class }.

#[global] Instance backend_eq_dec : EqDecision backend.
Proof. solve_decision. Defined.

Definition isinstance (b : backend) (target : backend_class) : bool :=
  issubclass (backend_type b) target.

(** What the two [isinstance] tests of [_generate_upgrade_checklist] see of
    a store object. *)
Inductive store_class := ValidationsStore | MetricStore | OtherStore.

Record store := Store { store_cls : store_class; store_backend : backend }.

(** A site configuration, with the backend that
    [HtmlSiteStore(...).store_backends[ValidationResultIdentifier]] yields
    for it. *)
Record site_config := SiteConfig { site_validations_store_backend : backend }.

(** [data_context.stores] and [data_docs_sites] ([None] when unset), in
    iteration order. *)
Record data_context := DataContext {
  stores : list (string * store);
  data_docs_sites : option (list (string * site_config))
}.

(** ** The upgrade log *)

(** An element of one of the skip lists: [store_name] (or [site_name]) and
    the backend class name. *)
Record skipped := Skipped { skipped_name : string; skipped_backend_class : string }.

(** [{"src": ..., "dest": ...}] *)
Record updated := Updated { updated_src : string; updated_dest : string }.

(** Which key of an exception entry carries the name. *)
Inductive name_key := validation_store_name | site_name_key.

#[global] Instance name_key_eq_dec : EqDecision name_key.
Proof. solve_decision. Defined.

(** An element of [upgrade_log["exceptions"]]. *)
Record exception_entry := ExceptionEntry {
  entry_key : name_key;
  entry_name : option string;
  entry_src : string;
  entry_dest : string;
  entry_message : string
}.

(** [{"validations_updated": [...], "exceptions": bool}] (for a site the
    list is ["validation_result_pages_updated"]). *)
Record outcome := Outcome { outcome_updated : list updated; outcome_exceptions : bool }.

Record upgrade_log_t := UpgradeLog {
  skipped_validations_database : list skipped;
  skipped_validations_unsupported : list skipped;
  skipped_docs_unsupported : list skipped;
  skipped_metrics_database : list skipped;
  skipped_metrics_unsupported : list skipped;
  exceptions : list exception_entry;
  upgraded_validations_stores : gmap string outcome;
  upgraded_docs_site_validations_stores : gmap string outcome
}.

Record upgrade_checklist_t := UpgradeChecklist {
  validations_store_backends : list (string * backend);
  docs_validations_store_backends : list (string * backend)
}.

(** ** Calls made to the outside world *)

Inductive call :=
| ListKeys (b : backend)
| GetUrlForKey (b : backend) (k : key)
| Get (b : backend) (k : key)
| SetKey (b : backend) (k : option key) (value : string)
| RemoveKey (b : backend) (k : key)
| Move (b : backend) (src : key) (dest : option key)
| Parse (run_name : string)
| FilesystemMtime (b : backend) (k : key)
| Boto3Resource
| S3LastModified (b : backend) (k : key)
| GCSGetBucket (b : backend)
| GCSTimeCreated (b : backend) (k : key).

(** ** The helper's state and the monad of its methods *)

Section Helper.

Context {World : Type}.

(** The collaborators the helper calls.  Every operation may raise and may
    change the world. *)
Record Env := {
  list_keys : backend -> World -> result (list key) * World;
  get_url_for_key : backend -> key -> World -> result string * World;
  get : backend -> key -> World -> result string * World;
  set : backend -> option key -> string -> World -> result unit * World;
  remove_key : backend -> key -> World -> result unit * World;
  move : backend -> key -> option key -> World -> result unit * World;
  (** [parse(run_name).isoformat()] *)
  parse_isoformat : string -> World -> result string * World;
  (** [os.path.getmtime] of the file of a key, as a UTC ISO string *)
  filesystem_mtime_isoformat : backend -> key -> World -> result string * World;
  (** [import boto3; boto3.resource("s3")] *)
  boto3_resource : World -> result unit * World;
  (** [s3.Object(bucket, path).last_modified.isoformat()] *)
  s3_last_modified_isoformat : backend -> key -> World -> result string * World;
  (** [storage.Client(project=...).get_bucket(bucket)] *)
  gcs_get_bucket : backend -> World -> result unit * World;
  (** [bucket.get_blob(path).time_created.isoformat()] *)
  gcs_time_created_isoformat : backend -> key -> World -> result string * World;
  json_loads : string -> result json;
  json_dumps : json -> string;
  (** [traceback.format_exc()] while handling the given exception *)
  format_exc : exn -> string;
  (** [str(t)] of a tuple, or of [None] *)
  str_of_key : option key -> string
}.

(** [self], the outside world, the ghost trace of calls, and the two local
    variables of [upgrade_store_backend] that live across loop iterations
    and except handlers ([None] when not yet assigned). *)
Record state := State {
  upgrade_log : upgrade_log_t;
  upgrade_checklist : upgrade_checklist_t;
  validation_run_times : gmap string string;
  world : World;
  trace : list call;
  local_run_name : option string;
  local_dest_key : option (option key)
}.

Definition M (A : Type) : Type := state -> result A * state.

Definition ret {A} (a : A) : M A := fun st => (Ok a, st).

Definition bind {A B} (m : M A) (k : A -> M B) : M B :=
  fun st =>
    match m st with
    | (Ok a, st') => k a st'
    | (Raise e, st') => (Raise e, st')
    end.

Definition raise {A} (e : exn) : M A := fun st => (Raise e, st).

Definition lift {A} (r : result A) : M A := fun st => (r, st).

(** [try: m  except Exception as e: h e] *)
Definition try_except {A} (m : M A) (h : exn -> M A) : M A :=
  fun st =>
    match m st with
    | (Ok a, st') => (Ok a, st')
    | (Raise e, st') => h e st'
    end.

(** [try: m  except ParserError: h]: any other exception propagates. *)
Definition try_except_ParserError {A} (m : M A) (h : M A) : M A :=
  fun st =>
    match m st with
    | (Ok a, st') => (Ok a, st')
    | (Raise e, st') => if is_ParserError e then h st' else (Raise e, st')
    end.

Definition gets {A} (f : state -> A) : M A := fun st => (Ok (f st), st).

Definition modify (f : state -> state) : M unit := fun st => (Ok tt, f st).

End Helper.

Arguments Env : clear implicits.
Arguments state : clear implicits.
Arguments M : clear implicits.

Notation "x <- m ;; k" := (bind m (fun x => k))
  (at level 100, m at next level, right associativity).
Notation "m ;; k" := (bind m (fun _ => k))
  (at level 100, right associativity).

(** ** Field updates *)

Definition log_append_exception (e : exception_entry) (l : upgrade_log_t) : upgrade_log_t :=
  UpgradeLog (skipped_validations_database l) (skipped_validations_unsupported l)
    (skipped_docs_unsupported l) (skipped_metrics_database l)
    (skipped_metrics_unsupported l) (exceptions l ++ [e])
    (upgraded_validations_stores l) (upgraded_docs_site_validations_stores l).

Definition log_set_upgraded_validations (m : gmap string outcome) (l : upgrade_log_t)
  : upgrade_log_t :=
  UpgradeLog (skipped_validations_database l) (skipped_validations_unsupported l)
    (skipped_docs_unsupported l) (skipped_metrics_database l)
    (skipped_metrics_unsupported l) (exceptions l)
    m (upgraded_docs_site_validations_stores l).

Definition log_set_upgraded_docs (m : gmap string outcome) (l : upgrade_log_t)
  : upgrade_log_t :=
  UpgradeLog (skipped_validations_database l) (skipped_validations_unsupported l)
    (skipped_docs_unsupported l) (skipped_metrics_database l)
    (skipped_metrics_unsupported l) (exceptions l)
    (upgraded_validations_stores l) m.

Definition log_skip_validations_database (s : skipped) (l : upgrade_log_t) : upgrade_log_t :=
  UpgradeLog (skipped_validations_database l ++ [s]) (skipped_validations_unsupported l)
    (skipped_docs_unsupported l) (skipped_metrics_database l)
    (skipped_metrics_unsupported l) (exceptions l)
    (upgraded_validations_stores l) (upgraded_docs_site_validations_stores l).

Definition log_skip_validations_unsupported (s : skipped) (l : upgrade_log_t) : upgrade_log_t :=
  UpgradeLog (skipped_validations_database l) (skipped_validations_unsupported l ++ [s])
    (skipped_docs_unsupported l) (skipped_metrics_database l)
    (skipped_metrics_unsupported l) (exceptions l)
    (upgraded_validations_stores l) (upgraded_docs_site_validations_stores l).

Definition log_skip_docs_unsupported (s : skipped) (l : upgrade_log_t) : upgrade_log_t :=
  UpgradeLog (skipped_validations_database l) (skipped_validations_unsupported l)
    (skipped_docs_unsupported l ++ [s]) (skipped_metrics_database l)
    (skipped_metrics_unsupported l) (exceptions l)
    (upgraded_validations_stores l) (upgraded_docs_site_validations_stores l).

Definition log_skip_metrics_database (s : skipped) (l : upgrade_log_t) : upgrade_log_t :=
  UpgradeLog (skipped_validations_database l) (skipped_validations_unsupported l)
    (skipped_docs_unsupported l) (skipped_metrics_database l ++ [s])
    (skipped_metrics_unsupported l) (exceptions l)
    (upgraded_validations_stores l) (upgraded_docs_site_validations_stores l).

Definition log_skip_metrics_unsupported (s : skipped) (l : upgrade_log_t) : upgrade_log_t :=
  UpgradeLog (skipped_validations_database l) (skipped_validations_unsupported l)
    (skipped_docs_unsupported l) (skipped_metrics_database l)
    (skipped_metrics_unsupported l ++ [s]) (exceptions l)
    (upgraded_validations_stores l) (upgraded_docs_site_validations_stores l).

Section Updates.

Context {World : Type}.

Definition with_upgrade_log (f : upgrade_log_t -> upgrade_log_t) (st : state World)
  : state World :=
  State (f (upgrade_log st)) (upgrade_checklist st) (validation_run_times st)
    (world st) (trace st) (local_run_name st) (local_dest_key st).

Definition with_upgrade_checklist (f : upgrade_checklist_t -> upgrade_checklist_t)
    (st : state World) : state World :=
  State (upgrade_log st) (f (upgrade_checklist st)) (validation_run_times st)
    (world st) (trace st) (local_run_name st) (local_dest_key st).

Definition set_validation_run_time (run_name iso : string) (st : state World)
  : state World :=
  State (upgrade_log st) (upgrade_checklist st)
    (<[run_name := iso]> (validation_run_times st))
    (world st) (trace st) (local_run_name st) (local_dest_key st).

Definition set_local_run_name (v : option string) (st : state World) : state World :=
  State (upgrade_log st) (upgrade_checklist st) (validation_run_times st)
    (world st) (trace st) v (local_dest_key st).

Definition set_local_dest_key (v : option (option key)) (st : state World)
  : state World :=
  State (upgrade_log st) (upgrade_checklist st) (validation_run_times st)
    (world st) (trace st) (local_run_name st) v.

(** An outside call: recorded in the trace, answered by the oracle. *)
Definition perform {A} (c : call) (f : World -> result A * World) : M World A :=
  fun st =>
    let (r, w) := f (world st) in
    (r, State (upgrade_log st) (upgrade_checklist st) (validation_run_times st)
          w (trace st ++ [c]) (local_run_name st) (local_dest_key st)).

(** Reading a local variable of [upgrade_store_backend]. *)
Definition read_run_name : M World string :=
  fun st =>
    match local_run_name st with
    | Some v => (Ok v, st)
    | None => (Raise (UnboundLocalError "run_name"), st)
    end.

Definition read_dest_key : M World (option key) :=
  fun st =>
    match local_dest_key st with
    | Some v => (Ok v, st)
    | None => (Raise (UnboundLocalError "dest_key"), st)
    end.

(** [for x in l: body x] *)
Fixpoint for_each {A} (l : list A) (body : A -> M World unit) : M World unit :=
  match l with
  | [] => ret tt
  | x :: l' => body x ;; for_each l' body
  end.

End Updates.

(** ** The methods of [UpgradeHelperV11] *)

Section Methods.

Context {World : Type} (env : Env World).

#[local] Abbreviation M := (M World).
#[local] Abbreviation state := (state World).

(** [f'{type(e).__name__}: "{str(e)}".  Traceback: "{exception_traceback}".'] *)
Definition exception_message (e : exn) : string :=
  exn_type e +:+ ": " +:+ dquote +:+ exn_str e +:+ dquote +:+ ".  Traceback: "
    +:+ dquote +:+ format_exc env e +:+ dquote +:+ ".".

(** The two assertions that open [upgrade_store_backend] and
    [_update_upgrade_log]. *)
Definition assert_store_name_or_site_name (store_name site_name : option string)
  : M unit :=
  if negb (truthy_str store_name || truthy_str site_name)
  then raise (AssertionError "Must pass either store_name or site_name.")
  else if truthy_str store_name && truthy_str site_name
  then raise (AssertionError "Must pass either store_name or site_name, not both.")
  else ret tt.

(** [try: url = store_backend.get_url_for_key(k) if k else "N/A"]
    [except Exception: url = f"Unable to generate URL for key: {k}"] *)
Definition url_for_log (b : backend) (k : option key) : M string :=
  try_except
    (match k with
     | Some k' =>
         if truthy_key k
         then perform (GetUrlForKey b k') (get_url_for_key env b k')
         else ret "N/A"
     | None => ret "N/A"
     end)
    (fun _ => ret ("Unable to generate URL for key: " +:+ str_of_key env k)).

(** [d[name]], for one of the two per-store outcome dicts. *)
Definition outcome_getitem (d : gmap string outcome) (name : option string)
  : result (string * outcome) :=
  match name with
  | Some n =>
      match d !! n with
      | Some o => Ok (n, o)
      | None => Raise (KeyError n)
      end
  | None => Raise KeyError_None
  end.

(** The last block of [_update_upgrade_log], for one of the two outcome
    dicts: set the flag, or append the [{"src", "dest"}] pair. *)
Definition record_outcome (d : gmap string outcome) (name : option string)
    (failed : bool) (log_dict : updated) : result (gmap string outcome) :=
  match outcome_getitem d name with
  | Raise e => Raise e
  | Ok (n, o) =>
      if failed
      then Ok (<[n := Outcome (outcome_updated o) true]> d)
      else Ok (<[n := Outcome (outcome_updated o ++ [log_dict]) (outcome_exceptions o)]> d)
  end.

Definition _update_upgrade_log (store_backend : backend)
    (source_key dest_key : option key) (store_name site_name : option string)
    (exception_message : option string) : M unit :=
  assert_store_name_or_site_name store_name site_name ;;
  src_url <- url_for_log store_backend source_key ;;
  dest_url <- url_for_log store_backend dest_key ;;
  (if negb (truthy_str exception_message) then ret tt
   else
     modify (with_upgrade_log (log_append_exception
       (ExceptionEntry
          (if truthy_str store_name then validation_store_name else site_name_key)
          (if truthy_str store_name then store_name else site_name)
          src_url dest_url (default "" exception_message))))) ;;
  if truthy_str store_name then
    d <- gets (fun st => upgraded_validations_stores (upgrade_log st)) ;;
    d' <- lift (record_outcome d store_name (truthy_str exception_message)
                  (Updated src_url dest_url)) ;;
    modify (with_upgrade_log (log_set_upgraded_validations d'))
  else
    d <- gets (fun st => upgraded_docs_site_validations_stores (upgrade_log st)) ;;
    d' <- lift (record_outcome d site_name (truthy_str exception_message)
                  (Updated src_url dest_url)) ;;
    modify (with_upgrade_log (log_set_upgraded_docs d')).

(** [self.validation_run_times[run_name]] *)
Definition run_time_getitem (run_name : string) : M string :=
  fun st =>
    match validation_run_times st !! run_name with
    | Some t => (Ok t, st)
    | None => (Raise (KeyError run_name), st)
    end.

Definition new_run_id_dict (run_name run_time : string) : json :=
  JObj [("run_name", JStr run_name); ("run_time", JStr run_time)].

Definition _update_validation_result_json (source_key : key) (dest_key : option key)
    (run_name : string) (store_backend : backend) : M unit :=
  run_time <- run_time_getitem run_name ;;
  content <- perform (Get store_backend source_key) (get env store_backend source_key) ;;
  validation_json_dict <- lift (json_loads env content) ;;
  validation_json_dict' <-
    lift (set_meta_run_id validation_json_dict (new_run_id_dict run_name run_time)) ;;
  perform (SetKey store_backend dest_key (json_dumps env validation_json_dict'))
    (set env store_backend dest_key (json_dumps env validation_json_dict')) ;;
  perform (RemoveKey store_backend source_key) (remove_key env store_backend source_key).

(** The shared shape of the three run-time setters: parse the run name; on
    [ParserError] only, ask the backend for the provenance time. *)
Definition parse_or_provenance (run_name : string) (provenance : M string) : M unit :=
  try_except_ParserError
    (iso <- perform (Parse run_name) (parse_isoformat env run_name) ;;
     modify (set_validation_run_time run_name iso))
    (iso <- provenance ;;
     modify (set_validation_run_time run_name iso)).

Definition _get_tuple_filesystem_store_backend_run_time (source_key : key)
    (store_backend : backend) : M unit :=
  run_name <- lift (tuple_getitem source_key (-2)) ;;
  parse_or_provenance run_name
    (perform (FilesystemMtime store_backend source_key)
       (filesystem_mtime_isoformat env store_backend source_key)).

Definition _get_tuple_s3_store_backend_run_time (source_key : key)
    (store_backend : backend) : M unit :=
  perform Boto3Resource (boto3_resource env) ;;
  run_name <- lift (tuple_getitem source_key (-2)) ;;
  parse_or_provenance run_name
    (perform (S3LastModified store_backend source_key)
       (s3_last_modified_isoformat env store_backend source_key)).

Definition _get_tuple_gcs_store_backend_run_time (source_key : key)
    (store_backend : backend) : M unit :=
  perform (GCSGetBucket store_backend) (gcs_get_bucket env store_backend) ;;
  run_name <- lift (tuple_getitem source_key (-2)) ;;
  parse_or_provenance run_name
    (perform (GCSTimeCreated store_backend source_key)
       (gcs_time_created_isoformat env store_backend source_key)).

(** [self.run_time_setters_by_backend_type.get(cls)]: an exact-class lookup. *)
Definition run_time_setters_by_backend_type (cls : backend_class)
  : option (key -> backend -> M unit) :=
  match cls with
  | TupleFilesystemStoreBackend => Some _get_tuple_filesystem_store_backend_run_time
  | TupleS3StoreBackend => Some _get_tuple_s3_store_backend_run_time
  | TupleGCSStoreBackend => Some _get_tuple_gcs_store_backend_run_time
  | _ => None
  end.

(** The first [try] block of the loop body of [upgrade_store_backend]. *)
Definition compute_dest_key (store_backend : backend) (source_key : key) : M unit :=
  run_name <- lift (tuple_getitem source_key (-2)) ;;
  modify (set_local_run_name (Some run_name)) ;;
  modify (set_local_dest_key (Some None)) ;;
  cached <- gets (fun st => validation_run_times st !! run_name) ;;
  (match cached with
   | Some _ => ret tt
   | None =>
       match run_time_setters_by_backend_type (backend_type store_backend) with
       | Some setter => setter source_key store_backend
       | None => raise (TypeError "'NoneType' object is not callable")
       end
   end) ;;
  run_time <- run_time_getitem run_name ;;
  modify (set_local_dest_key (Some (Some (list_insert_at (-1) run_time source_key)))).

(** The [except Exception as e] handler shared by both [try] blocks. *)
Definition log_key_exception (store_backend : backend) (source_key : key)
    (store_name site_name : option string) (e : exn) : M unit :=
  dest_key <- read_dest_key ;;
  _update_upgrade_log store_backend (Some source_key) dest_key store_name site_name
    (Some (exception_message e)).

(** The second [try] block of the loop body. *)
Definition transfer_key (store_backend : backend) (source_key : key)
    (store_name site_name : option string) : M unit :=
  (if truthy_str store_name then
     dest_key <- read_dest_key ;;
     run_name <- read_run_name ;;
     _update_validation_result_json source_key dest_key run_name store_backend
   else
     dest_key <- read_dest_key ;;
     perform (Move store_backend source_key dest_key)
       (move env store_backend source_key dest_key)) ;;
  dest_key <- read_dest_key ;;
  _update_upgrade_log store_backend (Some source_key) dest_key store_name site_name None.

(** The loop body: the two [try] statements run one after the other. *)
Definition upgrade_key (store_backend : backend) (store_name site_name : option string)
    (source_key : key) : M unit :=
  try_except (compute_dest_key store_backend source_key)
    (log_key_exception store_backend source_key store_name site_name) ;;
  try_except (transfer_key store_backend source_key store_name site_name)
    (log_key_exception store_backend source_key store_name site_name).

(** [upgrade_store_backend].  [validation_source_keys] is bound only when
    [list_keys] returns; the [for] statement reads it in either case. *)
Definition upgrade_store_backend (store_backend : backend)
    (store_name site_name : option string) : M unit :=
  assert_store_name_or_site_name store_name site_name ;;
  modify (set_local_run_name None) ;;
  modify (set_local_dest_key None) ;;
  validation_source_keys <-
    try_except
      (keys <- perform (ListKeys store_backend) (list_keys env store_backend) ;;
       ret (Some keys))
      (fun e =>
         _update_upgrade_log store_backend None None store_name site_name
           (Some (exception_message e)) ;;
         ret None) ;;
  match validation_source_keys with
  | Some keys => for_each keys (upgrade_key store_backend store_name site_name)
  | None => raise (UnboundLocalError "validation_source_keys")
  end.

(** *** Checklist construction *)

Definition is_migratable (b : backend) : bool :=
  isinstance b TupleFilesystemStoreBackend
  || isinstance b TupleS3StoreBackend
  || isinstance b TupleGCSStoreBackend.

Definition checklist_set_validations (name : string) (b : backend)
    (c : upgrade_checklist_t) : upgrade_checklist_t :=
  UpgradeChecklist (dict_set name b (validations_store_backends c))
    (docs_validations_store_backends c).

Definition checklist_set_docs (name : string) (b : backend)
    (c : upgrade_checklist_t) : upgrade_checklist_t :=
  UpgradeChecklist (validations_store_backends c)
    (dict_set name b (docs_validations_store_backends c)).

Definition skipped_of (name : string) (b : backend) : skipped :=
  Skipped name (class_name (backend_type b)).

Definition _process_docs_site_for_checklist (site_name : string)
    (site_config : site_config) (st : state) : state :=
  let b := site_validations_store_backend site_config in
  if is_migratable b
  then with_upgrade_checklist (checklist_set_docs site_name b) st
  else with_upgrade_log (log_skip_docs_unsupported (skipped_of site_name b)) st.

Definition _process_validations_store_for_checklist (store_name : string)
    (store : store) (st : state) : state :=
  let b := store_backend store in
  if isinstance b DatabaseStoreBackend
  then with_upgrade_log (log_skip_validations_database (skipped_of store_name b)) st
  else if is_migratable b
  then with_upgrade_checklist (checklist_set_validations store_name b) st
  else with_upgrade_log (log_skip_validations_unsupported (skipped_of store_name b)) st.

Definition _process_metrics_store_for_checklist (store_name : string)
    (store : store) (st : state) : state :=
  let b := store_backend store in
  if isinstance b DatabaseStoreBackend
  then with_upgrade_log (log_skip_metrics_database (skipped_of store_name b)) st
  else if isinstance b InMemoryStoreBackend
  then st
  else with_upgrade_log (log_skip_metrics_unsupported (skipped_of store_name b)) st.

Definition process_store_for_checklist (st : state) (item : string * store) : state :=
  match store_cls (item.2) with
  | OtherStore => st
  | ValidationsStore => _process_validations_store_for_checklist item.1 item.2 st
  | MetricStore => _process_metrics_store_for_checklist item.1 item.2 st
  end.

Definition process_site_for_checklist (st : state) (item : string * site_config) : state :=
  _process_docs_site_for_checklist item.1 item.2 st.

Definition _generate_upgrade_checklist (dc : data_context) (st : state) : state :=
  let st' := foldl process_store_for_checklist st (stores dc) in
  match data_docs_sites dc with
  | Some sites => foldl process_site_for_checklist st' sites
  | None => st'
  end.

(** [__init__]: the empty log, checklist and cache, then the checklist. *)
Definition init (dc : data_context) (w : World) : state :=
  _generate_upgrade_checklist dc
    (State (UpgradeLog [] [] [] [] [] [] ∅ ∅) (UpgradeChecklist [] []) ∅ w [] None None).

(** *** The session *)

Definition empty_outcome : outcome := Outcome [] false.

Definition upgrade_validations_store (item : string * backend) : M unit :=
  modify (with_upgrade_log (fun l =>
    log_set_upgraded_validations (<[item.1 := empty_outcome]> (upgraded_validations_stores l)) l)) ;;
  upgrade_store_backend item.2 (Some item.1) None.

Definition upgrade_docs_site (item : string * backend) : M unit :=
  modify (with_upgrade_log (fun l =>
    log_set_upgraded_docs (<[item.1 := empty_outcome]> (upgraded_docs_site_validations_stores l)) l)) ;;
  upgrade_store_backend item.2 None (Some item.1).

(** [try: m  except Exception: pass] *)
Definition try_except_pass (m : M unit) : M unit := try_except m (fun _ => ret tt).

(** The bodies of the two [try] statements of [upgrade_project]. *)
Definition upgrade_validations_stores : M unit :=
  items <- gets (fun st => validations_store_backends (upgrade_checklist st)) ;;
  for_each items upgrade_validations_store.

Definition upgrade_docs_sites : M unit :=
  items <- gets (fun st => docs_validations_store_backends (upgrade_checklist st)) ;;
  for_each items upgrade_docs_site.

Definition upgrade_project : M upgrade_log_t :=
  try_except_pass upgrade_validations_stores ;;
  try_except_pass upgrade_docs_sites ;;
  gets upgrade_log.

End Methods.

(** ** A concrete world: stores held in one table of files

    Used to run the helper on explicit inputs.  A file is addressed by the
    identity of its backend and its key; modification (or creation) times are
    kept in a separate table, so that a file can be listed while its time is
    unavailable. *)

Module Scenario.

Record disk := Disk {
  files : list (string * key * string);
  times : list (string * key * string)
}.

Fixpoint lookup_file (id : string) (k : key) (l : list (string * key * string))
  : option string :=
  match l with
  | [] => None
  | (id', k', v) :: l' =>
      if bool_decide (id' = id /\ k' = k) then Some v else lookup_file id k l'
  end.

Fixpoint delete_file (id : string) (k : key) (l : list (string * key * string))
  : list (string * key * string) :=
  match l with
  | [] => []
  | (id', k', v) :: l' =>
      if bool_decide (id' = id /\ k' = k) then delete_file id k l'
      else (id', k', v) :: delete_file id k l'
  end.

Fixpoint keys_of (id : string) (l : list (string * key * string)) : list key :=
  match l with
  | [] => []
  | (id', k', _) :: l' =>
      if bool_decide (id' = id) then k' :: keys_of id l' else keys_of id l'
  end.

Definition write_file (id : string) (k : key) (v : string) (d : disk) : disk :=
  Disk (delete_file id k (files d) ++ [(id, k, v)]) (times d).

Definition remove_file (id : string) (k : key) (d : disk) : disk :=
  Disk (delete_file id k (files d)) (times d).

Definition FileNotFound (k : key) : exn :=
  Exn "FileNotFoundError" ("No such file or directory: " +:+ String.concat "/" k).

Definition sc_list_keys (b : backend) (d : disk) : result (list key) * disk :=
  if bool_decide (backend_id b = "unreadable")
  then (Raise (Exn "PermissionError" "Permission denied"), d)
  else (Ok (keys_of (backend_id b) (files d)), d).

Definition sc_get_url_for_key (b : backend) (k : key) (d : disk) : result string * disk :=
  (Ok (backend_id b +:+ "://" +:+ String.concat "/" k), d).

Definition sc_get (b : backend) (k : key) (d : disk) : result string * disk :=
  match lookup_file (backend_id b) k (files d) with
  | Some v => (Ok v, d)
  | None => (Raise (FileNotFound k), d)
  end.

Definition sc_set (b : backend) (k : option key) (v : string) (d : disk)
  : result unit * disk :=
  match k with
  | Some k' => (Ok tt, write_file (backend_id b) k' v d)
  | None => (Raise (TypeError "'NoneType' object is not iterable"), d)
  end.

Definition sc_remove_key (b : backend) (k : key) (d : disk) : result unit * disk :=
  match lookup_file (backend_id b) k (files d) with
  | Some _ => (Ok tt, remove_file (backend_id b) k d)
  | None => (Raise (FileNotFound k), d)
  end.

Definition sc_move (b : backend) (src : key) (dest : option key) (d : disk)
  : result unit * disk :=
  match dest, lookup_file (backend_id b) src (files d) with
  | None, _ => (Raise (TypeError "'NoneType' object is not iterable"), d)
  | Some _, None => (Raise (FileNotFound src), d)
  | Some k', Some v =>
      (Ok tt, write_file (backend_id b) k' v (remove_file (backend_id b) src d))
  end.

Definition sc_parse_isoformat (run_name : string) (d : disk) : result string * disk :=
  if bool_decide (run_name = "20210101T000000") then (Ok "2021-01-01T00:00:00", d)
  else if bool_decide (run_name = "99999999999999999999")
  then (Raise (Exn "OverflowError" "Python int too large to convert to C long"), d)
  else (Raise (Exn "ParserError" ("Unknown string format: " +:+ run_name)), d).

Definition sc_time (b : backend) (k : key) (d : disk) : result string * disk :=
  match lookup_file (backend_id b) k (times d) with
  | Some t => (Ok t, d)
  | None => (Raise (FileNotFound k), d)
  end.

Definition sc_client (d : disk) : result unit * disk := (Ok tt, d).

(** The one document the scenario's decoder understands. *)
Definition result_text : string := "{meta: {run_id: run, batch: b1}, success: true}".

Definition result_json : json :=
  JObj [("meta", JObj [("run_id", JStr "run"); ("batch", JStr "b1")]);
        ("success", JBool true)].

Definition sc_json_loads (s : string) : result json :=
  if bool_decide (s = result_text) then Ok result_json
  else Raise (Exn "JSONDecodeError" "Expecting value: line 1 column 1 (char 0)").

Fixpoint sc_json_dumps (j : json) : string :=
  match j with
  | JNull => "null"
  | JBool true => "true"
  | JBool false => "false"
  | JNum s => s
  | JStr s => dquote +:+ s +:+ dquote
  | JArr items =>
      "[" +:+ (fix go (l : list json) : string :=
                match l with
                | [] => ""
                | [x] => sc_json_dumps x
                | x :: l' => sc_json_dumps x +:+ ", " +:+ go l'
                end) items +:+ "]"
  | JObj fields =>
      "{" +:+ (fix go (l : list (string * json)) : string :=
                match l with
                | [] => ""
                | [(k, v)] => dquote +:+ k +:+ dquote +:+ ": " +:+ sc_json_dumps v
                | (k, v) :: l' =>
                    dquote +:+ k +:+ dquote +:+ ": " +:+ sc_json_dumps v +:+ ", " +:+ go l'
                end) fields +:+ "}"
  end.

Definition sc_str_of_key (k : option key) : string :=
  match k with
  | None => "None"
  | Some k' => "(" +:+ String.concat ", " (map (fun s => squote +:+ s +:+ squote) k') +:+ ")"
  end.

Definition env : Env disk := {|
  list_keys := sc_list_keys;
  get_url_for_key := sc_get_url_for_key;
  get := sc_get;
  set := sc_set;
  remove_key := sc_remove_key;
  move := sc_move;
  parse_isoformat := sc_parse_isoformat;
  filesystem_mtime_isoformat := sc_time;
  boto3_resource := sc_client;
  s3_last_modified_isoformat := sc_time;
  gcs_get_bucket := fun _ => sc_client;
  gcs_time_created_isoformat := sc_time;
  json_loads := sc_json_loads;
  json_dumps := sc_json_dumps;
  format_exc := fun e => "Traceback (most recent call last): " +:+ exn_type e;
  str_of_key := sc_str_of_key
|}.

End Scenario.

(** ** Concrete sessions *)

Module Inputs.

Definition unreadable_backend : backend := Backend "unreadable" TupleFilesystemStoreBackend.
Definition healthy_backend : backend := Backend "healthy" TupleFilesystemStoreBackend.
Definition site_backend : backend := Backend "site" TupleFilesystemStoreBackend.

Definition dated_key : key := ["suite"; "20210101T000000"; "batch.json"].
Definition labelled_key : key := ["suite"; "my_run"; "batch.json"].
Definition overflowing_key : key := ["suite"; "99999999999999999999"; "batch.json"].

(** Two validations stores; listing the first one fails. *)
Definition two_stores : data_context :=
  DataContext [("broken", Store ValidationsStore unreadable_backend);
               ("healthy", Store ValidationsStore healthy_backend)] None.

Definition two_stores_disk : Scenario.disk :=
  Scenario.Disk [("healthy", dated_key, Scenario.result_text)] [].

(** One documentation site holding one page whose run name is not a date
    and whose file time cannot be read. *)
Definition one_site : data_context :=
  DataContext [] (Some [("local_site", SiteConfig site_backend)]).

Definition one_site_disk : Scenario.disk :=
  Scenario.Disk [("site", labelled_key, "<html>")] [].

(** One validations store holding one result of the same kind. *)
Definition one_store : data_context :=
  DataContext [("validations", Store ValidationsStore healthy_backend)] None.

Definition one_store_disk : Scenario.disk :=
  Scenario.Disk [("healthy", labelled_key, Scenario.result_text)] [].

(** The same store with the file time available, and a dated run next to it. *)
Definition timed_disk : Scenario.disk :=
  Scenario.Disk
    [("healthy", labelled_key, Scenario.result_text);
     ("healthy", dated_key, Scenario.result_text)]
    [("healthy", labelled_key, "2021-06-15T10:00:00+00:00")].

(** A registry with one store of every classification. *)
Definition mixed_registry : data_context :=
  DataContext
    [("validations", Store ValidationsStore healthy_backend);
     ("sql_validations", Store ValidationsStore (Backend "db" DatabaseStoreBackend));
     ("odd_validations", Store ValidationsStore (Backend "odd" (OtherStoreBackend "OddBackend")));
     ("metrics", Store MetricStore (Backend "mem" InMemoryStoreBackend));
     ("sql_metrics", Store MetricStore (Backend "db2" DatabaseStoreBackend));
     ("expectations", Store OtherStore healthy_backend)]
    (Some [("local_site", SiteConfig site_backend);
           ("memory_site", SiteConfig (Backend "mem" InMemoryStoreBackend))]).

(** A session in which the labelled run has already been resolved. *)
Definition resolved_session : state Scenario.disk :=
  set_validation_run_time "my_run" "2021-06-15T10:00:00+00:00"
    (init one_store timed_disk).

End Inputs.

(** ** Properties stated about the helper *)

Section Properties.

Context {World : Type} (env : Env World).

(** The effect of one content rewrite that started in [st] and returned in
    [st']: the stored text was read and decoded to an object with a ["meta"]
    object inside; the text written under [dest_key] encodes that object with
    [meta.run_id] replaced and every other field as it was; and the backend
    saw the read, the write and the delete in this order. *)
Definition rewrites_only_run_id (source_key : key) (dest_key : option key)
    (run_name : string) (b : backend) (st st' : state World) : Prop :=
  exists run_time content fields meta_fields w,
    validation_run_times st !! run_name = Some run_time
    /\ get env b source_key (world st) = (Ok content, w)
    /\ json_loads env content = Ok (JObj fields)
    /\ dict_get "meta" fields = Some (JObj meta_fields)
    /\ let meta' := dict_set "run_id" (new_run_id_dict run_name run_time) meta_fields in
       let fields' := dict_set "meta" (JObj meta') fields in
       trace st' = trace st ++
         [Get b source_key;
          SetKey b dest_key (json_dumps env (JObj fields'));
          RemoveKey b source_key]
       /\ dict_get "run_id" meta' = Some (new_run_id_dict run_name run_time)
       /\ (forall k, k <> "run_id" -> dict_get k meta' = dict_get k meta_fields)
       /\ dict_get "meta" fields' = Some (JObj meta')
       /\ (forall k, k <> "meta" -> dict_get k fields' = dict_get k fields)
       /\ fields'.*1 = fields.*1.

End Properties.

(** ** Classification buckets *)

Inductive bucket := Checklist | SkipDatabase | SkipUnsupported.

#[global] Instance bucket_eq_dec : EqDecision bucket.
Proof. solve_decision. Defined.

(** [_get_skipped_store_and_site_names]: the names of the stores skipped for
    a database backend, of the stores skipped as unsupported, and of the
    sites skipped as unsupported. *)
Definition _get_skipped_store_and_site_names (l : upgrade_log_t)
  : list string * list string * list string :=
  (map skipped_name (skipped_validations_database l)
     ++ map skipped_name (skipped_metrics_database l),
   map skipped_name (skipped_validations_unsupported l)
     ++ map skipped_name (skipped_metrics_unsupported l),
   map skipped_name (skipped_docs_unsupported l)).

Section Buckets.

Context {World : Type}.

(** The names a bucket holds, for stores and for sites (there is no
    database bucket for sites). *)
Definition store_bucket_names (st : state World) (bk : bucket) : list string :=
  match bk with
  | Checklist => (validations_store_backends (upgrade_checklist st)).*1
  | SkipDatabase => (_get_skipped_store_and_site_names (upgrade_log st)).1.1
  | SkipUnsupported => (_get_skipped_store_and_site_names (upgrade_log st)).1.2
  end.

Definition site_bucket_names (st : state World) (bk : bucket) : list string :=
  match bk with
  | Checklist => (docs_validations_store_backends (upgrade_checklist st)).*1
  | SkipDatabase => []
  | SkipUnsupported => (_get_skipped_store_and_site_names (upgrade_log st)).2
  end.

(** In how many of the three buckets a name appears. *)
Definition bucket_count (names : bucket -> list string) (name : string) : nat :=
  length (filter (fun bk => name ∈ names bk) [Checklist; SkipDatabase; SkipUnsupported]).

(** The completeness property as the specification words it: every store
    and every site of the registry is in exactly one bucket. *)
Definition every_store_and_site_in_one_bucket (dc : data_context) (st : state World)
  : Prop :=
  (forall name s, (name, s) ∈ stores dc ->
     bucket_count (store_bucket_names st) name = 1)
  /\ (forall sites name c, data_docs_sites dc = Some sites -> (name, c) ∈ sites ->
        bucket_count (site_bucket_names st) name = 1).

(** The stores the checklist builder reports at all: validations stores,
    and metric stores unless their backend is the in-memory kind and not a
    database backend. *)
Definition reported (s : store) : bool :=
  match store_cls s with
  | ValidationsStore => true
  | MetricStore =>
      isinstance (store_backend s) DatabaseStoreBackend
      || negb (isinstance (store_backend s) InMemoryStoreBackend)
  | OtherStore => false
  end.

End Buckets.

(** The bucket the builder puts a store or a site in, read off the
    branches of the three [_process_..._for_checklist] methods. *)
Definition store_bucket (s : store) : option bucket :=
  match store_cls s with
  | OtherStore => None
  | ValidationsStore =>
      if isinstance (store_backend s) DatabaseStoreBackend then Some SkipDatabase
      else if is_migratable (store_backend s) then Some Checklist
      else Some SkipUnsupported
  | MetricStore =>
      if isinstance (store_backend s) DatabaseStoreBackend then Some SkipDatabase
      else if isinstance (store_backend s) InMemoryStoreBackend then None
      else Some SkipUnsupported
  end.

Definition site_bucket (c : site_config) : bucket :=
  if is_migratable (site_validations_store_backend c) then Checklist else SkipUnsupported.

(** ** Run-time resolution *)

Section Resolution.

Context {World : Type} (env : Env World).

(** The calls a run-time setter makes before it parses the run name, and
    the provenance call it falls back to. *)
Definition setup_calls (b : backend) : list call :=
  match backend_type b with
  | TupleS3StoreBackend => [Boto3Resource]
  | TupleGCSStoreBackend => [GCSGetBucket b]
  | _ => []
  end.

Definition provenance_call (b : backend) (k : key) : call :=
  match backend_type b with
  | TupleS3StoreBackend => S3LastModified b k
  | TupleGCSStoreBackend => GCSTimeCreated b k
  | _ => FilesystemMtime b k
  end.

(** The setter of [b], started in world [w], gets as far as the parser,
    which then runs in world [w1]. *)
Definition parser_reached (b : backend) (w w1 : World) : Prop :=
  match backend_type b with
  | TupleFilesystemStoreBackend => w1 = w
  | TupleS3StoreBackend => boto3_resource env w = (Ok tt, w1)
  | TupleGCSStoreBackend => gcs_get_bucket env b w = (Ok tt, w1)
  | _ => False
  end.

(** The first [try] statement of the loop body, handler included. *)
Definition first_try (b : backend) (k : key) (sn site : option string) : M World unit :=
  try_except (compute_dest_key env b k) (log_key_exception env b k sn site).

End Resolution.

(** ** Logging *)

(** Exactly one of the two names is given. *)
Definition one_name (sn site : option string) : bool :=
  xorb (truthy_str sn) (truthy_str site).

(** The calls [url_for_log] makes for a key. *)
Definition url_calls (b : backend) (k : option key) : list call :=
  match k with
  | Some k' => if truthy_key k then [GetUrlForKey b k'] else []
  | None => []
  end.

(** The exception entry logged for a failure with message [msg]. *)
Definition entry_for (sn site : option string) (src dest : string) (msg : option string)
  : exception_entry :=
  ExceptionEntry
    (if truthy_str sn then validation_store_name else site_name_key)
    (if truthy_str sn then sn else site)
    src dest (default "" msg).

(** The log after the entry, if any, has been appended. *)
Definition log_with_entry (sn site : option string) (src dest : string)
    (msg : option string) (l : upgrade_log_t) : upgrade_log_t :=
  if truthy_str msg then log_append_exception (entry_for sn site src dest msg) l else l.

(** The log after the per-store outcome has been updated as well, when the
    store or site has an outcome record. *)
Definition log_with_outcome (sn site : option string) (src dest : string)
    (msg : option string) (l : upgrade_log_t) : result upgrade_log_t :=
  let l1 := log_with_entry sn site src dest msg l in
  if truthy_str sn then
    match record_outcome (upgraded_validations_stores l1) sn (truthy_str msg)
            (Updated src dest) with
    | Ok d => Ok (log_set_upgraded_validations d l1)
    | Raise e => Raise e
    end
  else
    match record_outcome (upgraded_docs_site_validations_stores l1) site
            (truthy_str msg) (Updated src dest) with
    | Ok d => Ok (log_set_upgraded_docs d l1)
    | Raise e => Raise e
    end.

Section Frames.

Context {World : Type}.

(** [self] and the loop locals are as they were: only the world and the
    trace may differ. *)
Definition outside_only (st st' : state World) : Prop :=
  upgrade_log st' = upgrade_log st
  /\ upgrade_checklist st' = upgrade_checklist st
  /\ validation_run_times st' = validation_run_times st
  /\ local_run_name st' = local_run_name st
  /\ local_dest_key st' = local_dest_key st.

(** Every cached run time is still cached, with the same value. *)
Definition cache_grows (st st' : state World) : Prop :=
  validation_run_times st ⊆ validation_run_times st'.

(** Only the run name of [k] may have been written. *)
Definition cache_same_except (k : key) (st st' : state World) : Prop :=
  forall rn, tuple_getitem k (-2) = Ok rn ->
  forall r, r <> rn -> validation_run_times st' !! r = validation_run_times st !! r.

End Frames.

Section ParserErrors.

Context {World : Type} (env : Env World).

(** How an exception [e] of the date parser is handled for key [k] of
    backend [b] from state [st]: a [ParserError] makes the setter go on to
    the provenance call; any other exception leaves the setter, with no
    further call and the cache untouched, and is logged by the first [try]
    statement of the loop body as one entry for [k] with destination
    ["N/A"]. *)
Definition parser_error_handling (b : backend) (k : key) (sn site : option string)
    (rn : string) (st : state World) (e : exn) : Prop :=
  exists setter,
    run_time_setters_by_backend_type env (backend_type b) = Some setter
    /\ if is_ParserError e then
         exists r st1,
           setter k b st = (r, st1)
           /\ trace st1 = trace st ++ setup_calls b ++ [Parse rn; provenance_call b k]
       else
         (exists st1,
            setter k b st = (Raise e, st1)
            /\ trace st1 = trace st ++ setup_calls b ++ [Parse rn]
            /\ validation_run_times st1 = validation_run_times st)
         /\ (exists r st2 src,
               first_try env b k sn site st = (r, st2)
               /\ exceptions (upgrade_log st2)
                  = exceptions (upgrade_log st)
                      ++ [entry_for sn site src "N/A" (Some (exception_message env e))]
               /\ trace st2
                  = trace st ++ setup_calls b ++ [Parse rn] ++ url_calls b (Some k)
               /\ validation_run_times st2 = validation_run_times st
               /\ local_dest_key st2 = Some None).

End ParserErrors.

(** ** Outcome flags and exception entries *)

(** The per-store or per-site outcome records of a log. *)
Definition records (l : upgrade_log_t) (kn : name_key) : gmap string outcome :=
  match kn with
  | validation_store_name => upgraded_validations_stores l
  | site_name_key => upgraded_docs_site_validations_stores l
  end.

(** The entry names store (or site) [n]. *)
Definition entry_names (e : exception_entry) (kn : name_key) (n : string) : Prop :=
  entry_key e = kn /\ entry_name e = Some n.

(** A store's or site's flag is set exactly when some entry of the flat
    exceptions list names it. *)
Definition flags_match_entries (l : upgrade_log_t) : Prop :=
  forall kn n o, records l kn !! n = Some o ->
    (outcome_exceptions o = true <-> exists e, e ∈ exceptions l /\ entry_names e kn n).

(** Every entry names a store or site that has an outcome record. *)
Definition entries_have_records (l : upgrade_log_t) : Prop :=
  forall e, e ∈ exceptions l ->
    exists n, entry_name e = Some n /\ is_Some (records l (entry_key e) !! n).

(** The store or site a call of [_update_upgrade_log] is made for. *)
Definition owner_key (sn : option string) : name_key :=
  if truthy_str sn then validation_store_name else site_name_key.

Definition owner_name (sn site : option string) : option string :=
  if truthy_str sn then sn else site.

Definition set_records (kn : name_key) (d : gmap string outcome) (l : upgrade_log_t)
  : upgrade_log_t :=
  match kn with
  | validation_store_name => log_set_upgraded_validations d l
  | site_name_key => log_set_upgraded_docs d l
  end.

Definition sn_of (kn : name_key) (n : string) : option string :=
  match kn with validation_store_name => Some n | site_name_key => None end.

Definition site_of (kn : name_key) (n : string) : option string :=
  match kn with validation_store_name => None | site_name_key => Some n end.

(** The fresh outcome record a pass stores before it migrates [n]. *)
Definition init_record (kn : name_key) (n : string) (l : upgrade_log_t) : upgrade_log_t :=
  set_records kn (<[n := empty_outcome]> (records l kn)) l.

(** The two invariants of the log together, and the fact that the named
    store or site has an outcome record. *)
Definition log_inv (l : upgrade_log_t) : Prop :=
  flags_match_entries l /\ entries_have_records l.

Definition has_record (sn site : option string) (l : upgrade_log_t) : Prop :=
  exists n, owner_name sn site = Some n /\ is_Some (records l (owner_key sn) !! n).

(** ** Relations between the state before and after a method *)

Section Relations.

Context {World : Type}.

(** [stable R m]: every run of [m], whether it returns or raises, relates
    the state it started from to the state it left. *)
Definition stable (R : state World -> state World -> Prop) {A} (m : M World A) : Prop :=
  forall st r st', m st = (r, st') -> R st st'.

(** What one [upgrade_store_backend] for the names [sn], [site] may do to
    the log: the checklist and the set of outcome records stay as they
    are, and the two log invariants survive if the named store or site has
    its record. *)
Definition session_step (sn site : option string) (st st' : state World) : Prop :=
  upgrade_checklist st' = upgrade_checklist st
  /\ (forall kn n, is_Some (records (upgrade_log st') kn !! n)
                   <-> is_Some (records (upgrade_log st) kn !! n))
  /\ (has_record sn site (upgrade_log st) -> log_inv (upgrade_log st) ->
      log_inv (upgrade_log st')).

(** Nothing has been migrated or logged yet, and the checklist is a dict. *)
Definition fresh (st : state World) : Prop :=
  exceptions (upgrade_log st) = []
  /\ (forall kn, records (upgrade_log st) kn = ∅)
  /\ NoDup (validations_store_backends (upgrade_checklist st)).*1
  /\ NoDup (docs_validations_store_backends (upgrade_checklist st)).*1.

End Relations.

Section Items.

Context {World : Type} (env : Env World).

(** The body of either loop of [upgrade_project], for the store names
    ([validation_store_name]) or the site names ([site_name_key]). *)
Definition upgrade_item (kn : name_key) (item : string * backend) : M World unit :=
  modify (with_upgrade_log (init_record kn item.1)) ;;
  upgrade_store_backend env item.2 (sn_of kn item.1) (site_of kn item.1).

End Items.

(** ** Further properties stated about the helper *)

Section ChecklistContents.

Context {World : Type}.

(** Every entry of the two checklists is a migratable backend taken from
    the registry, and every element of a skip list carries the name and the
    backend class name of a registered store or site. *)
Definition checklist_sound (dc : data_context) (st : state World) : Prop :=
  (forall name b, (name, b) ∈ validations_store_backends (upgrade_checklist st) ->
     is_migratable b = true
     /\ isinstance b DatabaseStoreBackend = false
     /\ (name, Store ValidationsStore b) ∈ stores dc)
  /\ (forall name b, (name, b) ∈ docs_validations_store_backends (upgrade_checklist st) ->
        is_migratable b = true
        /\ (name, SiteConfig b) ∈ default [] (data_docs_sites dc))
  /\ (forall e, e ∈ skipped_validations_database (upgrade_log st) ->
        exists b, (skipped_name e, Store ValidationsStore b) ∈ stores dc
          /\ isinstance b DatabaseStoreBackend = true
          /\ skipped_backend_class e = class_name (backend_type b))
  /\ (forall e, e ∈ skipped_validations_unsupported (upgrade_log st) ->
        exists b, (skipped_name e, Store ValidationsStore b) ∈ stores dc
          /\ isinstance b DatabaseStoreBackend = false /\ is_migratable b = false
          /\ skipped_backend_class e = class_name (backend_type b))
  /\ (forall e, e ∈ skipped_metrics_database (upgrade_log st) ->
        exists b, (skipped_name e, Store MetricStore b) ∈ stores dc
          /\ isinstance b DatabaseStoreBackend = true
          /\ skipped_backend_class e = class_name (backend_type b))
  /\ (forall e, e ∈ skipped_metrics_unsupported (upgrade_log st) ->
        exists b, (skipped_name e, Store MetricStore b) ∈ stores dc
          /\ isinstance b DatabaseStoreBackend = false
          /\ isinstance b InMemoryStoreBackend = false
          /\ skipped_backend_class e = class_name (backend_type b))
  /\ (forall e, e ∈ skipped_docs_unsupported (upgrade_log st) ->
        exists b, (skipped_name e, SiteConfig b) ∈ default [] (data_docs_sites dc)
          /\ is_migratable b = false
          /\ skipped_backend_class e = class_name (backend_type b)).

End ChecklistContents.

Section RewriteCalls.

Context {World : Type} (env : Env World).

(** The four ways a content rewrite can go, read off the calls it made
    ([new]) and its result [r]: the run time is missing from the cache and
    nothing is called; the value cannot be read, decoded or updated and only
    the read is made; the write raises and the source key is not removed; or
    the write returns and the removal is attempted, its result being the
    result of the rewrite. *)
Definition rewrite_outcome (sk : key) (dk : option key) (rn : string) (b : backend)
    (st : state World) (r : result unit) (st' : state World) : Prop :=
  (validation_run_times st !! rn = None /\ r = Raise (KeyError rn) /\ st' = st)
  \/ (trace st' = trace st ++ [Get b sk] /\ exists e, r = Raise e)
  \/ (exists v e w w',
        trace st' = trace st ++ [Get b sk; SetKey b dk v]
        /\ set env b dk v w = (Raise e, w') /\ r = Raise e)
  \/ (exists v w w' w'',
        trace st' = trace st ++ [Get b sk; SetKey b dk v; RemoveKey b sk]
        /\ set env b dk v w = (Ok tt, w')
        /\ remove_key env b sk w' = (r, w'') /\ world st' = w'').

End RewriteCalls.

Section Urls.

Context {World : Type} (env : Env World).

(** The string [_update_upgrade_log] logs for a key, and the world after
    asking for it: ["N/A"] for [None] or an empty tuple, the URL of the
    backend, or the placeholder when the backend raises. *)
Definition url_result (b : backend) (k : option key) (w : World) : string * World :=
  match k with
  | Some k' =>
      if truthy_key k then
        match get_url_for_key env b k' w with
        | (Ok url, w') => (url, w')
        | (Raise _, w') => ("Unable to generate URL for key: " +:+ str_of_key env k, w')
        end
      else ("N/A", w)
  | None => ("N/A", w)
  end.

(** The state after a call of [_update_upgrade_log] that got past its
    assertions: the log is [l], the world is [w], the URL calls are in the
    trace, the rest is as before. *)
Definition logged (b : backend) (sk dk : option key) (l : upgrade_log_t) (w : World)
    (st : state World) : state World :=
  State l (upgrade_checklist st) (validation_run_times st) w
    (trace st ++ url_calls b sk ++ url_calls b dk)
    (local_run_name st) (local_dest_key st).

End Urls.

Module Started.

(** A session on [Inputs.one_store] in which the pass has just stored the
    fresh outcome record of the store, over two different disks. *)
Definition store_session : state Scenario.disk :=
  with_upgrade_log (init_record validation_store_name "validations")
    (init Inputs.one_store Inputs.one_store_disk).

Definition timed_store_session : state Scenario.disk :=
  with_upgrade_log (init_record validation_store_name "validations")
    (init Inputs.one_store Inputs.timed_disk).

(** The same for the site of [Inputs.one_site]. *)
Definition site_session : state Scenario.disk :=
  with_upgrade_log (init_record site_name_key "local_site")
    (init Inputs.one_site Inputs.one_site_disk).

End Started.

Section LoggedOutcome.

Context {World : Type} (env : Env World).

(** A call of [_update_upgrade_log] from [st] returned in [st'], having
    asked only for the URLs of the non-empty keys; a URL the backend refused
    to give was replaced by the placeholder. *)
Definition logs_and_returns (b : backend) (sk dk : option key)
    (sn site msg : option string) (st : state World) : Prop :=
  exists st',
    _update_upgrade_log env b sk dk sn site msg st = (Ok tt, st')
    /\ trace st' = trace st ++ url_calls b sk ++ url_calls b dk
    /\ has_record sn site (upgrade_log st')
    /\ validation_run_times st' = validation_run_times st
    /\ upgrade_checklist st' = upgrade_checklist st.

(** The effect on the log of logging the pair [src], [dest] for the store
    or site named [n]: with a message, one entry is appended and the flag of
    [n] is set; without, the pair is appended to the updated list of [n]. *)
Definition outcome_logged (sn site msg : option string) (n src dest : string)
    (l l' : upgrade_log_t) : Prop :=
  exists o,
    records l (owner_key sn) !! n = Some o
    /\ exceptions l'
       = exceptions l ++ (if truthy_str msg then [entry_for sn site src dest msg] else [])
    /\ records l' (owner_key sn) !! n
       = Some (if truthy_str msg then Outcome (outcome_updated o) true
               else Outcome (outcome_updated o ++ [Updated src dest]) (outcome_exceptions o))
    /\ (forall kn n', (kn, n') <> (owner_key sn, n) -> records l' kn !! n' = records l kn !! n').

End LoggedOutcome.

Section SetterOutcomes.

Context {World : Type} (env : Env World).

(** The provenance oracle a setter falls back to. *)
Definition provenance (b : backend) (k : key) : World -> result string * World :=
  match backend_type b with
  | TupleS3StoreBackend => s3_last_modified_isoformat env b k
  | TupleGCSStoreBackend => gcs_time_created_isoformat env b k
  | _ => filesystem_mtime_isoformat env b k
  end.

(** [st] after the calls [calls] left the world [w], with the run time of
    [rn] written to the cache, or with the cache as it was. *)
Definition resolved (st : state World) (rn iso : string) (w : World) (calls : list call)
  : state World :=
  State (upgrade_log st) (upgrade_checklist st) (<[rn := iso]> (validation_run_times st))
    w (trace st ++ calls) (local_run_name st) (local_dest_key st).

Definition unresolved (st : state World) (w : World) (calls : list call) : state World :=
  State (upgrade_log st) (upgrade_checklist st) (validation_run_times st)
    w (trace st ++ calls) (local_run_name st) (local_dest_key st).

(** What the setter of [b] does for key [k] with run name [rn] once its
    parser call is made in world [w1]. *)
Definition setter_outcome (b : backend) (k : key) (rn : string) (st : state World)
    (w1 : World) (setter : key -> backend -> M World unit) : Prop :=
  match parse_isoformat env rn w1 with
  | (Ok iso, w2) =>
      setter k b st = (Ok tt, resolved st rn iso w2 (setup_calls b ++ [Parse rn]))
  | (Raise e, w2) =>
      if is_ParserError e then
        match provenance b k w2 with
        | (Ok iso, w3) =>
            setter k b st
            = (Ok tt, resolved st rn iso w3
                        (setup_calls b ++ [Parse rn; provenance_call b k]))
        | (Raise e', w3) =>
            setter k b st
            = (Raise e', unresolved st w3
                           (setup_calls b ++ [Parse rn; provenance_call b k]))
        end
      else setter k b st = (Raise e, unresolved st w2 (setup_calls b ++ [Parse rn]))
  end.

End SetterOutcomes.

Module Offline.

(** The scenario world on a machine where [boto3] cannot be imported. *)
Definition env : Env Scenario.disk := {|
  list_keys := Scenario.sc_list_keys;
  get_url_for_key := Scenario.sc_get_url_for_key;
  get := Scenario.sc_get;
  set := Scenario.sc_set;
  remove_key := Scenario.sc_remove_key;
  move := Scenario.sc_move;
  parse_isoformat := Scenario.sc_parse_isoformat;
  filesystem_mtime_isoformat := Scenario.sc_time;
  boto3_resource :=
    fun d => (Raise (Exn "ModuleNotFoundError" "No module named 'boto3'"), d);
  s3_last_modified_isoformat := Scenario.sc_time;
  gcs_get_bucket := fun _ => Scenario.sc_client;
  gcs_time_created_isoformat := Scenario.sc_time;
  json_loads := Scenario.sc_json_loads;
  json_dumps := Scenario.sc_json_dumps;
  format_exc := fun e => "Traceback (most recent call last): " +:+ exn_type e;
  str_of_key := Scenario.sc_str_of_key
|}.

Definition s3_backend : backend := Backend "bucket" TupleS3StoreBackend.

End Offline.

(** ** Counting what a key leaves in the log *)

(** The number of exception entries plus the number of updated pairs of
    the store or site [n]. *)
Definition contributions (l : upgrade_log_t) (kn : name_key) (n : string) : nat :=
  length (exceptions l)
  + match records l kn !! n with
    | Some o => length (outcome_updated o)
    | None => 0
    end.

Section EngineFrames.

Context {World : Type}.

(** The log, the checklist and the loop locals are as they were. *)
Definition resolver_frame (st st' : state World) : Prop :=
  upgrade_log st' = upgrade_log st
  /\ upgrade_checklist st' = upgrade_checklist st
  /\ local_run_name st' = local_run_name st
  /\ local_dest_key st' = local_dest_key st.

(** The state in which a loop iteration can log for the store or site
    [n]: exactly one name is given, it is [n], and [n] has its record. *)
Definition can_log (sn site : option string) (n : string) (st : state World) : Prop :=
  one_name sn site = true
  /\ owner_name sn site = Some n
  /\ is_Some (records (upgrade_log st) (owner_key sn) !! n).

End EngineFrames.

(** ** Sessions that reach the edges of the loop *)

Module Stray.

(** The pass has stored the record of the store [broken] of
    [Inputs.two_stores], whose backend cannot be listed. *)
Definition broken_session : state Scenario.disk :=
  with_upgrade_log (init_record validation_store_name "broken")
    (init Inputs.two_stores Inputs.two_stores_disk).

(** A file directly under the root of a backend: its key has one segment. *)
Definition stray_key : key := ["index.html"].

(** A site whose listing starts with the stray file. *)
Definition stray_disk : Scenario.disk :=
  Scenario.Disk [("site", stray_key, "<html>index</html>");
                 ("site", Inputs.labelled_key, "<html>")] [].

Definition stray_session : state Scenario.disk :=
  with_upgrade_log (init_record site_name_key "local_site")
    (init Inputs.one_site stray_disk).



End Stray.

(** ** The prompt, and what a session leaves of the plan *)

Section Prompt.

Context {World : Type}.

Definition newline : string := String (Ascii.ascii_of_nat 10) EmptyString.

(** [", ".join(names) if names else "None"] *)
Definition join_or_None (names : list string) : string :=
  match names with
  | [] => "None"
  | _ => String.concat ", " names
  end.

(** [get_upgrade_prompt]: the text is written line by line; it ends with a
    newline. *)
Definition get_upgrade_prompt (st : state World) : string :=
  let '(skip_with_database_backends, skip_with_unsupported_backends,
        skip_doc_sites_with_unsupported_backends) :=
    _get_skipped_store_and_site_names (upgrade_log st) in
  let validations_store_name_checklist :=
    (validations_store_backends (upgrade_checklist st)).*1 in
  let site_name_checklist :=
    (docs_validations_store_backends (upgrade_checklist st)).*1 in
  String.concat newline
    [ "**WARNING!**: This automated upgrade helper is currently experimental. Before proceeding, please make sure you have";
      "appropriate backups of your project.";
      EmptyString;
      "The following Stores and/or Data Docs sites will be upgraded:";
      "    - Validation Stores: " +:+ join_or_None validations_store_name_checklist;
      "    - Data Docs Sites: " +:+ join_or_None site_name_checklist;
      EmptyString;
      "The following Stores and/or Data Docs sites must be upgraded manually, due to having a database backend, or backend";
      "type that is unsupported or unrecognized. Please consult the 0.11.x migration guide for more information:";
      "https://docs.greatexpectations.io/how_to_guides/migrating_versions.html";
      "    - Stores with database backends: " +:+ join_or_None skip_with_database_backends;
      "    - Stores with unsupported/unrecognized backends: "
        +:+ join_or_None skip_with_unsupported_backends;
      "    - Data Docs sites with unsupported/unrecognized backends: "
        +:+ join_or_None skip_doc_sites_with_unsupported_backends;
      EmptyString;
      "Would you like to proceed?";
      EmptyString ].

(** The five skip lists of the log. *)
Definition skip_lists (l : upgrade_log_t)
  : list skipped * list skipped * list skipped * list skipped * list skipped :=
  (skipped_validations_database l, skipped_validations_unsupported l,
   skipped_docs_unsupported l, skipped_metrics_database l,
   skipped_metrics_unsupported l).

(** The plan made by [__init__] is as it was, and the exception entries
    logged so far are still there, in place, possibly followed by new ones. *)
Definition plan_kept (st st' : state World) : Prop :=
  upgrade_checklist st' = upgrade_checklist st
  /\ skip_lists (upgrade_log st') = skip_lists (upgrade_log st)
  /\ exceptions (upgrade_log st) `prefix_of` exceptions (upgrade_log st').

End Prompt.

(** ** The calls a migration may make *)

(** The backend a call is addressed to. *)
Definition call_backend (c : call) : option backend :=
  match c with
  | ListKeys b | GetUrlForKey b _ | Get b _ | SetKey b _ _ | RemoveKey b _
  | Move b _ _ | FilesystemMtime b _ | S3LastModified b _ | GCSGetBucket b
  | GCSTimeCreated b _ => Some b
  | Parse _ | Boto3Resource => None
  end.

(** The backend class whose run-time setter makes the call. *)
Definition provenance_class (c : call) : option backend_class :=
  match c with
  | FilesystemMtime _ _ => Some TupleFilesystemStoreBackend
  | Boto3Resource | S3LastModified _ _ => Some TupleS3StoreBackend
  | GCSGetBucket _ | GCSTimeCreated _ _ => Some TupleGCSStoreBackend
  | _ => None
  end.

(** Calls that read, write or delete the content under a key, and calls
    that relocate a key. *)
Definition rewrites_content (c : call) : bool :=
  match c with
  | Get _ _ | SetKey _ _ _ | RemoveKey _ _ => true
  | _ => false
  end.

Definition moves_key (c : call) : bool :=
  match c with
  | Move _ _ _ => true
  | _ => false
  end.

(** What [upgrade_store_backend] may call for the backend [b]: nothing
    addressed to another backend, no provenance call of another backend
    class, no [move] for a store and no [get], [set] or [remove_key] for a
    site. *)
Definition permitted (b : backend) (sn : option string) (c : call) : bool :=
  bool_decide (call_backend c = None \/ call_backend c = Some b)
  && bool_decide (provenance_class c = None
                  \/ provenance_class c = Some (backend_type b))
  && (if truthy_str sn then negb (moves_key c) else negb (rewrites_content c)).

(** What a session may call: what is permitted for some store or some site
    of the checklist. *)
Definition on_checklist (cl : upgrade_checklist_t) (c : call) : bool :=
  existsb (fun item : string * backend => permitted item.2 (Some item.1) c)
    (validations_store_backends cl)
  || existsb (fun item : string * backend => permitted item.2 None c)
       (docs_validations_store_backends cl).

Section CallsWithin.

Context {World : Type}.

(** The calls made between [st] and [st'] all satisfy [P]. *)
Definition calls_within (P : call -> bool) (st st' : state World) : Prop :=
  exists made, trace st' = trace st ++ made /\ Forall (fun c => P c = true) made.

End CallsWithin.

(** ** A store whose run has been resolved *)

Module Resolved.

(** The store of [Started.timed_store_session] once the labelled run has
    been given its time. *)
Definition session : state Scenario.disk :=
  set_validation_run_time "my_run" "2021-06-15T10:00:00+00:00"
    Started.timed_store_session.

Definition dest : key := ["suite"; "my_run"; "2021-06-15T10:00:00+00:00"; "batch.json"].

(** The stored result with its run identifier replaced. *)
Definition migrated_json : json :=
  JObj [("meta",
         JObj [("run_id", new_run_id_dict "my_run" "2021-06-15T10:00:00+00:00");
               ("batch", JStr "b1")]);
        ("success", JBool true)].

Definition written : Scenario.disk :=
  Scenario.write_file "healthy" dest (Scenario.sc_json_dumps migrated_json)
    Inputs.timed_disk.

Definition removed : Scenario.disk :=
  Scenario.remove_file "healthy" Inputs.labelled_key written.

End Resolved.

(** ** Keys whose run time cannot be resolved *)

Module Undated.

(** The states in which the first [try] block leaves the store and the site
    whose only key has a run name that is not a date and a file whose time
    cannot be read. *)
Definition store_state : state Scenario.disk :=
  (compute_dest_key Scenario.env Inputs.healthy_backend Inputs.labelled_key
     Started.store_session).2.

Definition site_state : state Scenario.disk :=
  (compute_dest_key Scenario.env Inputs.site_backend Inputs.labelled_key
     Started.site_session).2.

End Undated.
(** ** Generic facts about the monad *)

Section MonadFacts.

Context {World : Type}.

#[local] Abbreviation M := (M World).
#[local] Abbreviation state := (state World).

Lemma bind_inv {A B} (m : M A) (k : A -> M B) st r st' :
  bind m k st = (r, st') ->
  (exists a st1, m st = (Ok a, st1) /\ k a st1 = (r, st'))
  \/ (exists e, m st = (Raise e, st') /\ r = Raise e).
Proof.
  unfold bind. destruct (m st) as [[a|e] st1] eqn:E; intros H.
  - left. eauto.
  - right. inversion H; subst. eauto.
Qed.

Lemma bind_ok_inv {A B} (m : M A) (k : A -> M B) st b st' :
  bind m k st = (Ok b, st') ->
  exists a st1, m st = (Ok a, st1) /\ k a st1 = (Ok b, st').
Proof.
  intros H. apply bind_inv in H as [H|(e & _ & H)]; [exact H | discriminate].
Qed.

Lemma try_except_inv {A} (m : M A) (h : exn -> M A) st r st' :
  try_except m h st = (r, st') ->
  (exists a, m st = (Ok a, st') /\ r = Ok a)
  \/ (exists e st1, m st = (Raise e, st1) /\ h e st1 = (r, st')).
Proof.
  unfold try_except. destruct (m st) as [[a|e] st1] eqn:E; intros H.
  - left. inversion H; subst. eauto.
  - right. eauto.
Qed.

Lemma lift_inv {A} (x : result A) (st : state) r st' :
  lift x st = (r, st') -> x = r /\ st' = st.
Proof. unfold lift. intros H. inversion H; subst. auto. Qed.

Lemma modify_inv (f : state -> state) st r st' :
  modify f st = (r, st') -> r = Ok tt /\ st' = f st.
Proof. unfold modify. intros H. inversion H; subst. auto. Qed.

Lemma gets_inv {A} (f : state -> A) st r st' :
  gets f st = (r, st') -> r = Ok (f st) /\ st' = st.
Proof. unfold gets. intros H. inversion H; subst. auto. Qed.

Section Stable.

Context (R : state -> state -> Prop) `{!Reflexive R, !Transitive R}.

Lemma stable_ret {A} (a : A) : stable R (ret a).
Proof. intros st r st' H. inversion H; subst. reflexivity. Qed.

Lemma stable_raise {A} (e : exn) : stable R (raise (A:=A) e).
Proof. intros st r st' H. inversion H; subst. reflexivity. Qed.

Lemma stable_lift {A} (x : result A) : stable R (lift x).
Proof. intros st r st' H. inversion H; subst. reflexivity. Qed.

Lemma stable_gets {A} (f : state -> A) : stable R (gets f).
Proof. intros st r st' H. inversion H; subst. reflexivity. Qed.

Lemma stable_modify (f : state -> state) :
  (forall st, R st (f st)) -> stable R (modify f).
Proof. intros Hf st r st' H. inversion H; subst. apply Hf. Qed.

Lemma stable_bind {A B} (m : M A) (k : A -> M B) :
  stable R m -> (forall a, stable R (k a)) -> stable R (bind m k).
Proof.
  intros Hm Hk st r st' H.
  apply bind_inv in H as [(a & st1 & H1 & H2)|(e & H1 & _)].
  - etransitivity; [eapply Hm, H1 | eapply Hk, H2].
  - eapply Hm, H1.
Qed.

Lemma stable_bind_lift {A B} (x : result A) (k : A -> M B) :
  (forall a, x = Ok a -> stable R (k a)) -> stable R (bind (lift x) k).
Proof.
  intros Hk st r st' H.
  apply bind_inv in H as [(a & st1 & H1 & H2)|(e & H1 & _)].
  - apply lift_inv in H1 as [-> ->]. eapply Hk; eauto.
  - apply lift_inv in H1 as [_ ->]. reflexivity.
Qed.

Lemma stable_try_except {A} (m : M A) (h : exn -> M A) :
  stable R m -> (forall e, stable R (h e)) -> stable R (try_except m h).
Proof.
  intros Hm Hh st r st' H.
  apply try_except_inv in H as [(a & H1 & _)|(e & st1 & H1 & H2)].
  - eapply Hm, H1.
  - etransitivity; [eapply Hm, H1 | eapply Hh, H2].
Qed.

Lemma stable_try_except_ParserError {A} (m h : M A) :
  stable R m -> stable R h -> stable R (try_except_ParserError m h).
Proof.
  intros Hm Hh st r st'. unfold try_except_ParserError.
  destruct (m st) as [[a|e] st1] eqn:E.
  - intros H; inversion H; subst. eapply Hm, E.
  - destruct (is_ParserError e); intros H.
    + etransitivity; [eapply Hm, E | eapply Hh, H].
    + inversion H; subst. eapply Hm, E.
Qed.

Lemma stable_for_each {A} (l : list A) (body : A -> M unit) :
  (forall x, stable R (body x)) -> stable R (for_each l body).
Proof.
  intros Hb. induction l as [|x l IH]; simpl.
  - apply stable_ret.
  - apply stable_bind; auto.
Qed.

Lemma stable_perform {A} (c : call) (f : World -> result A * World) :
  (forall st w,
     R st (State (upgrade_log st) (upgrade_checklist st) (validation_run_times st)
             w (trace st ++ [c]) (local_run_name st) (local_dest_key st))) ->
  stable R (perform c f).
Proof.
  intros Hf st r st'. unfold perform.
  destruct (f (world st)) as [r' w]. intros H; inversion H; subst. apply Hf.
Qed.

Lemma stable_read_run_name : stable R read_run_name.
Proof.
  intros st r st'. unfold read_run_name.
  destruct (local_run_name st); intros H; inversion H; subst; reflexivity.
Qed.

Lemma stable_read_dest_key : stable R read_dest_key.
Proof.
  intros st r st'. unfold read_dest_key.
  destruct (local_dest_key st); intros H; inversion H; subst; reflexivity.
Qed.

Lemma stable_run_time_getitem rn : stable R (run_time_getitem rn).
Proof.
  intros st r st'. unfold run_time_getitem.
  destruct (validation_run_times st !! rn); intros H; inversion H; subst; reflexivity.
Qed.

Lemma stable_assert sn site : stable R (assert_store_name_or_site_name sn site).
Proof.
  unfold assert_store_name_or_site_name.
  destruct (negb _); [apply stable_raise|].
  destruct (_ && _); [apply stable_raise|apply stable_ret].
Qed.

End Stable.

End MonadFacts.

(** ** Destination keys *)

Lemma tuple_getitem_neg2 (prefix : key) (r t : string) :
  tuple_getitem (prefix ++ [r; t]) (-2) = Ok r.
Proof.
  unfold tuple_getitem. rewrite length_app. simpl length.
  replace (-2 <? 0)%Z with true by reflexivity.
  replace (-2 + Z.of_nat (length prefix + 2))%Z with (Z.of_nat (length prefix)) by lia.
  replace (Z.of_nat (length prefix) <? 0)%Z with false by (symmetry; apply Z.ltb_ge; lia).
  replace (Z.of_nat (length prefix + 2) <=? Z.of_nat (length prefix))%Z with false
    by (symmetry; apply Z.leb_gt; lia).
  cbv beta iota zeta. rewrite Nat2Z.id. simpl orb. cbv iota.
  rewrite list_lookup_middle by reflexivity. reflexivity.
Qed.

Lemma list_insert_at_neg1 {A} (prefix : list A) (r t x : A) :
  list_insert_at (-1) x (prefix ++ [r; t]) = prefix ++ [r; x; t].
Proof.
  unfold list_insert_at. rewrite length_app. simpl length.
  replace (-1 <? 0)%Z with true by reflexivity.
  replace (Z.to_nat (Z.max 0 (-1 + Z.of_nat (length prefix + 2))))
    with (length prefix + 1) by lia.
  rewrite take_app_ge, drop_app_ge by lia.
  replace (length prefix + 1 - length prefix) with 1 by lia.
  simpl. rewrite <- app_assoc. reflexivity.
Qed.

Section KeyFacts.

Context {World : Type} (env : Env World).

(** What a returning run of the first [try] block has established. *)
Lemma compute_dest_key_ok b k st st' :
  compute_dest_key env b k st = (Ok tt, st') ->
  exists rn T,
    tuple_getitem k (-2) = Ok rn
    /\ validation_run_times st' !! rn = Some T
    /\ local_dest_key st' = Some (Some (list_insert_at (-1) T k)).
Proof.
  unfold compute_dest_key. intros H.
  apply bind_ok_inv in H as (rn & s1 & H1 & H).
  apply bind_ok_inv in H as ([] & s2 & H2 & H).
  apply bind_ok_inv in H as ([] & s3 & H3 & H).
  apply bind_ok_inv in H as (cached & s4 & H4 & H).
  apply bind_ok_inv in H as ([] & s5 & H5 & H).
  apply bind_ok_inv in H as (T & s6 & H6 & H).
  exists rn, T.
  unfold lift in H1. inversion H1; subst s1.
  unfold run_time_getitem in H6.
  destruct (validation_run_times s5 !! rn) eqn:E; inversion H6; subst.
  unfold modify in H. inversion H; subst. simpl.
  repeat split; auto.
Qed.

(** C4.  For a source key [[..., runId, tail]], when the first [try] block of
    the loop body returns, the run identifier is cached with some timestamp
    [T] and the destination key it computed is [[..., runId, T, tail]]: one
    segment longer, the other segments unchanged and in their order. *)
Theorem dest_key_inserts_run_time b (prefix : key) (runId tail : string) st st' :
  compute_dest_key env b (prefix ++ [runId; tail]) st = (Ok tt, st') ->
  exists T,
    validation_run_times st' !! runId = Some T
    /\ local_dest_key st' = Some (Some (prefix ++ [runId; T; tail]))
    /\ length (prefix ++ [runId; T; tail]) = S (length (prefix ++ [runId; tail])).
Proof.
  intros H. apply compute_dest_key_ok in H as (rn & T & Hrn & HT & Hd).
  rewrite tuple_getitem_neg2 in Hrn. inversion Hrn; subst rn.
  exists T. rewrite list_insert_at_neg1 in Hd.
  repeat split; auto.
  rewrite !length_app. simpl. lia.
Qed.

End KeyFacts.

Lemma dest_key_inserts_run_time_witness :
  exists T,
    validation_run_times
      (compute_dest_key Scenario.env Inputs.healthy_backend
         (["suite"] ++ ["20210101T000000"; "batch.json"])
         (init Inputs.one_store Inputs.timed_disk)).2 !! "20210101T000000" = Some T
    /\ local_dest_key
         (compute_dest_key Scenario.env Inputs.healthy_backend
            (["suite"] ++ ["20210101T000000"; "batch.json"])
            (init Inputs.one_store Inputs.timed_disk)).2
       = Some (Some (["suite"] ++ ["20210101T000000"; T; "batch.json"]))
    /\ length (["suite"] ++ ["20210101T000000"; T; "batch.json"])
       = S (length (["suite"] ++ ["20210101T000000"; "batch.json"])).
Proof.
  apply (dest_key_inserts_run_time Scenario.env Inputs.healthy_backend
           ["suite"] "20210101T000000" "batch.json"
           (init Inputs.one_store Inputs.timed_disk)).
  vm_compute. reflexivity.
Defined.

(** ** Content rewrite *)

Lemma dict_get_set_eq {V} (k : string) (v : V) d :
  dict_get k (dict_set k v d) = Some v.
Proof.
  induction d as [|[k' v'] d IH]; simpl.
  - destruct (decide (k = k)); congruence.
  - destruct (decide (k' = k)) as [->|Hne]; simpl.
    + destruct (decide (k = k)); congruence.
    + destruct (decide (k' = k)); congruence.
Qed.

Lemma dict_get_set_ne {V} (k k0 : string) (v : V) d :
  k0 <> k -> dict_get k0 (dict_set k v d) = dict_get k0 d.
Proof.
  intros Hne. induction d as [|[k' v'] d IH]; simpl.
  - destruct (decide (k = k0)); congruence.
  - destruct (decide (k' = k)) as [->|Hk]; simpl.
    + destruct (decide (k = k0)); congruence.
    + destruct (decide (k' = k0)); congruence.
Qed.

Lemma dict_set_keys_present {V} (k : string) (v v0 : V) d :
  dict_get k d = Some v0 -> (dict_set k v d).*1 = d.*1.
Proof.
  induction d as [|[k' v'] d IH]; simpl; [discriminate|].
  destruct (decide (k' = k)) as [->|Hk]; simpl; intros H.
  - reflexivity.
  - f_equal. auto.
Qed.

Lemma set_meta_run_id_ok d v d' :
  set_meta_run_id d v = Ok d' ->
  exists fields meta_fields,
    d = JObj fields
    /\ dict_get "meta" fields = Some (JObj meta_fields)
    /\ d' = JObj (dict_set "meta" (JObj (dict_set "run_id" v meta_fields)) fields).
Proof.
  unfold set_meta_run_id. destruct d as [| | | | |fields]; simpl; try discriminate.
  destruct (dict_get "meta" fields) as [meta|] eqn:E; [|discriminate].
  destruct meta as [| | | | |meta_fields]; simpl; try discriminate.
  intros H. inversion H; subst. eauto.
Qed.

Section Rewrite.

Context {World : Type} (env : Env World).

Lemma perform_inv {A} (c : call) (f : World -> result A * World) (st : state World) r st' :
  perform c f st = (r, st') ->
  exists w, f (world st) = (r, w)
    /\ st' = State (upgrade_log st) (upgrade_checklist st) (validation_run_times st)
               w (trace st ++ [c]) (local_run_name st) (local_dest_key st).
Proof.
  unfold perform. destruct (f (world st)) as [r' w]. intros H.
  inversion H; subst. eauto.
Qed.

(** C8.  For every content rewrite of a primary-store key that returns, the
    stored value is decoded, only [meta.run_id] of the decoded object is
    changed (set to the run name and the cached run time) while every other
    field keeps its value and the top-level fields keep their order, and the
    new text is written under the destination key before the source key is
    removed. *)
Theorem update_validation_result_json_frame source_key dest_key run_name b st st' :
  _update_validation_result_json env source_key dest_key run_name b st = (Ok tt, st') ->
  rewrites_only_run_id env source_key dest_key run_name b st st'.
Proof.
  unfold _update_validation_result_json. intros H.
  apply bind_ok_inv in H as (run_time & s1 & H1 & H).
  apply bind_ok_inv in H as (content & s2 & H2 & H).
  apply bind_ok_inv in H as (d & s3 & H3 & H).
  apply bind_ok_inv in H as (d' & s4 & H4 & H).
  apply bind_ok_inv in H as ([] & s5 & H5 & H).
  unfold run_time_getitem in H1.
  destruct (validation_run_times st !! run_name) as [t|] eqn:Et; inversion H1; subst.
  apply perform_inv in H2 as (w2 & Hget & ->).
  apply lift_inv in H3 as [Hloads ->]. apply lift_inv in H4 as [Hmeta' ->].
  apply set_meta_run_id_ok in Hmeta' as (fields & meta_fields & -> & Hmeta & ->).
  apply perform_inv in H5 as (w5 & Hset & ->).
  apply perform_inv in H as (w6 & Hrm & ->).
  exists run_time, content, fields, meta_fields, w2. simpl.
  repeat split; auto.
  - rewrite <- !app_assoc. reflexivity.
  - apply dict_get_set_eq.
  - intros k Hk. apply dict_get_set_ne; auto.
  - apply dict_get_set_eq.
  - intros k Hk. apply dict_get_set_ne; auto.
  - eapply dict_set_keys_present; eauto.
Qed.

End Rewrite.

Lemma update_validation_result_json_frame_witness :
  rewrites_only_run_id Scenario.env Inputs.dated_key
    (Some ["suite"; "20210101T000000"; "2021-01-01T00:00:00"; "batch.json"])
    "20210101T000000" Inputs.healthy_backend
    (set_validation_run_time "20210101T000000" "2021-01-01T00:00:00"
       (init Inputs.one_store Inputs.timed_disk))
    (_update_validation_result_json Scenario.env Inputs.dated_key
       (Some ["suite"; "20210101T000000"; "2021-01-01T00:00:00"; "batch.json"])
       "20210101T000000" Inputs.healthy_backend
       (set_validation_run_time "20210101T000000" "2021-01-01T00:00:00"
          (init Inputs.one_store Inputs.timed_disk))).2.
Proof.
  apply update_validation_result_json_frame.
  vm_compute. reflexivity.
Defined.

(** ** The session never raises *)

Section Session.

Context {World : Type} (env : Env World).

Lemma try_except_pass_run (m : M World unit) (st : state World) :
  try_except_pass m st = (Ok tt, (m st).2).
Proof.
  unfold try_except_pass, try_except, ret.
  destruct (m st) as [[[]|e] st']; reflexivity.
Qed.

(** C9.  [upgrade_project] returns the upgrade log from every state and for
    every behaviour of the backends: it never raises.  The state it ends in
    is the one left by the documentation-site pass, run from whatever state
    the primary-store pass left, whether that pass returned or raised; and
    the primary-store pass itself always runs first, from the initial
    state. *)
Theorem upgrade_project_returns_log (st : state World) :
  let after_stores := (upgrade_validations_stores env st).2 in
  let after_sites := (upgrade_docs_sites env after_stores).2 in
  upgrade_project env st = (Ok (upgrade_log after_sites), after_sites).
Proof.
  unfold upgrade_project, bind. rewrite try_except_pass_run.
  rewrite try_except_pass_run. reflexivity.
Qed.

End Session.

(** ** Checklist construction *)

Lemma dict_set_keys {V} (k n : string) (v : V) d :
  n ∈ (dict_set k v d).*1 <-> n ∈ d.*1 \/ n = k.
Proof.
  induction d as [|[k' v'] d IH]; simpl.
  - rewrite list_elem_of_singleton. split; [auto|intros [H|H]; [inversion H|auto]].
  - destruct (decide (k' = k)) as [->|Hk]; simpl; rewrite !elem_of_cons.
    + tauto.
    + rewrite IH. tauto.
Qed.

Lemma store_bucket_reported s :
  reported s = true <-> exists bk, store_bucket s = Some bk.
Proof.
  unfold reported, store_bucket.
  destruct (store_cls s),
    (isinstance (store_backend s) DatabaseStoreBackend),
    (isinstance (store_backend s) InMemoryStoreBackend),
    (is_migratable (store_backend s)); simpl;
    split; eauto; try discriminate; intros [bk H]; discriminate.
Qed.

Section Checklist.

Context {World : Type}.

#[local] Abbreviation state := (state World).

Lemma process_store_names (st : state) item bk n :
  n ∈ store_bucket_names (process_store_for_checklist st item) bk
  <-> n ∈ store_bucket_names st bk \/ (n = item.1 /\ store_bucket item.2 = Some bk).
Proof.
  destruct item as [name s]. unfold process_store_for_checklist, store_bucket.
  simpl. destruct (store_cls s).
  - unfold _process_validations_store_for_checklist.
    destruct (isinstance _ DatabaseStoreBackend); [|destruct (is_migratable _)];
      destruct bk; simpl;
      rewrite ?map_app, ?elem_of_app, ?dict_set_keys; simpl;
      rewrite ?list_elem_of_singleton; intuition congruence.
  - unfold _process_metrics_store_for_checklist.
    destruct (isinstance _ DatabaseStoreBackend);
      [|destruct (isinstance _ InMemoryStoreBackend)];
      destruct bk; simpl;
      rewrite ?map_app, ?elem_of_app; simpl;
      rewrite ?list_elem_of_singleton; intuition congruence.
  - intuition congruence.
Qed.

Lemma process_store_site_names (st : state) item bk :
  site_bucket_names (process_store_for_checklist st item) bk = site_bucket_names st bk.
Proof.
  destruct item as [name s]. unfold process_store_for_checklist. simpl.
  destruct (store_cls s); [| |reflexivity].
  - unfold _process_validations_store_for_checklist.
    destruct (isinstance _ DatabaseStoreBackend); [|destruct (is_migratable _)];
      destruct bk; reflexivity.
  - unfold _process_metrics_store_for_checklist.
    destruct (isinstance _ DatabaseStoreBackend);
      [|destruct (isinstance _ InMemoryStoreBackend)]; destruct bk; reflexivity.
Qed.

Lemma process_site_names (st : state) item bk n :
  n ∈ site_bucket_names (process_site_for_checklist st item) bk
  <-> n ∈ site_bucket_names st bk \/ (n = item.1 /\ site_bucket item.2 = bk).
Proof.
  destruct item as [name c].
  unfold process_site_for_checklist, _process_docs_site_for_checklist, site_bucket.
  simpl. destruct (is_migratable _); destruct bk; simpl;
    rewrite ?map_app, ?elem_of_app, ?dict_set_keys; simpl;
    rewrite ?list_elem_of_singleton; intuition congruence.
Qed.

Lemma process_site_store_names (st : state) item bk :
  store_bucket_names (process_site_for_checklist st item) bk = store_bucket_names st bk.
Proof.
  destruct item as [name c].
  unfold process_site_for_checklist, _process_docs_site_for_checklist. simpl.
  destruct (is_migratable _); destruct bk; reflexivity.
Qed.

Lemma stores_pass_names l (st : state) bk n :
  n ∈ store_bucket_names (foldl process_store_for_checklist st l) bk
  <-> n ∈ store_bucket_names st bk
      \/ exists s, (n, s) ∈ l /\ store_bucket s = Some bk.
Proof.
  revert st. induction l as [|[name s] l IH]; intros st; simpl.
  - split; [auto|]. intros [H|(s & H & _)]; [auto|]. inversion H.
  - rewrite IH, process_store_names. simpl. split.
    + intros [[H|[-> H]]|(s' & H & Hb)]; eauto.
      * right. exists s. split; [left|auto].
      * right. exists s'. split; [right; auto|auto].
    + intros [H|(s' & H & Hb)]; [auto|].
      apply elem_of_cons in H as [H|H]; [inversion H; subst; auto|eauto].
Qed.

Lemma stores_pass_site_names l (st : state) bk :
  site_bucket_names (foldl process_store_for_checklist st l) bk = site_bucket_names st bk.
Proof.
  revert st. induction l as [|item l IH]; intros st; simpl; [reflexivity|].
  rewrite IH. apply process_store_site_names.
Qed.

Lemma sites_pass_names l (st : state) bk n :
  n ∈ site_bucket_names (foldl process_site_for_checklist st l) bk
  <-> n ∈ site_bucket_names st bk
      \/ exists c, (n, c) ∈ l /\ site_bucket c = bk.
Proof.
  revert st. induction l as [|[name c] l IH]; intros st; simpl.
  - split; [auto|]. intros [H|(s & H & _)]; [auto|]. inversion H.
  - rewrite IH, process_site_names. simpl. split.
    + intros [[H|[-> H]]|(s' & H & Hb)]; eauto.
      * right. exists c. split; [left|auto].
      * right. exists s'. split; [right; auto|auto].
    + intros [H|(s' & H & Hb)]; [auto|].
      apply elem_of_cons in H as [H|H]; [inversion H; subst; auto|eauto].
Qed.

Lemma sites_pass_store_names l (st : state) bk :
  store_bucket_names (foldl process_site_for_checklist st l) bk = store_bucket_names st bk.
Proof.
  revert st. induction l as [|item l IH]; intros st; simpl; [reflexivity|].
  rewrite IH. apply process_site_store_names.
Qed.

End Checklist.

Lemma bucket_count_one (names : bucket -> list string) n bk0 :
  (forall bk, n ∈ names bk <-> bk = bk0) -> bucket_count names n = 1.
Proof.
  intros H. unfold bucket_count.
  rewrite !filter_cons, filter_nil.
  assert (Hin : n ∈ names bk0) by (apply H; reflexivity).
  assert (Hout : forall bk, bk <> bk0 -> n ∉ names bk)
    by (intros bk Hne Hbk; apply Hne, H, Hbk).
  destruct bk0; repeat case_decide; simpl; try reflexivity; try contradiction;
    exfalso;
    match goal with
    | Hx : n ∈ names ?b |- _ => apply (Hout b); [discriminate | exact Hx]
    end.
Qed.

Lemma bucket_count_zero (names : bucket -> list string) n :
  (forall bk, n ∉ names bk) -> bucket_count names n = 0.
Proof.
  intros H. unfold bucket_count.
  rewrite !filter_cons, filter_nil.
  pose proof (H Checklist) as H1. pose proof (H SkipDatabase) as H2.
  pose proof (H SkipUnsupported) as H3.
  repeat case_decide; simpl; try reflexivity; contradiction.
Qed.

Lemma NoDup_fst_functional {A B} (l : list (A * B)) x y1 y2 :
  NoDup l.*1 -> (x, y1) ∈ l -> (x, y2) ∈ l -> y1 = y2.
Proof.
  induction l as [|[a b] l IH]; simpl; intros Hnd H1 H2.
  - inversion H1.
  - apply NoDup_cons in Hnd as [Hnotin Hnd].
    apply elem_of_cons in H1 as [H1|H1]; apply elem_of_cons in H2 as [H2|H2].
    + congruence.
    + inversion H1; subst. exfalso. apply Hnotin.
      apply list_elem_of_fmap. exists (a, y2). auto.
    + inversion H2; subst. exfalso. apply Hnotin.
      apply list_elem_of_fmap. exists (a, y1). auto.
    + auto.
Qed.

Section Classification.

Context {World : Type}.

(** C6, as amended.  In a registry whose store names, and whose site
    names, are pairwise distinct, after checklist construction every
    validations store, every metric store whose backend is a database backend
    or is not the in-memory kind, and every site is in exactly one of the
    three buckets; a store that is neither a validations nor a metric store,
    and a metric store on an in-memory backend, is in none. *)
Theorem reported_stores_and_sites_in_one_bucket (dc : data_context) (w : World) :
  NoDup (stores dc).*1 ->
  NoDup (default [] (data_docs_sites dc)).*1 ->
  (forall name s, (name, s) ∈ stores dc ->
     bucket_count (store_bucket_names (init dc w)) name = if reported s then 1 else 0)
  /\ (forall sites name c, data_docs_sites dc = Some sites -> (name, c) ∈ sites ->
        bucket_count (site_bucket_names (init dc w)) name = 1).
Proof.
  intros Hstores Hsites. unfold init, _generate_upgrade_checklist. split.
  - intros name s Hin.
    assert (Hnames : forall bk,
      name ∈ store_bucket_names
        (match data_docs_sites dc with
         | Some sites =>
             foldl process_site_for_checklist
               (foldl process_store_for_checklist
                  (State (UpgradeLog [] [] [] [] [] [] ∅ ∅) (UpgradeChecklist [] [])
                     ∅ w [] None None) (stores dc)) sites
         | None =>
             foldl process_store_for_checklist
               (State (UpgradeLog [] [] [] [] [] [] ∅ ∅) (UpgradeChecklist [] [])
                  ∅ w [] None None) (stores dc)
         end) bk
      <-> store_bucket s = Some bk).
    { intros bk.
      assert (Hs : name ∈ store_bucket_names
                (foldl process_store_for_checklist
                   (State (UpgradeLog [] [] [] [] [] [] ∅ ∅) (UpgradeChecklist [] [])
                      ∅ w [] None None) (stores dc)) bk
              <-> store_bucket s = Some bk).
      { rewrite stores_pass_names. split.
        - intros [H|(s' & H & Hb)].
          + destruct bk; simpl in H; inversion H.
          + rewrite (NoDup_fst_functional _ _ _ _ Hstores Hin H). exact Hb.
        - intros Hb. right. eauto. }
      destruct (data_docs_sites dc); [rewrite sites_pass_store_names|]; exact Hs. }
    destruct (reported s) eqn:Hr.
    + apply store_bucket_reported in Hr as [bk0 Hbk0].
      apply (bucket_count_one _ _ bk0). intros bk. rewrite Hnames, Hbk0.
      split; congruence.
    + apply bucket_count_zero. intros bk Hbk. apply Hnames in Hbk.
      assert (reported s = true) by (apply store_bucket_reported; eauto).
      congruence.
  - intros sites name c Hd Hin. rewrite Hd in Hsites |- *. simpl in Hsites.
    apply (bucket_count_one _ _ (site_bucket c)). intros bk.
    rewrite sites_pass_names, stores_pass_site_names. split.
    + intros [H|(c' & H & Hb)].
      * destruct bk; simpl in H; inversion H.
      * rewrite (NoDup_fst_functional _ _ _ _ Hsites Hin H). auto.
    + intros ->. right. eauto.
Qed.

End Classification.

Lemma reported_stores_and_sites_in_one_bucket_witness :
  (forall name s, (name, s) ∈ stores Inputs.mixed_registry ->
     bucket_count (store_bucket_names (init Inputs.mixed_registry Inputs.one_store_disk)) name
     = if reported s then 1 else 0)
  /\ (forall sites name c,
        data_docs_sites Inputs.mixed_registry = Some sites -> (name, c) ∈ sites ->
        bucket_count (site_bucket_names (init Inputs.mixed_registry Inputs.one_store_disk)) name
        = 1).
Proof.
  apply (reported_stores_and_sites_in_one_bucket Inputs.mixed_registry Inputs.one_store_disk).
  - apply (bool_decide_unpack _). vm_compute. exact I.
  - apply (bool_decide_unpack _). vm_compute. exact I.
Defined.

(** C6, as the specification states it, fails: a metric store on an
    in-memory backend is in none of the three buckets. *)
Lemma in_memory_metric_store_in_no_bucket :
  ~ every_store_and_site_in_one_bucket Inputs.mixed_registry
      (init Inputs.mixed_registry Inputs.one_store_disk).
Proof.
  intros [H _].
  specialize (H "metrics" (Store MetricStore (Backend "mem" InMemoryStoreBackend))).
  assert (Hin : ("metrics", Store MetricStore (Backend "mem" InMemoryStoreBackend))
                  ∈ stores Inputs.mixed_registry).
  { unfold Inputs.mixed_registry. simpl. do 3 right. left. }
  specialize (H Hin). vm_compute in H. discriminate.
Qed.

(** ** Frame rules for the methods *)

Ltac stable_step :=
  match goal with
  | |- Reflexive _ => exact _
  | |- Transitive _ => exact _
  | |- stable _ (ret _) => apply stable_ret
  | |- stable _ (raise _) => apply stable_raise
  | |- stable _ (lift _) => apply stable_lift
  | |- stable _ (gets _) => apply stable_gets
  | |- stable _ read_run_name => apply stable_read_run_name
  | |- stable _ read_dest_key => apply stable_read_dest_key
  | |- stable _ (run_time_getitem _) => apply stable_run_time_getitem
  | |- stable _ (assert_store_name_or_site_name _ _) => apply stable_assert
  | |- stable _ (bind (lift _) _) => apply stable_bind_lift
  | |- stable _ (bind _ _) => apply stable_bind
  | |- stable _ (try_except _ _) => apply stable_try_except
  | |- stable _ (try_except_ParserError _ _) => apply stable_try_except_ParserError
  | |- stable _ (for_each _ _) => apply stable_for_each
  | |- stable _ (modify _) => apply stable_modify
  | |- stable _ (perform _ _) => apply stable_perform
  | |- stable _ (match ?x with _ => _ end) => destruct x
  | |- forall _, _ => intros ?
  end.

Ltac stable_auto := repeat (stable_step; try assumption; auto).

Section Frames.

Context {World : Type} (env : Env World).
Context (R : state World -> state World -> Prop) `{!Reflexive R, !Transitive R}.

(** [R] does not look at the world or the trace. *)
Hypothesis R_perform : forall st w c,
  R st (State (upgrade_log st) (upgrade_checklist st) (validation_run_times st)
          w (trace st ++ [c]) (local_run_name st) (local_dest_key st)).

Lemma stable_url_for_log b k : stable R (url_for_log env b k).
Proof. unfold url_for_log. stable_auto. Qed.

Lemma stable_update_validation_result_json sk dk rn b :
  stable R (_update_validation_result_json env sk dk rn b).
Proof.
  unfold _update_validation_result_json. stable_auto.
Qed.

(** [R] does not look at the log. *)
Lemma stable_update_upgrade_log b sk dk sn site msg :
  (forall f st, R st (with_upgrade_log f st)) ->
  stable R (_update_upgrade_log env b sk dk sn site msg).
Proof.
  intros Hlog. unfold _update_upgrade_log.
  repeat first [apply stable_url_for_log | stable_step; auto].
Qed.

(** [R] accepts a write of [rn] to the run-time cache. *)
Lemma stable_parse_or_provenance rn prov :
  (forall iso st, R st (set_validation_run_time rn iso st)) ->
  stable R prov -> stable R (parse_or_provenance env rn prov).
Proof. intros Hset Hprov. unfold parse_or_provenance. stable_auto. Qed.

(** [R] does not look at the two loop locals. *)
Hypothesis R_run_name : forall v st, R st (set_local_run_name v st).
Hypothesis R_dest_key : forall v st, R st (set_local_dest_key v st).

Section Key.

(** [R] accepts a write to the cache under the run name of [k]. *)
Context (k : key).
Hypothesis R_run_time : forall rn iso st,
  tuple_getitem k (-2) = Ok rn -> R st (set_validation_run_time rn iso st).

Lemma stable_filesystem_run_time b :
  stable R (_get_tuple_filesystem_store_backend_run_time env k b).
Proof.
  unfold _get_tuple_filesystem_store_backend_run_time, parse_or_provenance.
  stable_auto.
Qed.

Lemma stable_s3_run_time b :
  stable R (_get_tuple_s3_store_backend_run_time env k b).
Proof.
  unfold _get_tuple_s3_store_backend_run_time, parse_or_provenance.
  stable_auto.
Qed.

Lemma stable_gcs_run_time b :
  stable R (_get_tuple_gcs_store_backend_run_time env k b).
Proof.
  unfold _get_tuple_gcs_store_backend_run_time, parse_or_provenance.
  stable_auto.
Qed.

Lemma stable_compute_dest_key b : stable R (compute_dest_key env b k).
Proof.
  unfold compute_dest_key.
  destruct (backend_type b); simpl;
    repeat first [ apply stable_filesystem_run_time | apply stable_s3_run_time
                 | apply stable_gcs_run_time | stable_step; auto ].
Qed.

End Key.

(** The loop body and the whole method, given that logging is stable for
    the names the method was called with and that the first [try] block is
    stable for every key. *)
Section Method.

Context (sn site : option string).
Hypothesis R_compute : forall b k, stable R (compute_dest_key env b k).
Hypothesis R_log : forall b sk dk msg,
  stable R (_update_upgrade_log env b sk dk sn site msg).

Lemma stable_upgrade_key b k : stable R (upgrade_key env b sn site k).
Proof.
  unfold upgrade_key, log_key_exception, transfer_key.
  repeat first [ apply R_compute | apply R_log
               | apply stable_update_validation_result_json | stable_step; auto ].
Qed.

Lemma stable_upgrade_store_backend b : stable R (upgrade_store_backend env b sn site).
Proof.
  unfold upgrade_store_backend.
  repeat first [ apply stable_upgrade_key | apply R_log | stable_step; auto ].
Qed.

End Method.

(** The whole session, for a relation that does not look at the log. *)
Lemma stable_upgrade_project :
  (forall b k, stable R (compute_dest_key env b k)) ->
  (forall f st, R st (with_upgrade_log f st)) ->
  stable R (upgrade_project env).
Proof.
  intros Hcompute Hlog.
  unfold upgrade_project, try_except_pass, upgrade_validations_stores,
    upgrade_docs_sites, upgrade_validations_store, upgrade_docs_site.
  repeat first [ apply stable_upgrade_store_backend
               | apply stable_update_upgrade_log | stable_step; auto ].
Qed.

End Frames.

(** ** What one call of [_update_upgrade_log] does to the log *)

Section Log.

Context {World : Type} (env : Env World).

#[local] Instance outside_only_refl : Reflexive (@outside_only World).
Proof. intros st. unfold outside_only. auto. Qed.

#[local] Instance outside_only_trans : Transitive (@outside_only World).
Proof.
  intros s1 s2 s3 (A1 & A2 & A3 & A4 & A5) (B1 & B2 & B3 & B4 & B5).
  unfold outside_only. repeat split; congruence.
Qed.

Lemma outside_only_perform (st : state World) w c :
  outside_only st
    (State (upgrade_log st) (upgrade_checklist st) (validation_run_times st)
       w (trace st ++ [c]) (local_run_name st) (local_dest_key st)).
Proof. unfold outside_only. simpl. auto. Qed.

Lemma assert_inv sn site (st : state World) r st' :
  assert_store_name_or_site_name sn site st = (r, st') ->
  st' = st /\ (if one_name sn site then r = Ok tt else exists e, r = Raise e).
Proof.
  unfold assert_store_name_or_site_name, one_name.
  destruct (truthy_str sn), (truthy_str site); simpl;
    unfold raise, ret; intros H; inversion H; subst; eauto.
Qed.

Lemma url_for_log_trace b k (st : state World) r st' :
  url_for_log env b k st = (r, st') -> trace st' = trace st ++ url_calls b k.
Proof.
  unfold url_for_log, url_calls, try_except, perform, ret.
  destruct k as [k'|]; [destruct (truthy_key (Some k'))|].
  - destruct (get_url_for_key env b k' (world st)) as [[url|e] w];
      intros H; inversion H; subst; reflexivity.
  - intros H; inversion H; subst. rewrite app_nil_r. reflexivity.
  - intros H; inversion H; subst. rewrite app_nil_r. reflexivity.
Qed.

(** A URL for the log is always produced; for [None] it is ["N/A"]. *)
Lemma url_for_log_inv b k (st : state World) r st' :
  url_for_log env b k st = (r, st') ->
  (exists url, r = Ok url /\ (k = None -> url = "N/A"))
  /\ outside_only st st'.
Proof.
  intros H. split.
  - destruct k as [k'|].
    + unfold url_for_log in H.
      apply try_except_inv in H as [(a & H & ->)|(e & st1 & _ & H)].
      * exists a. split; [reflexivity|discriminate].
      * inversion H; subst. eexists. split; [reflexivity|discriminate].
    + inversion H; subst. eauto.
  - revert H. apply (stable_url_for_log env outside_only).
    apply outside_only_perform.
Qed.

Lemma update_upgrade_log_inv b sk dk sn site msg (st : state World) r st' :
  _update_upgrade_log env b sk dk sn site msg st = (r, st') ->
  upgrade_checklist st' = upgrade_checklist st
  /\ validation_run_times st' = validation_run_times st
  /\ local_run_name st' = local_run_name st
  /\ local_dest_key st' = local_dest_key st
  /\ if one_name sn site then
       trace st' = trace st ++ url_calls b sk ++ url_calls b dk
       /\ exists src dest,
         (sk = None -> src = "N/A") /\ (dk = None -> dest = "N/A")
         /\ match log_with_outcome sn site src dest msg (upgrade_log st) with
            | Ok l => r = Ok tt /\ upgrade_log st' = l
            | Raise e =>
                r = Raise e
                /\ upgrade_log st' = log_with_entry sn site src dest msg (upgrade_log st)
            end
     else (exists e, r = Raise e) /\ st' = st.
Proof.
  unfold _update_upgrade_log. intros H.
  apply bind_inv in H as [(u & s1 & Ha & H)|(e & Ha & ->)].
  2:{ apply assert_inv in Ha as [-> Ha]. destruct (one_name sn site); [discriminate|].
      repeat split; eauto. }
  apply assert_inv in Ha as [-> Ha].
  destruct (one_name sn site); [clear Ha|destruct Ha; discriminate].
  apply bind_inv in H as [(src & s2 & Hs & H)|(e & Hs & ->)].
  2:{ apply url_for_log_inv in Hs as [(url & Hu & _) _]. discriminate. }
  pose proof (url_for_log_trace _ _ _ _ _ Hs) as T1.
  apply url_for_log_inv in Hs as [(url & Hu & Hsrc) (A1 & A2 & A3 & A4 & A5)].
  inversion Hu; subst url; clear Hu.
  apply bind_inv in H as [(dest & s3 & Hd & H)|(e & Hd & ->)].
  2:{ apply url_for_log_inv in Hd as [(url & Hu & _) _]. discriminate. }
  pose proof (url_for_log_trace _ _ _ _ _ Hd) as T2.
  apply url_for_log_inv in Hd as [(url & Hu & Hdest) (B1 & B2 & B3 & B4 & B5)].
  inversion Hu; subst url; clear Hu.
  assert (Hentry : exists s4,
    upgrade_log s4 = log_with_entry sn site src dest msg (upgrade_log st)
    /\ upgrade_checklist s4 = upgrade_checklist st
    /\ validation_run_times s4 = validation_run_times st
    /\ local_run_name s4 = local_run_name st
    /\ local_dest_key s4 = local_dest_key st
    /\ trace s4 = trace s3
    /\ (if truthy_str sn
        then (d <- gets (fun st => upgraded_validations_stores (upgrade_log st)) ;;
              d' <- lift (record_outcome d sn (truthy_str msg) (Updated src dest)) ;;
              modify (with_upgrade_log (log_set_upgraded_validations d')))
        else (d <- gets (fun st => upgraded_docs_site_validations_stores (upgrade_log st)) ;;
              d' <- lift (record_outcome d site (truthy_str msg) (Updated src dest)) ;;
              modify (with_upgrade_log (log_set_upgraded_docs d')))) s4 = (r, st')).
  { unfold log_with_entry, entry_for. unfold bind at 1 in H.
    destruct (truthy_str msg); simpl in H.
    - eexists. split; [|split; [|split; [|split; [|split; [|split; [|exact H]]]]]];
        simpl; congruence.
    - exists s3. repeat split; congruence. }
  destruct Hentry as (s4 & C1 & C2 & C3 & C4 & C5 & T3 & H').
  assert (Hframe : upgrade_checklist st' = upgrade_checklist s4
                   /\ validation_run_times st' = validation_run_times s4
                   /\ local_run_name st' = local_run_name s4
                   /\ local_dest_key st' = local_dest_key s4
                   /\ trace st' = trace s4).
  { destruct (truthy_str sn); unfold bind, gets, lift, modify in H';
      destruct (record_outcome _ _ _ _); inversion H'; subst; simpl; auto. }
  destruct Hframe as (D1 & D2 & D3 & D4 & T4).
  split; [congruence|]. split; [congruence|]. split; [congruence|].
  split; [congruence|].
  split; [rewrite T4, T3, T2, T1, <- app_assoc; reflexivity|].
  exists src, dest. split; [exact Hsrc|]. split; [exact Hdest|].
  unfold log_with_outcome. rewrite <- C1.
  destruct (truthy_str sn); unfold bind, gets, lift, modify in H';
    destruct (record_outcome _ _ _ _); inversion H'; subst; simpl; auto.
Qed.

End Log.

(** ** The run-time cache *)

Section Cache.

Context {World : Type} (env : Env World).

#[local] Instance cache_grows_refl : Reflexive (@cache_grows World).
Proof. intros st. unfold cache_grows. reflexivity. Qed.

#[local] Instance cache_grows_trans : Transitive (@cache_grows World).
Proof. intros s1 s2 s3 H1 H2. unfold cache_grows in *. etransitivity; eauto. Qed.

#[local] Instance cache_same_except_refl k : Reflexive (@cache_same_except World k).
Proof. intros st rn Hrn r Hr. reflexivity. Qed.

#[local] Instance cache_same_except_trans k : Transitive (@cache_same_except World k).
Proof.
  intros s1 s2 s3 H1 H2 rn Hrn r Hr.
  rewrite (H2 rn Hrn r Hr). apply (H1 rn Hrn r Hr).
Qed.

(** With the run name already cached, the first [try] block calls nothing
    and inserts the cached time. *)
Lemma compute_dest_key_cached b k rn T st :
  tuple_getitem k (-2) = Ok rn ->
  validation_run_times st !! rn = Some T ->
  compute_dest_key env b k st
  = (Ok tt,
     State (upgrade_log st) (upgrade_checklist st) (validation_run_times st)
       (world st) (trace st) (Some rn) (Some (Some (list_insert_at (-1) T k)))).
Proof.
  intros Hrn HT. unfold compute_dest_key, bind, lift, modify, gets, run_time_getitem, ret.
  rewrite Hrn. simpl. rewrite HT. simpl. rewrite HT. reflexivity.
Qed.

Lemma cache_grows_compute_dest_key b k : stable cache_grows (compute_dest_key env b k).
Proof.
  intros st r st' H.
  destruct (tuple_getitem k (-2)) as [rn|e] eqn:Hrn.
  - destruct (validation_run_times st !! rn) as [T|] eqn:HT.
    + rewrite (compute_dest_key_cached b k rn T st Hrn HT) in H.
      inversion H; subst. unfold cache_grows. simpl. reflexivity.
    + assert (Hex : cache_same_except k st st').
      { revert H. apply (stable_compute_dest_key env (cache_same_except k)).
        - intros s w c rn' _ r' _. reflexivity.
        - intros v s rn' _ r' _. reflexivity.
        - intros v s rn' _ r' _. reflexivity.
        - intros rn' iso s Hrn' rn'' Hrn'' r' Hr'. simpl.
          assert (rn'' = rn') by congruence. subst.
          apply lookup_insert_ne. auto. }
      unfold cache_grows. apply map_subseteq_spec. intros r' T' Hr'.
      rewrite (Hex rn Hrn r'); [exact Hr'|]. intros ->. congruence.
  - unfold compute_dest_key, bind, lift in H. rewrite Hrn in H.
    inversion H; subst. reflexivity.
Qed.

Lemma cache_grows_outside_cache (st : state World) w c :
  cache_grows st
    (State (upgrade_log st) (upgrade_checklist st) (validation_run_times st)
       w (trace st ++ [c]) (local_run_name st) (local_dest_key st)).
Proof. unfold cache_grows. reflexivity. Qed.

Lemma cache_grows_upgrade_store_backend b sn site :
  stable cache_grows (upgrade_store_backend env b sn site).
Proof.
  apply stable_upgrade_store_backend; try exact _.
  - apply cache_grows_outside_cache.
  - intros v st. unfold cache_grows. reflexivity.
  - intros v st. unfold cache_grows. reflexivity.
  - apply cache_grows_compute_dest_key.
  - intros b' sk dk msg. apply stable_update_upgrade_log; try exact _.
    + apply cache_grows_outside_cache.
    + intros f st. unfold cache_grows. reflexivity.
Qed.

Lemma cache_grows_upgrade_project : stable cache_grows (upgrade_project env).
Proof.
  apply stable_upgrade_project; try exact _.
  - apply cache_grows_outside_cache.
  - intros v st. unfold cache_grows. reflexivity.
  - intros v st. unfold cache_grows. reflexivity.
  - apply cache_grows_compute_dest_key.
  - intros f st. unfold cache_grows. reflexivity.
Qed.

(** C5.  Once a run identifier is cached with time [T]: (1) it is still
    cached with [T] in every state a session ([upgrade_project], over all its
    stores and sites) leaves, whether the session's passes returned or
    raised; (2) the same holds for every single [upgrade_store_backend]; and
    (3) for every later key with that run identifier, on any backend, the
    first [try] block returns without calling the outside world (the trace
    and the world are unchanged) and the destination key carries [T]. *)
Theorem run_time_cache_is_write_once (st : state World) (rn T : string) :
  validation_run_times st !! rn = Some T ->
  (forall r st', upgrade_project env st = (r, st') ->
     validation_run_times st' !! rn = Some T)
  /\ (forall b sn site r st', upgrade_store_backend env b sn site st = (r, st') ->
        validation_run_times st' !! rn = Some T)
  /\ (forall b k, tuple_getitem k (-2) = Ok rn ->
        exists st', compute_dest_key env b k st = (Ok tt, st')
          /\ trace st' = trace st /\ world st' = world st
          /\ validation_run_times st' = validation_run_times st
          /\ local_dest_key st' = Some (Some (list_insert_at (-1) T k))).
Proof.
  intros HT. split; [|split].
  - intros r st' H. apply cache_grows_upgrade_project in H.
    unfold cache_grows in H. eapply lookup_weaken; eauto.
  - intros b sn site r st' H. apply cache_grows_upgrade_store_backend in H.
    unfold cache_grows in H. eapply lookup_weaken; eauto.
  - intros b k Hrn. eexists. split.
    + apply (compute_dest_key_cached b k rn T st Hrn HT).
    + simpl. auto.
Qed.

End Cache.

Lemma run_time_cache_is_write_once_witness :
  (forall r st', upgrade_project Scenario.env Inputs.resolved_session = (r, st') ->
     validation_run_times st' !! "my_run" = Some "2021-06-15T10:00:00+00:00")
  /\ (forall b sn site r st',
        upgrade_store_backend Scenario.env b sn site Inputs.resolved_session = (r, st') ->
        validation_run_times st' !! "my_run" = Some "2021-06-15T10:00:00+00:00")
  /\ (forall b k, tuple_getitem k (-2) = Ok "my_run" ->
        exists st', compute_dest_key Scenario.env b k Inputs.resolved_session = (Ok tt, st')
          /\ trace st' = trace Inputs.resolved_session
          /\ world st' = world Inputs.resolved_session
          /\ validation_run_times st' = validation_run_times Inputs.resolved_session
          /\ local_dest_key st'
             = Some (Some (list_insert_at (-1) "2021-06-15T10:00:00+00:00" k))).
Proof.
  apply (run_time_cache_is_write_once Scenario.env Inputs.resolved_session).
  vm_compute. reflexivity.
Defined.

(** ** Sessions in which a failure is not isolated *)

(** C1 (the code departs from it).  Two validations stores are on the
    checklist and listing the first one fails.  The failure is logged once,
    with both locations ["N/A"], and nothing is recorded as updated; but
    [upgrade_store_backend] then reads [validation_source_keys], which was
    never bound, and raises.  The pass is abandoned: the second store gets
    no outcome record, none of its keys is listed or moved, and the world is
    left as it was. *)
Theorem listing_failure_abandons_the_pass :
  let st0 := init Inputs.two_stores Inputs.two_stores_disk in
  let run := upgrade_project Scenario.env st0 in
  validations_store_backends (upgrade_checklist st0)
  = [("broken", Inputs.unreadable_backend); ("healthy", Inputs.healthy_backend)]
  /\ (upgrade_store_backend Scenario.env Inputs.unreadable_backend (Some "broken") None
        (with_upgrade_log
           (log_set_upgraded_validations {["broken" := empty_outcome]}) st0)).1
     = Raise (UnboundLocalError "validation_source_keys")
  /\ exceptions (upgrade_log run.2)
     = [ExceptionEntry validation_store_name (Some "broken") "N/A" "N/A"
          (exception_message Scenario.env (Exn "PermissionError" "Permission denied"))]
  /\ upgraded_validations_stores (upgrade_log run.2) !! "broken" = Some (Outcome [] true)
  /\ upgraded_validations_stores (upgrade_log run.2) !! "healthy" = None
  /\ trace run.2 = [ListKeys Inputs.unreadable_backend]
  /\ world run.2 = Inputs.two_stores_disk.
Proof. vm_compute. repeat split; reflexivity. Qed.

(** C2 (the code departs from it).  A documentation site holds one page
    whose run name is not a date and whose file time cannot be read.  The
    resolution failure is logged against the key with destination ["N/A"]
    and no destination key is computed; but the second [try] block still
    runs: the backend is asked to move the key to [None], and the failure of
    that move is logged as a second entry before the loop goes on. *)
Theorem resolution_failure_still_attempts_the_move :
  let run := upgrade_project Scenario.env (init Inputs.one_site Inputs.one_site_disk) in
  trace run.2
  = [ListKeys Inputs.site_backend;
     Parse "my_run";
     FilesystemMtime Inputs.site_backend Inputs.labelled_key;
     GetUrlForKey Inputs.site_backend Inputs.labelled_key;
     Move Inputs.site_backend Inputs.labelled_key None;
     GetUrlForKey Inputs.site_backend Inputs.labelled_key]
  /\ exceptions (upgrade_log run.2)
     = [ExceptionEntry site_name_key (Some "local_site")
          "site://suite/my_run/batch.json" "N/A"
          (exception_message Scenario.env (Scenario.FileNotFound Inputs.labelled_key));
        ExceptionEntry site_name_key (Some "local_site")
          "site://suite/my_run/batch.json" "N/A"
          (exception_message Scenario.env (TypeError "'NoneType' object is not iterable"))]
  /\ local_dest_key run.2 = Some None.
Proof. vm_compute. repeat split; reflexivity. Qed.

(** C3 (the code departs from it).  A validations store holds one result
    whose run name cannot be resolved.  The one listed key contributes two
    entries to the exceptions log: the resolution failure, and then the
    [KeyError] of the content rewrite that is attempted all the same. *)
Theorem unresolved_key_is_logged_twice :
  let run := upgrade_project Scenario.env (init Inputs.one_store Inputs.one_store_disk) in
  Scenario.keys_of "healthy" (Scenario.files Inputs.one_store_disk) = [Inputs.labelled_key]
  /\ exceptions (upgrade_log run.2)
     = [ExceptionEntry validation_store_name (Some "validations")
          "healthy://suite/my_run/batch.json" "N/A"
          (exception_message Scenario.env (Scenario.FileNotFound Inputs.labelled_key));
        ExceptionEntry validation_store_name (Some "validations")
          "healthy://suite/my_run/batch.json" "N/A"
          (exception_message Scenario.env (KeyError "my_run"))]
  /\ upgraded_validations_stores (upgrade_log run.2) !! "validations"
     = Some (Outcome [] true).
Proof. vm_compute. repeat split; reflexivity. Qed.

(** ** Errors of the date parser *)

Lemma append_nonempty (s t : string) : t <> "" -> s +:+ t <> "".
Proof. intros Ht. destruct s; simpl; [exact Ht|discriminate]. Qed.

Section Resolver.

Context {World : Type} (env : Env World).

Lemma exception_message_truthy e : truthy_str (Some (exception_message env e)) = true.
Proof.
  unfold truthy_str, exception_message. apply bool_decide_eq_true.
  apply append_nonempty. discriminate.
Qed.

Lemma exceptions_log_with_outcome sn site src dest msg l l' :
  log_with_outcome sn site src dest msg l = Ok l' ->
  exceptions l' = exceptions (log_with_entry sn site src dest msg l).
Proof.
  unfold log_with_outcome.
  destruct (truthy_str sn); destruct (record_outcome _ _ _ _); intros H;
    inversion H; subst; reflexivity.
Qed.

(** A failure logged against a key appends exactly one entry, whether or
    not the store has an outcome record. *)
Lemma log_key_exception_appends b k sn site e (st : state World) r st' :
  one_name sn site = true ->
  local_dest_key st = Some None ->
  log_key_exception env b k sn site e st = (r, st') ->
  exists src,
    exceptions (upgrade_log st')
    = exceptions (upgrade_log st)
        ++ [entry_for sn site src "N/A" (Some (exception_message env e))]
    /\ validation_run_times st' = validation_run_times st
    /\ local_dest_key st' = Some None
    /\ trace st' = trace st ++ url_calls b (Some k).
Proof.
  intros Hone Hdk H. unfold log_key_exception, bind, read_dest_key in H.
  rewrite Hdk in H.
  apply update_upgrade_log_inv in H as (_ & Hc & _ & Hd & H).
  rewrite Hone in H. destruct H as (Ht & src & dest & _ & Hdest & H).
  rewrite (Hdest eq_refl) in H. exists src.
  split; [|split; [congruence|split; [congruence|]]].
  2:{ rewrite Ht. simpl. rewrite app_nil_r. reflexivity. }
  assert (Hl : exceptions (log_with_entry sn site src "N/A"
                 (Some (exception_message env e)) (upgrade_log st))
               = exceptions (upgrade_log st)
                   ++ [entry_for sn site src "N/A" (Some (exception_message env e))]).
  { unfold log_with_entry. rewrite exception_message_truthy. reflexivity. }
  destruct (log_with_outcome _ _ _ _ _ _) as [l|e'] eqn:E.
  - destruct H as [_ ->]. rewrite (exceptions_log_with_outcome _ _ _ _ _ _ _ E). exact Hl.
  - destruct H as [_ ->]. exact Hl.
Qed.

(** What a setter does once its parser call has raised. *)
Lemma setter_at_parser b k rn (st : state World) e w1 w2 :
  parser_reached env b (world st) w1 ->
  tuple_getitem k (-2) = Ok rn ->
  parse_isoformat env rn w1 = (Raise e, w2) ->
  exists setter,
    run_time_setters_by_backend_type env (backend_type b) = Some setter
    /\ if is_ParserError e then
         exists r st1,
           setter k b st = (r, st1)
           /\ trace st1 = trace st ++ setup_calls b ++ [Parse rn; provenance_call b k]
       else
         setter k b st
         = (Raise e,
            State (upgrade_log st) (upgrade_checklist st) (validation_run_times st)
              w2 (trace st ++ setup_calls b ++ [Parse rn])
              (local_run_name st) (local_dest_key st)).
Proof.
  unfold parser_reached, setup_calls, provenance_call.
  intros Hreach Hrn Hparse.
  destruct (backend_type b); try contradiction; simpl; eexists; (split; [reflexivity|]).
  - subst w1.
    unfold _get_tuple_filesystem_store_backend_run_time, parse_or_provenance,
      try_except_ParserError, bind, lift, perform, modify.
    rewrite Hrn. simpl. rewrite Hparse.
    destruct (is_ParserError e); simpl; [|reflexivity].
    destruct (filesystem_mtime_isoformat env b k w2) as [[iso|e'] w3];
      eexists _, _; (split; [reflexivity|]); simpl; rewrite <- app_assoc; reflexivity.
  - unfold _get_tuple_s3_store_backend_run_time, parse_or_provenance,
      try_except_ParserError, bind, lift, perform, modify.
    rewrite Hreach, Hrn. simpl. rewrite Hparse.
    destruct (is_ParserError e); simpl; [|rewrite <- app_assoc; reflexivity].
    destruct (s3_last_modified_isoformat env b k w2) as [[iso|e'] w3];
      eexists _, _; (split; [reflexivity|]); simpl; rewrite <- !app_assoc; reflexivity.
  - unfold _get_tuple_gcs_store_backend_run_time, parse_or_provenance,
      try_except_ParserError, bind, lift, perform, modify.
    rewrite Hreach, Hrn. simpl. rewrite Hparse.
    destruct (is_ParserError e); simpl; [|rewrite <- app_assoc; reflexivity].
    destruct (gcs_time_created_isoformat env b k w2) as [[iso|e'] w3];
      eexists _, _; (split; [reflexivity|]); simpl; rewrite <- !app_assoc; reflexivity.
Qed.

(** An exception of the setter leaves the first [try] block as it is. *)
Lemma compute_dest_key_setter_raises b k rn setter (st : state World) e st1 :
  tuple_getitem k (-2) = Ok rn ->
  validation_run_times st !! rn = None ->
  run_time_setters_by_backend_type env (backend_type b) = Some setter ->
  setter k b
    (State (upgrade_log st) (upgrade_checklist st) (validation_run_times st)
       (world st) (trace st) (Some rn) (Some None)) = (Raise e, st1) ->
  compute_dest_key env b k st = (Raise e, st1).
Proof.
  intros Hrn Hnone Hsetter Hraise.
  unfold compute_dest_key, bind, lift, modify, gets.
  rewrite Hrn. simpl. rewrite Hnone, Hsetter.
  unfold set_local_dest_key, set_local_run_name. simpl. rewrite Hraise. reflexivity.
Qed.

(** C7.  Take a key whose run name is not cached, on a backend whose
    setter gets as far as the date parser, and let the parser raise [e].
    If [e] is a [ParserError], the setter goes on to the provenance call of
    its backend.  If [e] is anything else, the setter makes no further call,
    leaves the cache as it is and raises [e] itself; in the loop of
    [upgrade_store_backend] that exception is caught by the first [try]
    statement and logged as one exception entry for that key, with
    destination ["N/A"] and the message of [e], the destination key being
    left at [None]. *)
Theorem only_not_a_date_triggers_the_fallback b k sn site rn (st : state World) e w1 w2 :
  parser_reached env b (world st) w1 ->
  tuple_getitem k (-2) = Ok rn ->
  validation_run_times st !! rn = None ->
  parse_isoformat env rn w1 = (Raise e, w2) ->
  one_name sn site = true ->
  parser_error_handling env b k sn site rn st e.
Proof.
  intros Hreach Hrn Hnone Hparse Hone. unfold parser_error_handling.
  destruct (setter_at_parser b k rn st e w1 w2 Hreach Hrn Hparse) as (setter & Hs & H).
  exists setter. split; [exact Hs|].
  destruct (is_ParserError e) eqn:He; [exact H|].
  split.
  - eexists. split; [exact H|]. simpl. auto.
  - pose proof (setter_at_parser b k rn
      (State (upgrade_log st) (upgrade_checklist st) (validation_run_times st)
         (world st) (trace st) (Some rn) (Some None)) e w1 w2 Hreach Hrn Hparse)
      as (setter' & Hs' & H').
    rewrite Hs in Hs'. inversion Hs'; subst setter'. rewrite He in H'. simpl in H'.
    pose proof (compute_dest_key_setter_raises b k rn setter st e _ Hrn Hnone Hs H')
      as Hc.
    unfold first_try, try_except. rewrite Hc.
    destruct (log_key_exception env b k sn site e _) as [r st2] eqn:Hlog.
    apply log_key_exception_appends in Hlog as (src & Hex & Hcache & Hdk & Htr);
      [|exact Hone|reflexivity].
    exists r, st2, src. simpl in *.
    repeat split; try assumption.
    rewrite Htr, <- !app_assoc. reflexivity.
Qed.

End Resolver.

Lemma only_not_a_date_triggers_the_fallback_witness :
  parser_error_handling Scenario.env Inputs.healthy_backend Inputs.overflowing_key
    (Some "validations") None "99999999999999999999"
    (init Inputs.one_store Inputs.one_store_disk)
    (Exn "OverflowError" "Python int too large to convert to C long")
  /\ parser_error_handling Scenario.env Inputs.healthy_backend Inputs.labelled_key
       (Some "validations") None "my_run"
       (init Inputs.one_store Inputs.one_store_disk)
       (Exn "ParserError" "Unknown string format: my_run").
Proof.
  split.
  - apply (only_not_a_date_triggers_the_fallback Scenario.env Inputs.healthy_backend
             Inputs.overflowing_key (Some "validations") None "99999999999999999999"
             (init Inputs.one_store Inputs.one_store_disk) _
             Inputs.one_store_disk Inputs.one_store_disk);
      vm_compute; reflexivity.
  - apply (only_not_a_date_triggers_the_fallback Scenario.env Inputs.healthy_backend
             Inputs.labelled_key (Some "validations") None "my_run"
             (init Inputs.one_store Inputs.one_store_disk) _
             Inputs.one_store_disk Inputs.one_store_disk);
      vm_compute; reflexivity.
Defined.

(** ** Outcome flags agree with the exceptions list *)

Lemma records_set_records kn kn' d l :
  records (set_records kn d l) kn' = if decide (kn' = kn) then d else records l kn'.
Proof. destruct kn, kn'; reflexivity. Qed.

Lemma exceptions_set_records kn d l : exceptions (set_records kn d l) = exceptions l.
Proof. destruct kn; reflexivity. Qed.

Lemma records_log_with_entry sn site src dest msg l kn :
  records (log_with_entry sn site src dest msg l) kn = records l kn.
Proof. unfold log_with_entry. destruct (truthy_str msg), kn; reflexivity. Qed.

Lemma exceptions_log_with_entry sn site src dest msg l :
  exceptions (log_with_entry sn site src dest msg l)
  = exceptions l ++ (if truthy_str msg then [entry_for sn site src dest msg] else []).
Proof.
  unfold log_with_entry. destruct (truthy_str msg); simpl; [reflexivity|].
  rewrite app_nil_r. reflexivity.
Qed.

Lemma log_with_outcome_eq sn site src dest msg l :
  log_with_outcome sn site src dest msg l
  = match record_outcome (records l (owner_key sn)) (owner_name sn site)
            (truthy_str msg) (Updated src dest) with
    | Ok d => Ok (set_records (owner_key sn) d (log_with_entry sn site src dest msg l))
    | Raise e => Raise e
    end.
Proof.
  unfold log_with_outcome, owner_key, owner_name.
  destruct (truthy_str sn); simpl.
  - change (upgraded_validations_stores ?x) with (records x validation_store_name).
    rewrite records_log_with_entry. reflexivity.
  - change (upgraded_docs_site_validations_stores ?x) with (records x site_name_key).
    rewrite records_log_with_entry. reflexivity.
Qed.

Lemma record_outcome_ok d nm failed ld d' :
  record_outcome d nm failed ld = Ok d' ->
  exists n o,
    nm = Some n /\ d !! n = Some o
    /\ d' = <[n := if failed then Outcome (outcome_updated o) true
                   else Outcome (outcome_updated o ++ [ld]) (outcome_exceptions o)]> d.
Proof.
  unfold record_outcome, outcome_getitem.
  destruct nm as [n|]; [|discriminate].
  destruct (d !! n) as [o|] eqn:E; [|discriminate].
  destruct failed; intros H; inversion H; subst; eauto.
Qed.

Lemma record_outcome_raise d n failed ld e :
  record_outcome d (Some n) failed ld = Raise e -> d !! n = None.
Proof.
  unfold record_outcome, outcome_getitem.
  destruct (d !! n) as [o|]; [|reflexivity].
  destruct failed; discriminate.
Qed.

Lemma entry_for_names sn site src dest msg n :
  owner_name sn site = Some n ->
  entry_names (entry_for sn site src dest msg) (owner_key sn) n.
Proof. intros H. split; [reflexivity|exact H]. Qed.

Lemma named_in_extended l extra kn n :
  (forall e, e ∈ extra -> ~ entry_names e kn n) ->
  (exists e, e ∈ l ++ extra /\ entry_names e kn n)
  <-> (exists e, e ∈ l /\ entry_names e kn n).
Proof.
  intros Hextra. split; intros (e & Hin & Hn).
  - apply elem_of_app in Hin as [Hin|Hin]; [eauto|]. exfalso. eapply Hextra; eauto.
  - exists e. split; [apply elem_of_app; auto|exact Hn].
Qed.

Lemma log_with_outcome_preserves sn site src dest msg l l' :
  log_with_outcome sn site src dest msg l = Ok l' ->
  (forall kn n, is_Some (records l' kn !! n) <-> is_Some (records l kn !! n))
  /\ (flags_match_entries l -> flags_match_entries l')
  /\ (entries_have_records l -> entries_have_records l').
Proof.
  rewrite log_with_outcome_eq.
  destruct (record_outcome _ _ _ _) as [d|e] eqn:E; [|discriminate].
  intros H; inversion H; subst l'; clear H.
  apply record_outcome_ok in E as (n & o & Hnm & Ho & ->).
  assert (Hdom : forall kn n0,
    is_Some (records (set_records (owner_key sn)
               (<[n := if truthy_str msg then Outcome (outcome_updated o) true
                       else Outcome (outcome_updated o ++ [Updated src dest])
                              (outcome_exceptions o)]> (records l (owner_key sn)))
               (log_with_entry sn site src dest msg l)) kn !! n0)
    <-> is_Some (records l kn !! n0)).
  { intros kn n0. rewrite records_set_records.
    destruct (decide (kn = owner_key sn)) as [->|Hkn].
    - destruct (decide (n0 = n)) as [->|Hn].
      + rewrite lookup_insert_eq, Ho. split; eauto.
      + rewrite lookup_insert_ne by auto. reflexivity.
    - rewrite records_log_with_entry. reflexivity. }
  split; [exact Hdom|]. split.
  - intros Hf kn n0 o0 Hlk.
    rewrite exceptions_set_records, exceptions_log_with_entry.
    rewrite records_set_records in Hlk.
    destruct (decide (kn = owner_key sn)) as [->|Hkn].
    + destruct (decide (n0 = n)) as [->|Hn].
      * rewrite lookup_insert_eq in Hlk. inversion Hlk; subst o0; clear Hlk.
        destruct (truthy_str msg); simpl.
        -- split; [intros _|reflexivity].
           eexists. split; [apply elem_of_app; right; apply list_elem_of_singleton;
                            reflexivity|].
           apply entry_for_names. exact Hnm.
        -- rewrite app_nil_r. apply (Hf _ _ _ Ho).
      * rewrite lookup_insert_ne in Hlk by auto.
        rewrite named_in_extended; [apply (Hf _ _ _ Hlk)|].
        intros e He [_ Hname]. destruct (truthy_str msg); [|inversion He].
        apply list_elem_of_singleton in He as ->. simpl in Hname.
        unfold owner_name in Hnm. congruence.
    + rewrite records_log_with_entry in Hlk.
      rewrite named_in_extended; [apply (Hf _ _ _ Hlk)|].
      intros e He [Hkey _]. destruct (truthy_str msg); [|inversion He].
      apply list_elem_of_singleton in He as ->. simpl in Hkey.
      unfold owner_key in Hkn. congruence.
  - intros He e Hin.
    rewrite exceptions_set_records, exceptions_log_with_entry in Hin.
    apply elem_of_app in Hin as [Hin|Hin].
    + destruct (He e Hin) as (n0 & Hname & Hrec). exists n0. split; [exact Hname|].
      apply Hdom. exact Hrec.
    + destruct (truthy_str msg); [|inversion Hin].
      apply list_elem_of_singleton in Hin as ->. exists n. split; [exact Hnm|].
      apply Hdom. change (is_Some (records l (owner_key sn) !! n)).
      rewrite Ho. eauto.
Qed.

Section Flags.

Context {World : Type} (env : Env World).

#[local] Instance session_step_refl sn site : Reflexive (@session_step World sn site).
Proof.
  intros st. unfold session_step.
  split; [reflexivity|]. split; [intros; reflexivity|]. auto.
Qed.

#[local] Instance session_step_trans sn site : Transitive (@session_step World sn site).
Proof.
  intros s1 s2 s3 (A1 & A2 & A3) (B1 & B2 & B3). unfold session_step.
  split; [congruence|]. split.
  - intros kn n. rewrite B2. apply A2.
  - intros Hrec Hinv. apply B3; [|auto].
    destruct Hrec as (n & Hn & Hsome). exists n. split; [exact Hn|].
    apply A2. exact Hsome.
Qed.

Lemma session_step_same_log sn site (st st' : state World) :
  upgrade_log st' = upgrade_log st ->
  upgrade_checklist st' = upgrade_checklist st ->
  session_step sn site st st'.
Proof.
  intros Hl Hc. unfold session_step. rewrite Hl.
  split; [exact Hc|]. split; [intros; reflexivity|]. auto.
Qed.

Lemma session_step_update_upgrade_log b sk dk sn site msg :
  stable (session_step sn site) (_update_upgrade_log env b sk dk sn site msg).
Proof.
  intros st r st' H.
  apply update_upgrade_log_inv in H as (Hc & _ & _ & _ & H).
  destruct (one_name sn site).
  - destruct H as (_ & src & dest & _ & _ & H).
    destruct (log_with_outcome sn site src dest msg (upgrade_log st)) as [l|e] eqn:E.
    + destruct H as [_ Hl]. apply log_with_outcome_preserves in E as (D & F & G).
      unfold session_step, log_inv. rewrite Hl.
      split; [exact Hc|]. split; [exact D|]. intros _ [? ?]. auto.
    + destruct H as [_ Hl]. unfold session_step. rewrite Hl.
      split; [exact Hc|]. split.
      * intros kn n. rewrite records_log_with_entry. reflexivity.
      * intros (n & Hn & Hsome) _. exfalso.
        rewrite log_with_outcome_eq in E. rewrite Hn in E.
        destruct (record_outcome _ _ _ _) as [d|e'] eqn:E'; [discriminate|].
        apply record_outcome_raise in E'. rewrite E' in Hsome.
        destruct Hsome; discriminate.
  - destruct H as [_ ->]. reflexivity.
Qed.

Lemma session_step_upgrade_store_backend b sn site :
  stable (session_step sn site) (upgrade_store_backend env b sn site).
Proof.
  apply stable_upgrade_store_backend; try exact _.
  - intros st w c. apply session_step_same_log; reflexivity.
  - intros v st. apply session_step_same_log; reflexivity.
  - intros v st. apply session_step_same_log; reflexivity.
  - intros b' k. apply stable_compute_dest_key; try exact _.
    + intros st w c. apply session_step_same_log; reflexivity.
    + intros v st. apply session_step_same_log; reflexivity.
    + intros v st. apply session_step_same_log; reflexivity.
    + intros rn iso st _. apply session_step_same_log; reflexivity.
  - intros b' sk dk msg. apply session_step_update_upgrade_log.
Qed.

Lemma upgrade_store_backend_without_name b sn site (st : state World) :
  one_name sn site = false ->
  exists e, upgrade_store_backend env b sn site st = (Raise e, st).
Proof.
  unfold one_name, upgrade_store_backend, assert_store_name_or_site_name, bind, raise.
  destruct (truthy_str sn), (truthy_str site); simpl; try discriminate; eauto.
Qed.

End Flags.

(** *** The two passes of [upgrade_project] *)

Lemma owner_of_item kn n :
  one_name (sn_of kn n) (site_of kn n) = true ->
  owner_key (sn_of kn n) = kn /\ owner_name (sn_of kn n) (site_of kn n) = Some n.
Proof.
  unfold one_name, owner_key, owner_name.
  destruct kn; simpl; destruct (bool_decide (n <> "")); simpl; try discriminate; auto.
Qed.

Lemma records_init_record kn n l kn' n' :
  is_Some (records (init_record kn n l) kn' !! n')
  <-> is_Some (records l kn' !! n') \/ (kn' = kn /\ n' = n).
Proof.
  unfold init_record. rewrite records_set_records.
  destruct (decide (kn' = kn)) as [->|Hkn].
  - destruct (decide (n' = n)) as [->|Hn].
    + rewrite lookup_insert_eq. split; eauto.
    + rewrite lookup_insert_ne by auto. split; [auto|]. intros [H|[_ H]]; [auto|].
      contradiction.
  - split; [auto|]. intros [H|[H _]]; [auto|contradiction].
Qed.

Lemma init_record_inv kn n l :
  log_inv l -> records l kn !! n = None -> log_inv (init_record kn n l).
Proof.
  intros [Hf He] Hnone. split.
  - intros kn' n' o Hlk. unfold init_record in Hlk |- *.
    rewrite exceptions_set_records. rewrite records_set_records in Hlk.
    destruct (decide (kn' = kn)) as [->|Hkn].
    + destruct (decide (n' = n)) as [->|Hn].
      * rewrite lookup_insert_eq in Hlk. inversion Hlk; subst o. simpl.
        split; [discriminate|]. intros (e & Hin & Hkey & Hname). exfalso.
        destruct (He e Hin) as (n0 & Hn0 & Hsome).
        rewrite Hkey in Hsome. assert (n0 = n) by congruence. subst n0.
        rewrite Hnone in Hsome. destruct Hsome; discriminate.
      * rewrite lookup_insert_ne in Hlk by auto. apply (Hf _ _ _ Hlk).
    + apply (Hf _ _ _ Hlk).
  - intros e Hin. unfold init_record in Hin. rewrite exceptions_set_records in Hin.
    destruct (He e Hin) as (n0 & Hn0 & Hsome). exists n0. split; [exact Hn0|].
    apply records_init_record. auto.
Qed.

Section Passes.

Context {World : Type} (env : Env World).

Lemma upgrade_item_inv kn name b (st : state World) r st' :
  upgrade_item env kn (name, b) st = (r, st') ->
  log_inv (upgrade_log st) ->
  records (upgrade_log st) kn !! name = None ->
  log_inv (upgrade_log st')
  /\ upgrade_checklist st' = upgrade_checklist st
  /\ (forall kn' n, is_Some (records (upgrade_log st') kn' !! n)
        <-> is_Some (records (upgrade_log st) kn' !! n) \/ (kn' = kn /\ n = name)).
Proof.
  unfold upgrade_item, bind, modify. simpl. intros H Hinv Hnone.
  pose proof (init_record_inv kn name _ Hinv Hnone) as Hinv0.
  destruct (one_name (sn_of kn name) (site_of kn name)) eqn:Hone.
  - apply session_step_upgrade_store_backend in H as (Hc & Hd & Hi). simpl in *.
    destruct (owner_of_item kn name Hone) as [Hk Hn].
    split; [|split].
    + apply Hi; [|exact Hinv0]. exists name. split; [exact Hn|].
      rewrite Hk. apply records_init_record. auto.
    + exact Hc.
    + intros kn' n. rewrite Hd. apply records_init_record.
  - destruct (upgrade_store_backend_without_name env b _ _
                (with_upgrade_log (init_record kn name) st) Hone) as (e & He).
    rewrite He in H. inversion H; subst. simpl.
    split; [exact Hinv0|]. split; [reflexivity|].
    intros kn' n. apply records_init_record.
Qed.

Lemma pass_inv kn items :
  forall (done : list string) (st : state World) r st',
    NoDup items.*1 ->
    (forall n, n ∈ items.*1 -> n ∉ done) ->
    log_inv (upgrade_log st) ->
    (forall n, is_Some (records (upgrade_log st) kn !! n) -> n ∈ done) ->
    for_each items (upgrade_item env kn) st = (r, st') ->
    log_inv (upgrade_log st')
    /\ upgrade_checklist st' = upgrade_checklist st
    /\ (forall kn' n, kn' <> kn ->
          is_Some (records (upgrade_log st') kn' !! n)
          <-> is_Some (records (upgrade_log st) kn' !! n)).
Proof.
  induction items as [|[name b] items IH]; intros done st r st' Hnd Hfresh Hinv Hdone H.
  - inversion H; subst. split; [exact Hinv|]. split; [reflexivity|]. intros; reflexivity.
  - simpl in Hnd. apply NoDup_cons in Hnd as [Hname Hnd].
    assert (Hnone : records (upgrade_log st) kn !! name = None).
    { destruct (records (upgrade_log st) kn !! name) eqn:E; [|reflexivity].
      exfalso. apply (Hfresh name); [left|]. apply Hdone. rewrite E. eauto. }
    simpl in H. apply bind_inv in H as [([] & st1 & H1 & H2)|(e & H1 & _)].
    + apply upgrade_item_inv in H1 as (Hinv1 & Hc1 & Hd1); [|exact Hinv|exact Hnone].
      apply (IH (name :: done)) in H2 as (Hinv2 & Hc2 & Hd2); [|exact Hnd| |exact Hinv1|].
      * split; [exact Hinv2|]. split; [congruence|].
        intros kn' n Hkn. rewrite (Hd2 kn' n Hkn), Hd1. split; [|auto].
        intros [Hs|[Hk _]]; [exact Hs|contradiction].
      * intros n Hin Hn. apply elem_of_cons in Hn as [->|Hn]; [contradiction|].
        apply (Hfresh n); [right; exact Hin|exact Hn].
      * intros n Hs. apply Hd1 in Hs as [Hs|[_ ->]]; [right; auto|left].
    + apply upgrade_item_inv in H1 as (Hinv1 & Hc1 & Hd1); [|exact Hinv|exact Hnone].
      split; [exact Hinv1|]. split; [exact Hc1|].
      intros kn' n Hkn. rewrite Hd1. split; [|auto].
      intros [Hs|[Hk _]]; [exact Hs|contradiction].
Qed.

End Passes.

(** *** A session that starts from [__init__] *)

Lemma dict_set_NoDup {V} (k : string) (v : V) d :
  NoDup d.*1 -> NoDup (dict_set k v d).*1.
Proof.
  induction d as [|[k' v'] d IH]; simpl; intros Hnd.
  - apply NoDup_singleton.
  - apply NoDup_cons in Hnd as [Hk' Hnd].
    destruct (decide (k' = k)) as [->|Hne]; simpl.
    + apply NoDup_cons. auto.
    + apply NoDup_cons. split; [|auto].
      rewrite dict_set_keys. intros [H|H]; [contradiction|congruence].
Qed.

Section Fresh.

Context {World : Type}.

Lemma fresh_process_store (st : state World) item :
  fresh st -> fresh (process_store_for_checklist st item).
Proof.
  intros (He & Hr & Hv & Hd). destruct item as [name s].
  unfold process_store_for_checklist, _process_validations_store_for_checklist,
    _process_metrics_store_for_checklist. simpl.
  destruct (store_cls s),
    (isinstance (store_backend s) DatabaseStoreBackend),
    (isinstance (store_backend s) InMemoryStoreBackend),
    (is_migratable (store_backend s)); simpl;
    (split; [exact He|split; [intros kn; specialize (Hr kn); destruct kn; exact Hr|]]);
    simpl; (split; [|exact Hd]); try exact Hv; apply dict_set_NoDup; exact Hv.
Qed.

Lemma fresh_process_site (st : state World) item :
  fresh st -> fresh (process_site_for_checklist st item).
Proof.
  intros (He & Hr & Hv & Hd). destruct item as [name c].
  unfold process_site_for_checklist, _process_docs_site_for_checklist. simpl.
  destruct (is_migratable (site_validations_store_backend c)); simpl;
    (split; [exact He|split; [intros kn; specialize (Hr kn); destruct kn; exact Hr|]]);
    simpl; (split; [exact Hv|]); try exact Hd; apply dict_set_NoDup; exact Hd.
Qed.

Lemma fresh_foldl {A} (f : state World -> A -> state World) l :
  (forall st x, fresh st -> fresh (f st x)) ->
  forall st, fresh st -> fresh (foldl f st l).
Proof.
  intros Hf. induction l as [|x l IH]; intros st Hst; simpl; auto.
Qed.

Lemma fresh_init dc (w : World) : fresh (init dc w).
Proof.
  unfold init, _generate_upgrade_checklist.
  assert (H0 : fresh (State (UpgradeLog [] [] [] [] [] [] ∅ ∅)
                        (UpgradeChecklist [] []) ∅ w [] None None)).
  { unfold fresh. simpl. split; [reflexivity|].
    split; [intros kn; destruct kn; reflexivity|]. split; apply NoDup_nil_2. }
  pose proof (fresh_foldl process_store_for_checklist (stores dc) fresh_process_store
                _ H0) as H1.
  destruct (data_docs_sites dc) as [sites|]; [|exact H1].
  apply fresh_foldl; [apply fresh_process_site|exact H1].
Qed.

End Fresh.

Section SessionFlags.

Context {World : Type} (env : Env World).

Lemma session_log_inv (st : state World) :
  fresh st ->
  log_inv (upgrade_log (upgrade_docs_sites env (upgrade_validations_stores env st).2).2).
Proof.
  intros (He & Hr & Hv & Hd).
  assert (Hinv : log_inv (upgrade_log st)).
  { split.
    - intros kn n o Hlk. rewrite Hr, lookup_empty in Hlk. discriminate.
    - intros e Hin. rewrite He in Hin. inversion Hin. }
  destruct (upgrade_validations_stores env st) as [r1 st1] eqn:E1. simpl.
  destruct (upgrade_docs_sites env st1) as [r2 st2] eqn:E2. simpl.
  unfold upgrade_validations_stores, bind, gets in E1.
  change (upgrade_validations_store env) with (upgrade_item env validation_store_name) in E1.
  apply (pass_inv env validation_store_name _ []) in E1 as (Hinv1 & Hc1 & Hd1);
    [|exact Hv|intros n _ H; inversion H|exact Hinv|].
  2:{ intros n Hs. rewrite Hr, lookup_empty in Hs. destruct Hs; discriminate. }
  unfold upgrade_docs_sites, bind, gets in E2.
  change (upgrade_docs_site env) with (upgrade_item env site_name_key) in E2.
  apply (pass_inv env site_name_key _ []) in E2 as (Hinv2 & _ & _);
    [exact Hinv2|rewrite Hc1; exact Hd|intros n _ H; inversion H|exact Hinv1|].
  intros n Hs. apply Hd1 in Hs; [|discriminate].
  rewrite Hr, lookup_empty in Hs. destruct Hs; discriminate.
Qed.

(** C10.  Each pass of [upgrade_project] hands a store (or site) to
    [upgrade_store_backend] in a state where its outcome record has just
    been set to an empty updated list and a [False] flag, before any call to
    the outside world is made for it.  And in the log that a session started
    from [__init__] returns, for every registry and every behaviour of the
    backends, the flag of every store and every site that has an outcome
    record is [True] exactly when some entry of the flat exceptions list
    names that store (respectively that site). *)
Theorem flags_agree_with_exceptions (dc : data_context) (w : World) :
  (forall item (st : state World),
     exists st0,
       upgrade_validations_store env item st
       = upgrade_store_backend env item.2 (Some item.1) None st0
       /\ records (upgrade_log st0) validation_store_name !! item.1 = Some (Outcome [] false)
       /\ trace st0 = trace st /\ world st0 = world st)
  /\ (forall item (st : state World),
        exists st0,
          upgrade_docs_site env item st
          = upgrade_store_backend env item.2 None (Some item.1) st0
          /\ records (upgrade_log st0) site_name_key !! item.1 = Some (Outcome [] false)
          /\ trace st0 = trace st /\ world st0 = world st)
  /\ exists log st',
       upgrade_project env (init dc w) = (Ok log, st')
       /\ forall kn n o, records log kn !! n = Some o ->
            (outcome_exceptions o = true
             <-> exists e, e ∈ exceptions log /\ entry_key e = kn /\ entry_name e = Some n).
Proof.
  split; [|split].
  - intros item st. eexists. split; [reflexivity|]. simpl.
    rewrite lookup_insert_eq. auto.
  - intros item st. eexists. split; [reflexivity|]. simpl.
    rewrite lookup_insert_eq. auto.
  - eexists _, _. split.
    + unfold upgrade_project, bind. rewrite !try_except_pass_run. reflexivity.
    + apply (session_log_inv (init dc w) (fresh_init dc w)).
Qed.

End SessionFlags.

(** * Further properties *)

(** ** What the checklist and the skip lists hold *)

Lemma dict_set_elem {V} (k n : string) (v x : V) d :
  (n, x) ∈ dict_set k v d -> (n, x) ∈ d \/ (n = k /\ x = v).
Proof.
  induction d as [|[k' v'] d IH]; simpl.
  - intros H. apply list_elem_of_singleton in H. inversion H; auto.
  - destruct (decide (k' = k)) as [->|Hk]; rewrite !elem_of_cons.
    + intros [H|H]; [inversion H; auto|auto].
    + intros [H|H]; [auto|]. apply IH in H as [H|H]; auto.
Qed.

Section ChecklistContents.

Context {World : Type}.

Ltac new_element :=
  match goal with
  | H : _ ∈ _ ++ [_] |- _ =>
      apply elem_of_app in H as [H|H];
      [auto|apply list_elem_of_singleton in H as ->; eexists; simpl; eauto 10]
  | H : (_, _) ∈ dict_set _ _ _ |- _ =>
      apply dict_set_elem in H as [H|[-> ->]]; [auto|simpl; auto]
  end.

Lemma checklist_sound_store dc (st : state World) name s :
  (name, s) ∈ stores dc ->
  checklist_sound dc st ->
  checklist_sound dc (process_store_for_checklist st (name, s)).
Proof.
  intros Hin (H1 & H2 & H3 & H4 & H5 & H6 & H7). destruct s as [cls b].
  unfold process_store_for_checklist, _process_validations_store_for_checklist,
    _process_metrics_store_for_checklist. simpl.
  destruct cls.
  - destruct (isinstance b DatabaseStoreBackend) eqn:Edb;
      [|destruct (is_migratable b) eqn:Em];
      unfold checklist_sound; simpl;
      repeat (split; [first [assumption | intros; new_element]|]);
      first [assumption | intros; new_element].
  - destruct (isinstance b DatabaseStoreBackend) eqn:Edb;
      [|destruct (isinstance b InMemoryStoreBackend) eqn:Em];
      unfold checklist_sound; simpl;
      repeat (split; [first [assumption | intros; new_element]|]);
      first [assumption | intros; new_element].
  - unfold checklist_sound. auto 10.
Qed.

Lemma checklist_sound_site dc (st : state World) name c :
  (name, c) ∈ default [] (data_docs_sites dc) ->
  checklist_sound dc st ->
  checklist_sound dc (process_site_for_checklist st (name, c)).
Proof.
  intros Hin (H1 & H2 & H3 & H4 & H5 & H6 & H7). destruct c as [b].
  unfold process_site_for_checklist, _process_docs_site_for_checklist. simpl.
  destruct (is_migratable b) eqn:Em;
    unfold checklist_sound; simpl;
    repeat (split; [first [assumption | intros; new_element]|]);
    first [assumption | intros; new_element].
Qed.

Lemma checklist_sound_foldl {A} dc (f : state World -> A -> state World) (all : list A) :
  (forall st x, x ∈ all -> checklist_sound dc st -> checklist_sound dc (f st x)) ->
  forall l st, (forall x, x ∈ l -> x ∈ all) ->
    checklist_sound dc st -> checklist_sound dc (foldl f st l).
Proof.
  intros Hf. induction l as [|x l IH]; intros st Hl Hst; simpl; [exact Hst|].
  apply IH.
  - intros y Hy. apply Hl. right. exact Hy.
  - apply Hf; [apply Hl; left|exact Hst].
Qed.

(** X1.  After [__init__], every entry of the two checklists is a backend
    that is an instance of one of the three tuple backend classes (and, for
    a store, not of the database class), taken from a validations store or a
    site of the registry under the same name; and every element of a skip
    list carries the name of a registered store or site of the matching kind
    together with the class name of its backend. *)
Theorem checklist_and_skip_lists_come_from_the_registry (dc : data_context) (w : World) :
  checklist_sound dc (init dc w).
Proof.
  unfold init, _generate_upgrade_checklist.
  assert (H0 : checklist_sound dc
                 (State (UpgradeLog [] [] [] [] [] [] ∅ ∅) (UpgradeChecklist [] [])
                    ∅ w [] None None)).
  { unfold checklist_sound. simpl.
    repeat (split; [intros ? ? H; inversion H|]);
      repeat (split; [intros ? H; inversion H|]); intros ? H; inversion H. }
  assert (H1 : checklist_sound dc
                 (foldl process_store_for_checklist
                    (State (UpgradeLog [] [] [] [] [] [] ∅ ∅) (UpgradeChecklist [] [])
                       ∅ w [] None None) (stores dc))).
  { apply (checklist_sound_foldl dc _ (stores dc)); [|auto|exact H0].
    intros st [name s] Hin Hst. apply checklist_sound_store; assumption. }
  destruct (data_docs_sites dc) as [sites|] eqn:Es; [|exact H1].
  apply (checklist_sound_foldl dc _ sites); [|auto|exact H1].
  intros st [name c] Hin Hst. apply checklist_sound_site; [|exact Hst].
  rewrite Es. exact Hin.
Qed.

End ChecklistContents.

(** ** The order of calls in a content rewrite *)

Section RewriteCalls.

Context {World : Type} (env : Env World).

(** X2.  Whatever the backend does, [_update_validation_result_json]
    removes the source key only after the write under the destination key
    has returned: it either fails on the missing run time before any call,
    or stops after the read, or stops after a write that raised, or makes
    the read, the write and the removal in this order.  It never touches the
    log or the run-time cache. *)
Theorem source_removed_only_after_write sk dk rn b (st : state World) :
  rewrite_outcome env sk dk rn b st
    (_update_validation_result_json env sk dk rn b st).1
    (_update_validation_result_json env sk dk rn b st).2
  /\ upgrade_log (_update_validation_result_json env sk dk rn b st).2 = upgrade_log st
  /\ validation_run_times (_update_validation_result_json env sk dk rn b st).2
     = validation_run_times st.
Proof.
  unfold rewrite_outcome, _update_validation_result_json, bind, run_time_getitem,
    perform, lift.
  destruct (validation_run_times st !! rn) as [t|] eqn:Et; simpl; [|auto].
  destruct (get env b sk (world st)) as [[content|e] w1] eqn:Eg; simpl.
  2:{ split; [|auto]. right. left. eauto. }
  destruct (json_loads env content) as [d|e]; simpl.
  2:{ split; [|auto]. right. left. eauto. }
  destruct (set_meta_run_id d (new_run_id_dict rn t)) as [d'|e]; simpl.
  2:{ split; [|auto]. right. left. eauto. }
  destruct (set env b dk (json_dumps env d') w1) as [[[]|e] w2] eqn:Es; simpl.
  2:{ split; [|auto]. right. right. left. eexists _, _, _, _.
      rewrite <- app_assoc. simpl. eauto. }
  destruct (remove_key env b sk w2) as [r w3] eqn:Er; simpl.
  split; [|auto]. right. right. right. eexists _, _, _, _.
  rewrite <- !app_assoc. simpl. eauto.
Qed.

End RewriteCalls.

(** ** Logging one outcome *)

Section LogOutcome.

Context {World : Type} (env : Env World).

Lemma url_for_log_eq b k (st : state World) :
  url_for_log env b k st
  = (Ok (url_result env b k (world st)).1,
     State (upgrade_log st) (upgrade_checklist st) (validation_run_times st)
       (url_result env b k (world st)).2 (trace st ++ url_calls b k)
       (local_run_name st) (local_dest_key st)).
Proof.
  unfold url_for_log, url_result, url_calls, try_except, perform, ret.
  destruct k as [k'|]; [destruct (truthy_key (Some k'))|].
  - destruct (get_url_for_key env b k' (world st)) as [[url|e] w]; reflexivity.
  - rewrite app_nil_r. destruct st; reflexivity.
  - rewrite app_nil_r. destruct st; reflexivity.
Qed.

Lemma bind_ok {A B} (m : M World A) (k : A -> M World B) st a st1 :
  m st = (Ok a, st1) -> bind m k st = k a st1.
Proof. intros H. unfold bind. rewrite H. reflexivity. Qed.

Lemma bind_raise {A B} (m : M World A) (k : A -> M World B) st e st1 :
  m st = (Raise e, st1) -> bind m k st = (Raise e, st1).
Proof. intros H. unfold bind. rewrite H. reflexivity. Qed.

Lemma assert_ok sn site (st : state World) :
  one_name sn site = true -> assert_store_name_or_site_name sn site st = (Ok tt, st).
Proof.
  unfold one_name, assert_store_name_or_site_name.
  destruct (truthy_str sn), (truthy_str site); simpl; try discriminate; reflexivity.
Qed.

(** What [_update_upgrade_log] does once exactly one name is given. *)
Lemma update_upgrade_log_eq b sk dk sn site msg (st : state World) :
  one_name sn site = true ->
  _update_upgrade_log env b sk dk sn site msg st
  = let src := (url_result env b sk (world st)).1 in
    let w1 := (url_result env b sk (world st)).2 in
    let dest := (url_result env b dk w1).1 in
    let w2 := (url_result env b dk w1).2 in
    match log_with_outcome sn site src dest msg (upgrade_log st) with
    | Ok l => (Ok tt, logged b sk dk l w2 st)
    | Raise e =>
        (Raise e, logged b sk dk (log_with_entry sn site src dest msg (upgrade_log st)) w2 st)
    end.
Proof.
  intros Hone. unfold _update_upgrade_log.
  erewrite bind_ok by (apply assert_ok; exact Hone).
  erewrite bind_ok by apply url_for_log_eq.
  erewrite bind_ok by apply url_for_log_eq.
  simpl.
  unfold log_with_outcome, log_with_entry, logged, entry_for.
  destruct (truthy_str msg); simpl;
    destruct (truthy_str sn); simpl;
    unfold bind, gets, lift, modify, with_upgrade_log, ret; simpl;
    destruct (record_outcome _ _ _ _); simpl; rewrite <- ?app_assoc; reflexivity.
Qed.

End LogOutcome.

Section LogTheorems.

Context {World : Type} (env : Env World).

Lemma log_with_outcome_ok sn site src dest msg l n o :
  owner_name sn site = Some n ->
  records l (owner_key sn) !! n = Some o ->
  log_with_outcome sn site src dest msg l
  = Ok (set_records (owner_key sn)
          (<[n := if truthy_str msg then Outcome (outcome_updated o) true
                  else Outcome (outcome_updated o ++ [Updated src dest])
                         (outcome_exceptions o)]> (records l (owner_key sn)))
          (log_with_entry sn site src dest msg l)).
Proof.
  intros Hn Ho. rewrite log_with_outcome_eq, Hn.
  unfold record_outcome, outcome_getitem. rewrite Ho.
  destruct (truthy_str msg); reflexivity.
Qed.

(** X3.  With exactly one of the two names given and the outcome record
    of that store or site present, [_update_upgrade_log] returns normally
    whatever [get_url_for_key] does: its only calls are the URL lookups for
    the keys that are not empty, and a lookup that raises is not propagated.
    The record is still present afterwards and the cache and checklist are
    untouched. *)
Theorem update_upgrade_log_returns_with_record b sk dk sn site msg (st : state World) :
  one_name sn site = true ->
  has_record sn site (upgrade_log st) ->
  logs_and_returns env b sk dk sn site msg st.
Proof.
  intros Hone (n & Hn & [o Ho]). unfold logs_and_returns.
  rewrite (update_upgrade_log_eq env b sk dk sn site msg st Hone). cbv zeta.
  rewrite (log_with_outcome_ok _ _ _ _ _ _ n o Hn Ho).
  eexists. split; [reflexivity|]. simpl. split; [reflexivity|].
  split; [|auto]. exists n. split; [exact Hn|].
  rewrite records_set_records. destruct (decide (owner_key sn = owner_key sn)); [|congruence].
  rewrite lookup_insert_eq. eauto.
Qed.

(** X4.  Under the same conditions the log changes in one place only.
    With an exception message, one entry naming the store or site is
    appended to the exceptions and its flag is set, its updated list being
    kept; without a message, the pair of source and destination strings is
    appended to its updated list, the flag and the exceptions being kept.
    Every other outcome record is as before.  A URL that the backend fails
    to give is logged as the placeholder text. *)
Theorem update_upgrade_log_effect b sk dk sn site msg n (st : state World) :
  one_name sn site = true ->
  owner_name sn site = Some n ->
  is_Some (records (upgrade_log st) (owner_key sn) !! n) ->
  let src := (url_result env b sk (world st)).1 in
  let dest := (url_result env b dk (url_result env b sk (world st)).2).1 in
  outcome_logged sn site msg n src dest (upgrade_log st)
    (upgrade_log (_update_upgrade_log env b sk dk sn site msg st).2)
  /\ (forall k e w, sk = Some k -> k <> [] ->
        get_url_for_key env b k (world st) = (Raise e, w) ->
        src = "Unable to generate URL for key: " +:+ str_of_key env sk)
  /\ (dk = None -> dest = "N/A").
Proof.
  intros Hone Hn [o Ho]. cbv zeta. split; [|split].
  - rewrite (update_upgrade_log_eq env b sk dk sn site msg st Hone). cbv zeta.
    rewrite (log_with_outcome_ok _ _ _ _ _ _ n o Hn Ho). simpl.
    exists o. split; [exact Ho|].
    rewrite exceptions_set_records, exceptions_log_with_entry.
    split; [reflexivity|]. rewrite !records_set_records.
    destruct (decide (owner_key sn = owner_key sn)); [|congruence].
    split; [apply lookup_insert_eq|].
    intros kn n' Hne. rewrite records_set_records.
    destruct (decide (kn = owner_key sn)) as [->|Hk].
    + rewrite lookup_insert_ne; [reflexivity|]. intros ->. apply Hne. reflexivity.
    + apply (f_equal (fun m => m !! n')). apply records_log_with_entry.
  - intros k e w -> Hk Hraise. unfold url_result, truthy_key.
    rewrite bool_decide_eq_true_2 by exact Hk. rewrite Hraise. reflexivity.
  - intros ->. reflexivity.
Qed.

(** X5.  When exactly one name is given but the store or site has no
    outcome record, [_update_upgrade_log] raises [KeyError] for that name.
    An exception message is nevertheless appended to the exceptions list
    before the lookup fails, and no outcome record is created. *)
Theorem update_upgrade_log_without_record b sk dk sn site msg n (st : state World) :
  one_name sn site = true ->
  owner_name sn site = Some n ->
  records (upgrade_log st) (owner_key sn) !! n = None ->
  let src := (url_result env b sk (world st)).1 in
  let dest := (url_result env b dk (url_result env b sk (world st)).2).1 in
  (_update_upgrade_log env b sk dk sn site msg st).1 = Raise (KeyError n)
  /\ exceptions (upgrade_log (_update_upgrade_log env b sk dk sn site msg st).2)
     = exceptions (upgrade_log st)
         ++ (if truthy_str msg then [entry_for sn site src dest msg] else [])
  /\ (forall kn, records (upgrade_log (_update_upgrade_log env b sk dk sn site msg st).2) kn
                 = records (upgrade_log st) kn).
Proof.
  intros Hone Hn Hnone. cbv zeta.
  rewrite (update_upgrade_log_eq env b sk dk sn site msg st Hone). cbv zeta.
  rewrite log_with_outcome_eq, Hn.
  unfold record_outcome, outcome_getitem. rewrite Hnone. simpl.
  split; [reflexivity|]. split.
  - apply exceptions_log_with_entry.
  - intros kn. apply records_log_with_entry.
Qed.

End LogTheorems.

Lemma update_upgrade_log_returns_with_record_witness :
  logs_and_returns Scenario.env Inputs.healthy_backend (Some Inputs.labelled_key) None
    (Some "validations") None (Some "FileNotFoundError") Started.store_session.
Proof.
  apply update_upgrade_log_returns_with_record.
  - vm_compute. reflexivity.
  - exists "validations". split; [reflexivity|]. eexists. vm_compute. reflexivity.
Defined.

Lemma update_upgrade_log_effect_witness :
  let src := (url_result Scenario.env Inputs.healthy_backend (Some Inputs.labelled_key)
                (world Started.store_session)).1 in
  let dest := (url_result Scenario.env Inputs.healthy_backend None
                 (url_result Scenario.env Inputs.healthy_backend (Some Inputs.labelled_key)
                    (world Started.store_session)).2).1 in
  outcome_logged (Some "validations") None None "validations" src dest
    (upgrade_log Started.store_session)
    (upgrade_log
       (_update_upgrade_log Scenario.env Inputs.healthy_backend (Some Inputs.labelled_key)
          None (Some "validations") None None Started.store_session).2)
  /\ (forall k e w, Some Inputs.labelled_key = Some k -> k <> [] ->
        get_url_for_key Scenario.env Inputs.healthy_backend k (world Started.store_session)
        = (Raise e, w) ->
        src = "Unable to generate URL for key: "
              +:+ str_of_key Scenario.env (Some Inputs.labelled_key))
  /\ (@None key = None -> dest = "N/A").
Proof.
  apply (update_upgrade_log_effect Scenario.env Inputs.healthy_backend
           (Some Inputs.labelled_key) None (Some "validations") None None "validations"
           Started.store_session).
  - vm_compute. reflexivity.
  - reflexivity.
  - eexists. vm_compute. reflexivity.
Defined.

Lemma update_upgrade_log_without_record_witness :
  let st := init Inputs.one_store Inputs.one_store_disk in
  let src := (url_result Scenario.env Inputs.healthy_backend (Some Inputs.labelled_key)
                (world st)).1 in
  let dest := (url_result Scenario.env Inputs.healthy_backend None
                 (url_result Scenario.env Inputs.healthy_backend (Some Inputs.labelled_key)
                    (world st)).2).1 in
  (_update_upgrade_log Scenario.env Inputs.healthy_backend (Some Inputs.labelled_key) None
     (Some "validations") None (Some "KeyError") st).1 = Raise (KeyError "validations")
  /\ exceptions (upgrade_log
       (_update_upgrade_log Scenario.env Inputs.healthy_backend (Some Inputs.labelled_key)
          None (Some "validations") None (Some "KeyError") st).2)
     = exceptions (upgrade_log st)
         ++ (if truthy_str (Some "KeyError")
             then [entry_for (Some "validations") None src dest (Some "KeyError")] else [])
  /\ (forall kn, records (upgrade_log
        (_update_upgrade_log Scenario.env Inputs.healthy_backend (Some Inputs.labelled_key)
           None (Some "validations") None (Some "KeyError") st).2) kn
      = records (upgrade_log st) kn).
Proof.
  apply (update_upgrade_log_without_record Scenario.env Inputs.healthy_backend
           (Some Inputs.labelled_key) None (Some "validations") None (Some "KeyError")
           "validations" (init Inputs.one_store Inputs.one_store_disk)).
  - vm_compute. reflexivity.
  - reflexivity.
  - vm_compute. reflexivity.
Defined.

(** ** The run-time setters *)

Section Setters.

Context {World : Type} (env : Env World).

(** X6.  Once the setter of a backend has reached its parser call, its
    result is settled by the parser and, after a [ParserError] only, by the
    provenance call: a parsed run name is cached without any provenance
    call; after a [ParserError] the provenance time is cached, or the error
    of the provenance call is raised with the cache untouched; any other
    parser error is raised as it is.  The cache is written under the run
    name only, and only when the setter returns. *)
Theorem run_time_setter_outcomes b k rn (st : state World) w1 :
  parser_reached env b (world st) w1 ->
  tuple_getitem k (-2) = Ok rn ->
  exists setter,
    run_time_setters_by_backend_type env (backend_type b) = Some setter
    /\ setter_outcome env b k rn st w1 setter.
Proof.
  unfold parser_reached, setter_outcome, setup_calls, provenance_call, provenance,
    resolved, unresolved.
  intros Hreach Hrn.
  destruct (backend_type b); try contradiction; simpl; eexists; (split; [reflexivity|]).
  - subst w1.
    unfold _get_tuple_filesystem_store_backend_run_time, parse_or_provenance,
      try_except_ParserError, bind, lift, perform, modify, set_validation_run_time.
    rewrite Hrn. simpl.
    destruct (parse_isoformat env rn (world st)) as [[iso|e] w2]; simpl; [reflexivity|].
    destruct (is_ParserError e); simpl; [|reflexivity].
    destruct (filesystem_mtime_isoformat env b k w2) as [[iso|e'] w3]; simpl;
      rewrite <- app_assoc; reflexivity.
  - unfold _get_tuple_s3_store_backend_run_time, parse_or_provenance,
      try_except_ParserError, bind, lift, perform, modify, set_validation_run_time.
    rewrite Hreach, Hrn. simpl.
    destruct (parse_isoformat env rn w1) as [[iso|e] w2]; simpl;
      [rewrite <- app_assoc; reflexivity|].
    destruct (is_ParserError e); simpl; [|rewrite <- app_assoc; reflexivity].
    destruct (s3_last_modified_isoformat env b k w2) as [[iso|e'] w3]; simpl;
      rewrite <- !app_assoc; reflexivity.
  - unfold _get_tuple_gcs_store_backend_run_time, parse_or_provenance,
      try_except_ParserError, bind, lift, perform, modify, set_validation_run_time.
    rewrite Hreach, Hrn. simpl.
    destruct (parse_isoformat env rn w1) as [[iso|e] w2]; simpl;
      [rewrite <- app_assoc; reflexivity|].
    destruct (is_ParserError e); simpl; [|rewrite <- app_assoc; reflexivity].
    destruct (gcs_time_created_isoformat env b k w2) as [[iso|e'] w3]; simpl;
      rewrite <- !app_assoc; reflexivity.
Qed.

(** X7.  The S3 and GCS setters set up their client before they look at
    the run name: when that fails, the error is raised with the parser never
    called and the cache untouched, also for a run name that is a date. *)
Theorem cloud_setter_needs_its_client b k (st : state World) e w :
  (backend_type b = TupleS3StoreBackend /\ boto3_resource env (world st) = (Raise e, w)
   \/ backend_type b = TupleGCSStoreBackend
      /\ gcs_get_bucket env b (world st) = (Raise e, w)) ->
  exists setter,
    run_time_setters_by_backend_type env (backend_type b) = Some setter
    /\ setter k b st = (Raise e, unresolved st w (setup_calls b)).
Proof.
  unfold setup_calls, unresolved.
  intros [[Hb H]|[Hb H]]; rewrite Hb; simpl; eexists; (split; [reflexivity|]).
  - unfold _get_tuple_s3_store_backend_run_time, bind, perform. rewrite H. reflexivity.
  - unfold _get_tuple_gcs_store_backend_run_time, bind, perform. rewrite H. reflexivity.
Qed.

(** X8.  The checklist admits a backend by [isinstance], the setter is
    looked up by the exact class.  So a backend whose class is derived from
    a migratable class is migratable for the checklist but has no setter:
    for every key whose run name is not cached the first [try] block raises
    [TypeError] without calling anything, the destination key staying
    [None]. *)
Theorem derived_backend_has_no_setter id name base k rn (st : state World) :
  is_migratable (Backend id base) = true ->
  tuple_getitem k (-2) = Ok rn ->
  validation_run_times st !! rn = None ->
  is_migratable (Backend id (Subclass name base)) = true
  /\ compute_dest_key env (Backend id (Subclass name base)) k st
     = (Raise (TypeError "'NoneType' object is not callable"),
        State (upgrade_log st) (upgrade_checklist st) (validation_run_times st)
          (world st) (trace st) (Some rn) (Some None)).
Proof.
  intros Hm Hrn Hnone. split.
  - unfold is_migratable, isinstance in *. simpl in *.
    rewrite !orb_true_iff in Hm. rewrite !orb_true_iff. tauto.
  - unfold compute_dest_key, bind, lift, modify, gets, raise.
    rewrite Hrn. simpl. rewrite Hnone. reflexivity.
Qed.

End Setters.

Lemma run_time_setter_outcomes_witness :
  exists setter,
    run_time_setters_by_backend_type Scenario.env (backend_type Inputs.healthy_backend)
    = Some setter
    /\ setter_outcome Scenario.env Inputs.healthy_backend Inputs.labelled_key "my_run"
         (init Inputs.one_store Inputs.timed_disk) Inputs.timed_disk setter.
Proof.
  apply (run_time_setter_outcomes Scenario.env Inputs.healthy_backend Inputs.labelled_key
           "my_run" (init Inputs.one_store Inputs.timed_disk) Inputs.timed_disk).
  - vm_compute. reflexivity.
  - vm_compute. reflexivity.
Defined.

Lemma cloud_setter_needs_its_client_witness :
  exists setter,
    run_time_setters_by_backend_type Offline.env (backend_type Offline.s3_backend)
    = Some setter
    /\ setter Inputs.dated_key Offline.s3_backend (init Inputs.one_store Inputs.timed_disk)
       = (Raise (Exn "ModuleNotFoundError" "No module named 'boto3'"),
          unresolved (init Inputs.one_store Inputs.timed_disk) Inputs.timed_disk
            (setup_calls Offline.s3_backend)).
Proof.
  apply (cloud_setter_needs_its_client Offline.env Offline.s3_backend Inputs.dated_key
           (init Inputs.one_store Inputs.timed_disk)).
  left. split; vm_compute; reflexivity.
Defined.

Lemma derived_backend_has_no_setter_witness :
  is_migratable (Backend "healthy" (Subclass "MyFilesystemBackend" TupleFilesystemStoreBackend))
  = true
  /\ compute_dest_key Scenario.env
       (Backend "healthy" (Subclass "MyFilesystemBackend" TupleFilesystemStoreBackend))
       Inputs.dated_key (init Inputs.one_store Inputs.timed_disk)
     = (Raise (TypeError "'NoneType' object is not callable"),
        State (upgrade_log (init Inputs.one_store Inputs.timed_disk))
          (upgrade_checklist (init Inputs.one_store Inputs.timed_disk))
          (validation_run_times (init Inputs.one_store Inputs.timed_disk))
          (world (init Inputs.one_store Inputs.timed_disk))
          (trace (init Inputs.one_store Inputs.timed_disk))
          (Some "20210101T000000") (Some None)).
Proof.
  apply (derived_backend_has_no_setter Scenario.env "healthy" "MyFilesystemBackend"
           TupleFilesystemStoreBackend Inputs.dated_key "20210101T000000"
           (init Inputs.one_store Inputs.timed_disk)).
  - vm_compute. reflexivity.
  - vm_compute. reflexivity.
  - vm_compute. reflexivity.
Defined.

(** ** Failure isolation as the loop provides it *)

Lemma tuple_getitem_neg2_short (k : key) :
  length k < 2 -> tuple_getitem k (-2) = Raise IndexError.
Proof.
  intros H. unfold tuple_getitem.
  replace (-2 <? 0)%Z with true by reflexivity.
  replace ((-2 + Z.of_nat (length k) <? 0)%Z) with true
    by (symmetry; apply Z.ltb_lt; lia).
  reflexivity.
Qed.

Lemma tuple_getitem_neg2_long (k : key) :
  2 <= length k -> exists prefix rn tail, k = prefix ++ [rn; tail].
Proof.
  intros H. exists (take (length k - 2) k).
  pose proof (take_drop (length k - 2) k) as Hk.
  assert (Hlen : length (drop (length k - 2) k) = 2) by (rewrite length_drop; lia).
  destruct (drop (length k - 2) k) as [|rn [|tail [|x l]]]; simpl in Hlen; try lia.
  exists rn, tail. symmetry. exact Hk.
Qed.

Section Isolation.

Context {World : Type} (env : Env World).

#[local] Existing Instances outside_only_refl outside_only_trans.

#[local] Instance resolver_frame_refl : Reflexive (@resolver_frame World).
Proof. intros st. unfold resolver_frame. auto. Qed.

#[local] Instance resolver_frame_trans : Transitive (@resolver_frame World).
Proof.
  intros s1 s2 s3 (A1 & A2 & A3 & A4) (B1 & B2 & B3 & B4).
  unfold resolver_frame. repeat split; congruence.
Qed.

Lemma resolver_frame_setter b k setter :
  run_time_setters_by_backend_type env (backend_type b) = Some setter ->
  stable resolver_frame (setter k b).
Proof.
  intros Hs.
  assert (Hp : forall (st : state World) w c,
    resolver_frame st
      (State (upgrade_log st) (upgrade_checklist st) (validation_run_times st)
         w (trace st ++ [c]) (local_run_name st) (local_dest_key st)))
    by (intros; unfold resolver_frame; simpl; auto).
  assert (Ht : forall rn iso (st : state World), tuple_getitem k (-2) = Ok rn ->
    resolver_frame st (set_validation_run_time rn iso st))
    by (intros; unfold resolver_frame; simpl; auto).
  destruct (backend_type b); simpl in Hs; inversion Hs; subst.
  - apply stable_filesystem_run_time; try exact _; assumption.
  - apply stable_s3_run_time; try exact _; assumption.
  - apply stable_gcs_run_time; try exact _; assumption.
Qed.

(** The first [try] block never touches the log; once the run name has
    been read, [run_name] and [dest_key] are bound when it ends. *)
Lemma compute_dest_key_inv b k rn (st : state World) r st' :
  tuple_getitem k (-2) = Ok rn ->
  compute_dest_key env b k st = (r, st') ->
  upgrade_log st' = upgrade_log st
  /\ upgrade_checklist st' = upgrade_checklist st
  /\ local_run_name st' = Some rn
  /\ ((r = Ok tt /\ exists d, local_dest_key st' = Some (Some d))
      \/ ((exists e, r = Raise e) /\ local_dest_key st' = Some None)).
Proof.
  intros Hrn H. unfold compute_dest_key in H.
  erewrite bind_ok in H by (unfold lift; rewrite Hrn; reflexivity).
  erewrite bind_ok in H by reflexivity.
  erewrite bind_ok in H by reflexivity.
  erewrite bind_ok in H by reflexivity.
  apply bind_inv in H as [([] & s1 & H1 & H)|(e & H1 & ->)].
  - assert (F : resolver_frame
                  (set_local_dest_key (Some None) (set_local_run_name (Some rn) st)) s1).
    { destruct (validation_run_times _ !! rn).
      - inversion H1; subst. reflexivity.
      - destruct (run_time_setters_by_backend_type env (backend_type b)) as [setter|] eqn:Es.
        + revert H1. apply resolver_frame_setter. exact Es.
        + inversion H1. }
    destruct F as (F1 & F2 & F3 & F4). simpl in *.
    apply bind_inv in H as [(T & s2 & H2 & H)|(e & H2 & ->)].
    + unfold run_time_getitem in H2.
      destruct (validation_run_times s1 !! rn); inversion H2; subst.
      inversion H; subst. simpl. repeat split; eauto.
    + unfold run_time_getitem in H2.
      destruct (validation_run_times s1 !! rn); inversion H2; subst.
      repeat split; eauto.
  - assert (F : resolver_frame
                  (set_local_dest_key (Some None) (set_local_run_name (Some rn) st)) st').
    { destruct (validation_run_times _ !! rn).
      - inversion H1.
      - destruct (run_time_setters_by_backend_type env (backend_type b)) as [setter|] eqn:Es.
        + revert H1. apply resolver_frame_setter. exact Es.
        + inversion H1; subst. reflexivity. }
    destruct F as (F1 & F2 & F3 & F4). simpl in *. repeat split; eauto.
Qed.

(** Every call of [_update_upgrade_log] that can log adds exactly one
    item: an exception entry, or an updated pair. *)
Lemma log_contributes b sk dk sn site msg n (st : state World) :
  can_log sn site n st ->
  exists st',
    _update_upgrade_log env b sk dk sn site msg st = (Ok tt, st')
    /\ can_log sn site n st'
    /\ contributions (upgrade_log st') (owner_key sn) n
       = S (contributions (upgrade_log st) (owner_key sn) n)
    /\ local_run_name st' = local_run_name st
    /\ local_dest_key st' = local_dest_key st.
Proof.
  intros (Hone & Hn & [o Ho]).
  rewrite (update_upgrade_log_eq env b sk dk sn site msg st Hone). cbv zeta.
  rewrite (log_with_outcome_ok _ _ _ _ _ _ n o Hn Ho).
  eexists. split; [reflexivity|].
  unfold logged, can_log. cbn [upgrade_log local_run_name local_dest_key].
  assert (Hlk : forall d l, records (set_records (owner_key sn) d l) (owner_key sn) = d).
  { intros d l. rewrite records_set_records.
    destruct (decide (owner_key sn = owner_key sn)); congruence. }
  split; [|split; [|auto]].
  - split; [exact Hone|]. split; [exact Hn|]. rewrite Hlk, lookup_insert_eq. eauto.
  - unfold contributions.
    rewrite exceptions_set_records, exceptions_log_with_entry, Hlk, lookup_insert_eq, Ho.
    destruct (truthy_str msg); simpl; rewrite !length_app; simpl; lia.
Qed.

Lemma outside_only_transfer b k sn (dk : option key) rn :
  stable (@outside_only World)
    (if truthy_str sn
     then _update_validation_result_json env k dk rn b
     else perform (Move b k dk) (move env b k dk)).
Proof.
  destruct (truthy_str sn).
  - apply stable_update_validation_result_json; try exact _.
    apply outside_only_perform.
  - apply stable_perform. intros st w. apply outside_only_perform.
Qed.

(** A key with at least two segments never makes the loop body raise, and
    leaves one or two items in the log. *)
Lemma upgrade_key_contributes b k sn site n (st : state World) :
  can_log sn site n st ->
  2 <= length k ->
  exists st',
    upgrade_key env b sn site k st = (Ok tt, st')
    /\ can_log sn site n st'
    /\ S (contributions (upgrade_log st) (owner_key sn) n)
       <= contributions (upgrade_log st') (owner_key sn) n
       <= S (S (contributions (upgrade_log st) (owner_key sn) n)).
Proof.
  intros Hcan Hlen.
  destruct (tuple_getitem_neg2_long k Hlen) as (prefix & rn & tail & ->).
  pose proof (tuple_getitem_neg2 prefix rn tail) as Hrn.
  set (k := prefix ++ [rn; tail]) in *.
  (* the first try statement *)
  assert (H1 : exists s1 x,
    try_except (compute_dest_key env b k) (log_key_exception env b k sn site) st
    = (Ok tt, s1)
    /\ can_log sn site n s1
    /\ contributions (upgrade_log st) (owner_key sn) n
       <= contributions (upgrade_log s1) (owner_key sn) n
       <= S (contributions (upgrade_log st) (owner_key sn) n)
    /\ local_run_name s1 = Some rn /\ local_dest_key s1 = Some x).
  { unfold try_except.
    destruct (compute_dest_key env b k st) as [r0 s0] eqn:E0.
    apply (compute_dest_key_inv b k rn st r0 s0 Hrn) in E0
      as (Hl & _ & Hr & [[-> [d Hd]]|[[e ->] Hd]]).
    - exists s0, (Some d). unfold can_log in *. rewrite Hl.
      repeat split; try tauto; auto.
    - assert (Hcan0 : can_log sn site n s0) by (unfold can_log in *; rewrite Hl; exact Hcan).
      destruct (log_contributes b (Some k) None sn site
                  (Some (exception_message env e)) n s0 Hcan0)
        as (s1 & Hs1 & Hcan1 & Hc1 & Hr1 & Hd1).
      exists s1, None. unfold log_key_exception, bind, read_dest_key. rewrite Hd, Hs1.
      split; [reflexivity|]. split; [exact Hcan1|]. rewrite Hc1, Hl.
      split; [lia|]. split; congruence. }
  destruct H1 as (s1 & x & E1 & Hcan1 & Hc1 & Hr1 & Hd1).
  unfold upgrade_key. erewrite bind_ok by exact E1.
  (* the second try statement *)
  unfold try_except, transfer_key.
  destruct ((if truthy_str sn
             then dest_key <- read_dest_key;;
                  run_name <- read_run_name;;
                  _update_validation_result_json env k dest_key run_name b
             else dest_key <- read_dest_key;;
                  perform (Move b k dest_key) (move env b k dest_key)) s1)
    as [rp sp] eqn:EP.
  assert (Hsp : outside_only s1 sp).
  { pose proof (outside_only_transfer b k sn x rn s1 rp sp) as Ho. apply Ho.
    rewrite <- EP.
    destruct (truthy_str sn); unfold bind, read_dest_key, read_run_name;
      rewrite ?Hd1, ?Hr1; reflexivity. }
  destruct Hsp as (P1 & P2 & P3 & P4 & P5).
  assert (Hcanp : can_log sn site n sp)
    by (unfold can_log in *; rewrite P1; exact Hcan1).
  destruct rp as [[]|e].
  - destruct (log_contributes b (Some k) x sn site None n sp Hcanp)
      as (s2 & Hs2 & Hcan2 & Hc2 & _ & _).
    erewrite bind_ok by exact EP.
    unfold bind at 1. unfold read_dest_key at 1. rewrite P5, Hd1, Hs2.
    exists s2. split; [reflexivity|]. split; [exact Hcan2|]. rewrite Hc2, P1. lia.
  - destruct (log_contributes b (Some k) x sn site
                (Some (exception_message env e)) n sp Hcanp)
      as (s2 & Hs2 & Hcan2 & Hc2 & _ & _).
    erewrite bind_raise by exact EP.
    unfold log_key_exception, bind, read_dest_key. rewrite P5, Hd1, Hs2.
    exists s2. split; [reflexivity|]. split; [exact Hcan2|]. rewrite Hc2, P1. lia.
Qed.

Lemma for_each_contributes b sn site n keys :
  forall st : state World,
    can_log sn site n st ->
    Forall (fun k : key => 2 <= length k) keys ->
    exists st',
      for_each keys (upgrade_key env b sn site) st = (Ok tt, st')
      /\ can_log sn site n st'
      /\ contributions (upgrade_log st) (owner_key sn) n + length keys
         <= contributions (upgrade_log st') (owner_key sn) n
         <= contributions (upgrade_log st) (owner_key sn) n + 2 * length keys.
Proof.
  induction keys as [|k keys IH]; intros st Hcan Hall.
  - exists st. simpl. split; [reflexivity|]. split; [exact Hcan|lia].
  - apply Forall_cons in Hall as [Hk Hall].
    destruct (upgrade_key_contributes b k sn site n st Hcan Hk) as (s1 & E1 & Hcan1 & Hc1).
    destruct (IH s1 Hcan1 Hall) as (s2 & E2 & Hcan2 & Hc2).
    exists s2. simpl for_each. erewrite bind_ok by exact E1.
    split; [exact E2|]. split; [exact Hcan2|]. simpl length. lia.
Qed.

(** X9.  When the listing returns and every listed key has at least two
    segments, [upgrade_store_backend] called for a store or site that has
    its outcome record returns normally whatever the backend, the parser and
    the JSON codec do afterwards, and every listed key has left at least one
    and at most two items in the log (exception entries or updated pairs of
    that store or site). *)
Theorem listed_keys_are_all_attempted b sn site n keys w (st : state World) :
  can_log sn site n st ->
  list_keys env b (world st) = (Ok keys, w) ->
  Forall (fun k : key => 2 <= length k) keys ->
  exists st',
    upgrade_store_backend env b sn site st = (Ok tt, st')
    /\ can_log sn site n st'
    /\ contributions (upgrade_log st) (owner_key sn) n + length keys
       <= contributions (upgrade_log st') (owner_key sn) n
       <= contributions (upgrade_log st) (owner_key sn) n + 2 * length keys.
Proof.
  intros Hcan Hlist Hall. unfold upgrade_store_backend.
  erewrite bind_ok by (apply assert_ok; apply Hcan).
  erewrite bind_ok by reflexivity.
  erewrite bind_ok by reflexivity.
  erewrite bind_ok.
  2:{ unfold try_except, bind, perform. simpl. rewrite Hlist. reflexivity. }
  cbv beta iota.
  match goal with
  | |- context [for_each keys _ ?s] =>
      assert (Hcan0 : can_log sn site n s) by exact Hcan;
      destruct (for_each_contributes b sn site n keys s Hcan0 Hall)
        as (st' & E & Hcan' & Hc)
  end.
  exists st'. split; [exact E|]. split; [exact Hcan'|exact Hc].
Qed.

End Isolation.

Lemma listed_keys_are_all_attempted_witness :
  exists st',
    upgrade_store_backend Scenario.env Inputs.healthy_backend (Some "validations") None
      Started.timed_store_session = (Ok tt, st')
    /\ can_log (Some "validations") None "validations" st'
    /\ contributions (upgrade_log Started.timed_store_session)
         (owner_key (Some "validations")) "validations"
       + length [Inputs.labelled_key; Inputs.dated_key]
       <= contributions (upgrade_log st') (owner_key (Some "validations")) "validations"
       <= contributions (upgrade_log Started.timed_store_session)
            (owner_key (Some "validations")) "validations"
          + 2 * length [Inputs.labelled_key; Inputs.dated_key].
Proof.
  apply (listed_keys_are_all_attempted Scenario.env Inputs.healthy_backend
           (Some "validations") None "validations"
           [Inputs.labelled_key; Inputs.dated_key] Inputs.timed_disk
           Started.timed_store_session).
  - split; [vm_compute; reflexivity|]. split; [reflexivity|].
    eexists. vm_compute. reflexivity.
  - vm_compute. reflexivity.
  - repeat constructor.
Defined.

(** ** Where the loop does raise *)

Section Edges.

Context {World : Type} (env : Env World).

(** X10.  When [list_keys] raises, [upgrade_store_backend] called for a
    store or site that has its record appends one exception entry with both
    locations ["N/A"] and the message of the listing error, sets the flag of
    that store or site, makes no call besides the listing, and then raises
    [UnboundLocalError] for [validation_source_keys]: the method does not
    return normally. *)
Theorem listing_failure_is_logged_then_raised b sn site n e w (st : state World) :
  can_log sn site n st ->
  list_keys env b (world st) = (Raise e, w) ->
  exists st' o,
    upgrade_store_backend env b sn site st
    = (Raise (UnboundLocalError "validation_source_keys"), st')
    /\ records (upgrade_log st) (owner_key sn) !! n = Some o
    /\ exceptions (upgrade_log st')
       = exceptions (upgrade_log st)
           ++ [entry_for sn site "N/A" "N/A" (Some (exception_message env e))]
    /\ records (upgrade_log st') (owner_key sn) !! n
       = Some (Outcome (outcome_updated o) true)
    /\ trace st' = trace st ++ [ListKeys b]
    /\ world st' = w
    /\ validation_run_times st' = validation_run_times st.
Proof.
  intros (Hone & Hn & [o Ho]) Hlist. unfold upgrade_store_backend.
  erewrite bind_ok by (apply assert_ok; exact Hone).
  erewrite bind_ok by reflexivity.
  erewrite bind_ok by reflexivity.
  erewrite bind_ok.
  2:{ unfold try_except, bind at 1, perform. simpl. rewrite Hlist.
      erewrite bind_ok; [reflexivity|].
      rewrite (update_upgrade_log_eq env b None None sn site _ _ Hone). cbv zeta.
      simpl. erewrite (log_with_outcome_ok _ _ _ _ _ _ n o Hn Ho). reflexivity. }
  cbv beta iota. unfold raise. eexists _, o. split; [reflexivity|].
  unfold logged. cbn [upgrade_log trace world validation_run_times].
  split; [exact Ho|].
  rewrite exceptions_set_records, exceptions_log_with_entry, exception_message_truthy.
  split; [reflexivity|]. rewrite records_set_records.
  destruct (decide (owner_key sn = owner_key sn)); [|congruence].
  rewrite lookup_insert_eq. simpl. rewrite app_nil_r. auto.
Qed.

(** X11.  When the first listed key has fewer than two segments,
    [source_key[-2]] raises before [dest_key] is bound, the handler of the
    first [try] statement fails on reading [dest_key], and
    [upgrade_store_backend] raises [UnboundLocalError]: nothing is logged,
    nothing but the listing is called, and no later key is looked at. *)
Theorem short_first_key_stops_the_backend b sn site k keys w (st : state World) :
  one_name sn site = true ->
  list_keys env b (world st) = (Ok (k :: keys), w) ->
  length k < 2 ->
  upgrade_store_backend env b sn site st
  = (Raise (UnboundLocalError "dest_key"),
     State (upgrade_log st) (upgrade_checklist st) (validation_run_times st)
       w (trace st ++ [ListKeys b]) None None).
Proof.
  intros Hone Hlist Hlen. unfold upgrade_store_backend.
  erewrite bind_ok by (apply assert_ok; exact Hone).
  erewrite bind_ok by reflexivity.
  erewrite bind_ok by reflexivity.
  erewrite bind_ok.
  2:{ unfold try_except, bind, perform. simpl. rewrite Hlist. reflexivity. }
  cbv beta iota. simpl for_each.
  erewrite bind_raise; [reflexivity|].
  unfold upgrade_key. erewrite bind_raise; [reflexivity|].
  unfold try_except, compute_dest_key, bind, lift.
  rewrite (tuple_getitem_neg2_short k Hlen).
  unfold log_key_exception, bind, read_dest_key. reflexivity.
Qed.



End Edges.

Lemma listing_failure_is_logged_then_raised_witness :
  exists st' o,
    upgrade_store_backend Scenario.env Inputs.unreadable_backend (Some "broken") None
      Stray.broken_session
    = (Raise (UnboundLocalError "validation_source_keys"), st')
    /\ records (upgrade_log Stray.broken_session) (owner_key (Some "broken")) !! "broken"
       = Some o
    /\ exceptions (upgrade_log st')
       = exceptions (upgrade_log Stray.broken_session)
           ++ [entry_for (Some "broken") None "N/A" "N/A"
                 (Some (exception_message Scenario.env
                          (Exn "PermissionError" "Permission denied")))]
    /\ records (upgrade_log st') (owner_key (Some "broken")) !! "broken"
       = Some (Outcome (outcome_updated o) true)
    /\ trace st' = trace Stray.broken_session ++ [ListKeys Inputs.unreadable_backend]
    /\ world st' = Inputs.two_stores_disk
    /\ validation_run_times st' = validation_run_times Stray.broken_session.
Proof.
  apply (listing_failure_is_logged_then_raised Scenario.env Inputs.unreadable_backend
           (Some "broken") None "broken" (Exn "PermissionError" "Permission denied")
           Inputs.two_stores_disk Stray.broken_session).
  - split; [vm_compute; reflexivity|]. split; [reflexivity|].
    eexists. vm_compute. reflexivity.
  - vm_compute. reflexivity.
Defined.

Lemma short_first_key_stops_the_backend_witness :
  upgrade_store_backend Scenario.env Inputs.site_backend None (Some "local_site")
    Stray.stray_session
  = (Raise (UnboundLocalError "dest_key"),
     State (upgrade_log Stray.stray_session) (upgrade_checklist Stray.stray_session)
       (validation_run_times Stray.stray_session) Stray.stray_disk
       (trace Stray.stray_session ++ [ListKeys Inputs.site_backend]) None None).
Proof.
  apply (short_first_key_stops_the_backend Scenario.env Inputs.site_backend
           None (Some "local_site") Stray.stray_key [Inputs.labelled_key]
           Stray.stray_disk Stray.stray_session).
  - vm_compute. reflexivity.
  - vm_compute. reflexivity.
  - simpl. lia.
Defined.


(** ** What a session leaves of the plan *)

Section Plan.

Context {World : Type} (env : Env World).

#[local] Instance plan_kept_refl : Reflexive (@plan_kept World).
Proof. intros st. unfold plan_kept. auto. Qed.

#[local] Instance plan_kept_trans : Transitive (@plan_kept World).
Proof.
  intros s1 s2 s3 (A1 & A2 & A3) (B1 & B2 & B3). unfold plan_kept.
  split; [congruence|]. split; [congruence|]. etransitivity; eassumption.
Qed.

Lemma plan_kept_same_log (st st' : state World) :
  upgrade_log st' = upgrade_log st ->
  upgrade_checklist st' = upgrade_checklist st ->
  plan_kept st st'.
Proof. intros Hl Hc. unfold plan_kept. rewrite Hl. auto. Qed.

Lemma plan_kept_set_records kn d (st : state World) :
  plan_kept st (with_upgrade_log (set_records kn d) st).
Proof. unfold plan_kept. destruct kn; simpl; auto. Qed.

Lemma skip_lists_log_with_entry sn site src dest msg l :
  skip_lists (log_with_entry sn site src dest msg l) = skip_lists l
  /\ exceptions l `prefix_of` exceptions (log_with_entry sn site src dest msg l).
Proof.
  unfold log_with_entry. destruct (truthy_str msg); simpl.
  - split; [reflexivity|]. apply prefix_app_r. reflexivity.
  - auto.
Qed.

Lemma plan_kept_update_upgrade_log b sk dk sn site msg :
  stable (@plan_kept World) (_update_upgrade_log env b sk dk sn site msg).
Proof.
  intros st r st' H.
  apply update_upgrade_log_inv in H as (Hc & _ & _ & _ & H).
  destruct (one_name sn site).
  - destruct H as (_ & src & dest & _ & _ & H).
    destruct (skip_lists_log_with_entry sn site src dest msg (upgrade_log st)) as [S P].
    unfold log_with_outcome in H. unfold plan_kept.
    destruct (truthy_str sn); destruct (record_outcome _ _ _ _);
      destruct H as [_ ->]; auto.
  - destruct H as [_ ->]. reflexivity.
Qed.

Lemma plan_kept_upgrade_store_backend b sn site :
  stable (@plan_kept World) (upgrade_store_backend env b sn site).
Proof.
  apply stable_upgrade_store_backend; try exact _.
  - intros st w c. apply plan_kept_same_log; reflexivity.
  - intros v st. apply plan_kept_same_log; reflexivity.
  - intros v st. apply plan_kept_same_log; reflexivity.
  - intros b' k. apply stable_compute_dest_key; try exact _.
    + intros st w c. apply plan_kept_same_log; reflexivity.
    + intros v st. apply plan_kept_same_log; reflexivity.
    + intros v st. apply plan_kept_same_log; reflexivity.
    + intros rn iso st _. apply plan_kept_same_log; reflexivity.
  - intros b' sk dk msg. apply plan_kept_update_upgrade_log.
Qed.

Lemma plan_kept_upgrade_project : stable (@plan_kept World) (upgrade_project env).
Proof.
  unfold upgrade_project, try_except_pass, upgrade_validations_stores,
    upgrade_docs_sites, upgrade_validations_store, upgrade_docs_site.
  repeat first [ apply plan_kept_upgrade_store_backend | stable_step ].
  - apply (plan_kept_set_records validation_store_name).
  - apply (plan_kept_set_records site_name_key).
Qed.

Lemma plan_kept_upgrade_validations_stores :
  stable (@plan_kept World) (upgrade_validations_stores env).
Proof.
  unfold upgrade_validations_stores, upgrade_validations_store.
  repeat first [ apply plan_kept_upgrade_store_backend | stable_step ].
  apply (plan_kept_set_records validation_store_name).
Qed.

Lemma plan_kept_prompt (st st' : state World) :
  plan_kept st st' -> get_upgrade_prompt st' = get_upgrade_prompt st.
Proof.
  intros (Hc & Hs & _). unfold skip_lists in Hs. inversion Hs as [[H1 H2 H3 H4 H5]].
  unfold get_upgrade_prompt, _get_skipped_store_and_site_names.
  rewrite Hc, H1, H2, H3, H4, H5. reflexivity.
Qed.

(** X13.  Whatever the backends do, [upgrade_project] leaves the checklist
    and the five skip lists as [__init__] made them, keeps every exception
    entry already in the log in place (new ones are only appended), and so
    [get_upgrade_prompt] returns after the session the text it returned
    before it. *)
Theorem session_keeps_the_plan (st : state World) :
  let st' := (upgrade_project env st).2 in
  plan_kept st st' /\ get_upgrade_prompt st' = get_upgrade_prompt st.
Proof.
  intros st'. assert (H : plan_kept st st').
  { eapply plan_kept_upgrade_project. unfold st'. apply surjective_pairing. }
  split; [exact H|]. apply plan_kept_prompt. exact H.
Qed.

End Plan.

(** ** The calls a migration makes *)

Section Calls.

Context {World : Type} (env : Env World).

Section Within.

Context (P : call -> bool).

#[local] Instance calls_within_refl : Reflexive (@calls_within World P).
Proof. intros st. exists []. rewrite app_nil_r. auto. Qed.

#[local] Instance calls_within_trans : Transitive (@calls_within World P).
Proof.
  intros s1 s2 s3 (m1 & T1 & F1) (m2 & T2 & F2). exists (m1 ++ m2).
  rewrite T2, T1, app_assoc. split; [reflexivity|]. apply Forall_app. auto.
Qed.

Lemma cw_same_trace (st st' : state World) :
  trace st' = trace st -> calls_within P st st'.
Proof. intros H. exists []. rewrite app_nil_r. auto. Qed.

Lemma cw_perform (st : state World) w c :
  P c = true ->
  calls_within P st
    (State (upgrade_log st) (upgrade_checklist st) (validation_run_times st)
       w (trace st ++ [c]) (local_run_name st) (local_dest_key st)).
Proof. intros H. exists [c]. split; [reflexivity|]. repeat constructor. exact H. Qed.

Lemma cw_url_calls b k :
  (forall k', P (GetUrlForKey b k') = true) ->
  Forall (fun c => P c = true) (url_calls b k).
Proof.
  intros H. unfold url_calls. destruct k as [k'|]; [|constructor].
  destruct (truthy_key _); repeat constructor. apply H.
Qed.

Lemma cw_update_upgrade_log b sk dk sn site msg :
  (forall k', P (GetUrlForKey b k') = true) ->
  stable (calls_within P) (_update_upgrade_log env b sk dk sn site msg).
Proof.
  intros HP st r st' H.
  apply update_upgrade_log_inv in H as (_ & _ & _ & _ & H).
  destruct (one_name sn site).
  - destruct H as [T _]. exists (url_calls b sk ++ url_calls b dk).
    split; [exact T|]. apply Forall_app. split; apply cw_url_calls; exact HP.
  - destruct H as [_ ->]. reflexivity.
Qed.

End Within.

Lemma cw_weaken (P Q : call -> bool) (st st' : state World) :
  (forall c, P c = true -> Q c = true) ->
  calls_within P st st' -> calls_within Q st st'.
Proof.
  intros HPQ (made & T & F). exists made. split; [exact T|].
  eapply Forall_impl; [exact F|]. exact HPQ.
Qed.

Ltac solve_permitted Hsn Hb :=
  unfold permitted;
  cbn [call_backend provenance_class moves_key rewrites_content];
  rewrite ?Hsn;
  repeat (apply andb_true_intro; split); try reflexivity;
  apply bool_decide_eq_true_2; rewrite ?Hb; auto.

Ltac cw_step Hsn Hb :=
  first
    [ apply cw_update_upgrade_log; intros ?; solve_permitted Hsn Hb
    | apply stable_perform; intros ? ?; apply cw_perform; solve_permitted Hsn Hb
    | apply stable_modify; intros ?; apply cw_same_trace; reflexivity
    | stable_step ].

Lemma permitted_upgrade_store_backend b sn site :
  stable (@calls_within World (permitted b sn)) (upgrade_store_backend env b sn site).
Proof.
  pose proof (calls_within_refl (permitted b sn)).
  pose proof (calls_within_trans (permitted b sn)).
  destruct (truthy_str sn) eqn:Hsn; destruct (backend_type b) eqn:Hb;
    unfold upgrade_store_backend, upgrade_key, compute_dest_key, log_key_exception,
      transfer_key, _update_validation_result_json;
    rewrite ?Hsn, ?Hb;
    cbn [run_time_setters_by_backend_type];
    unfold _get_tuple_filesystem_store_backend_run_time,
      _get_tuple_s3_store_backend_run_time, _get_tuple_gcs_store_backend_run_time,
      parse_or_provenance;
    repeat cw_step Hsn Hb.
Qed.

(** X14.  Whatever the backends answer, every call [upgrade_store_backend]
    makes is addressed to the backend it was given or to no backend at all
    (the date parser, the boto3 client); the provenance calls are those of
    the class of that backend; for a store it never calls [move], and for a
    site it never calls [get], [set] or [remove_key]. *)
Theorem store_backend_calls_are_permitted b sn site (st : state World) :
  calls_within (permitted b sn) st (upgrade_store_backend env b sn site st).2.
Proof.
  eapply permitted_upgrade_store_backend. apply surjective_pairing.
Qed.

Lemma on_checklist_store C (item : string * backend) c :
  item ∈ validations_store_backends C ->
  permitted item.2 (Some item.1) c = true -> on_checklist C c = true.
Proof.
  intros Hin Hc. unfold on_checklist. apply orb_true_iff. left.
  apply existsb_exists. exists item. split; [|exact Hc].
  apply list_elem_of_In. exact Hin.
Qed.

Lemma on_checklist_site C (item : string * backend) c :
  item ∈ docs_validations_store_backends C ->
  permitted item.2 None c = true -> on_checklist C c = true.
Proof.
  intros Hin Hc. unfold on_checklist. apply orb_true_iff. right.
  apply existsb_exists. exists item. split; [|exact Hc].
  apply list_elem_of_In. exact Hin.
Qed.

Lemma on_checklist_pass_stores C items :
  (forall item, item ∈ items -> item ∈ validations_store_backends C) ->
  stable (@calls_within World (on_checklist C))
    (for_each items (upgrade_validations_store env)).
Proof.
  pose proof (calls_within_refl (on_checklist C)).
  pose proof (calls_within_trans (on_checklist C)).
  induction items as [|item items IH]; intros Hin; simpl.
  - apply stable_ret; exact _.
  - apply stable_bind; try exact _.
    + unfold upgrade_validations_store. apply stable_bind; try exact _.
      * apply stable_modify. intros st. apply cw_same_trace. reflexivity.
      * intros _ st r st' E.
        eapply cw_weaken; [|eapply permitted_upgrade_store_backend; exact E].
        intros c. apply on_checklist_store. apply Hin. left.
    + intros _. apply IH. intros i Hi. apply Hin. right. exact Hi.
Qed.

Lemma on_checklist_pass_sites C items :
  (forall item, item ∈ items -> item ∈ docs_validations_store_backends C) ->
  stable (@calls_within World (on_checklist C))
    (for_each items (upgrade_docs_site env)).
Proof.
  pose proof (calls_within_refl (on_checklist C)).
  pose proof (calls_within_trans (on_checklist C)).
  induction items as [|item items IH]; intros Hin; simpl.
  - apply stable_ret; exact _.
  - apply stable_bind; try exact _.
    + unfold upgrade_docs_site. apply stable_bind; try exact _.
      * apply stable_modify. intros st. apply cw_same_trace. reflexivity.
      * intros _ st r st' E.
        eapply cw_weaken; [|eapply permitted_upgrade_store_backend; exact E].
        intros c. apply on_checklist_site. apply Hin. left.
    + intros _. apply IH. intros i Hi. apply Hin. right. exact Hi.
Qed.

(** X15.  Whatever the backends answer, every call of a session
    ([upgrade_project]) is one permitted for a store or a site of the
    checklist the session started with: the backends of skipped stores and
    sites are never called, the content of a site is only moved, and the
    content of a store is only read, rewritten and removed. *)
Theorem session_calls_only_checklist_backends (st : state World) :
  calls_within (on_checklist (upgrade_checklist st)) st (upgrade_project env st).2.
Proof.
  unfold upgrade_project, bind. rewrite !try_except_pass_run. simpl.
  set (s1 := (upgrade_validations_stores env st).2).
  assert (H1 : calls_within (on_checklist (upgrade_checklist st)) st s1).
  { eapply (on_checklist_pass_stores (upgrade_checklist st)
              (validations_store_backends (upgrade_checklist st))); [auto|].
    unfold s1, upgrade_validations_stores, bind, gets. apply surjective_pairing. }
  assert (Hc : upgrade_checklist s1 = upgrade_checklist st).
  { eapply (plan_kept_upgrade_validations_stores env). apply surjective_pairing. }
  apply (calls_within_trans _ st s1); [exact H1|].
  eapply (on_checklist_pass_sites (upgrade_checklist st)
            (docs_validations_store_backends (upgrade_checklist s1))).
  - rewrite Hc. auto.
  - unfold upgrade_docs_sites, bind, gets. apply surjective_pairing.
Qed.

End Calls.

(** ** The two paths of one key *)

Section Paths.

Context {World : Type} (env : Env World).

(** X16.  A validation result whose run name is already in the run-time
    cache, on a backend that reads, writes and removes without error and with
    content that parses and has a [meta] object, is rewritten under the key
    with the cached time inserted before the last segment, removed under its
    old key, and logged exactly once: the pair of URLs is appended to the
    updated list of the store, no exception entry is added, its flag keeps
    its value, and the cache is unchanged. *)
Theorem cached_result_is_rewritten_and_logged_once
    b sn n o k rn T content j j' w1 w2 w3 (st : state World) :
  one_name sn None = true ->
  owner_name sn None = Some n ->
  records (upgrade_log st) (owner_key sn) !! n = Some o ->
  tuple_getitem k (-2) = Ok rn ->
  validation_run_times st !! rn = Some T ->
  get env b k (world st) = (Ok content, w1) ->
  json_loads env content = Ok j ->
  set_meta_run_id j (new_run_id_dict rn T) = Ok j' ->
  set env b (Some (list_insert_at (-1) T k)) (json_dumps env j') w1 = (Ok tt, w2) ->
  remove_key env b k w2 = (Ok tt, w3) ->
  let dest := list_insert_at (-1) T k in
  let src_url := (url_result env b (Some k) w3).1 in
  let dest_url := (url_result env b (Some dest) (url_result env b (Some k) w3).2).1 in
  exists st',
    upgrade_key env b sn None k st = (Ok tt, st')
    /\ trace st'
       = trace st ++ [Get b k; SetKey b (Some dest) (json_dumps env j'); RemoveKey b k]
           ++ url_calls b (Some k) ++ url_calls b (Some dest)
    /\ exceptions (upgrade_log st') = exceptions (upgrade_log st)
    /\ records (upgrade_log st') (owner_key sn) !! n
       = Some (Outcome (outcome_updated o ++ [Updated src_url dest_url])
                 (outcome_exceptions o))
    /\ validation_run_times st' = validation_run_times st.
Proof.
  intros Hone Hn Ho Hrn HT Hget Hloads Hmeta Hset Hrem dest src_url dest_url.
  assert (Hsn : truthy_str sn = true).
  { unfold one_name in Hone. destruct (truthy_str sn); [reflexivity|discriminate]. }
  unfold upgrade_key.
  erewrite bind_ok
    by (unfold try_except; rewrite (compute_dest_key_cached env b k rn T st Hrn HT);
        reflexivity).
  unfold try_except, transfer_key. rewrite Hsn.
  erewrite bind_ok.
  2:{ unfold bind, read_dest_key, read_run_name. cbn [local_dest_key local_run_name].
      unfold _update_validation_result_json, bind, run_time_getitem, perform, lift.
      cbn [validation_run_times]. rewrite HT. cbn [world]. rewrite Hget.
      rewrite Hloads, Hmeta. cbn [world]. rewrite Hset. cbn [world]. rewrite Hrem.
      reflexivity. }
  erewrite bind_ok by reflexivity.
  rewrite (update_upgrade_log_eq env b _ _ sn None None _ Hone). cbv zeta.
  cbn [upgrade_log world].
  rewrite (log_with_outcome_ok _ _ _ _ _ _ n o Hn Ho).
  eexists. split; [reflexivity|].
  unfold logged. cbn [trace upgrade_log validation_run_times].
  split; [rewrite <- !app_assoc; reflexivity|].
  rewrite exceptions_set_records, exceptions_log_with_entry, records_set_records.
  destruct (decide (owner_key sn = owner_key sn)); [|congruence].
  rewrite lookup_insert_eq. simpl. rewrite app_nil_r. auto.
Qed.

End Paths.

Lemma cached_result_is_rewritten_and_logged_once_witness :
  let dest := list_insert_at (-1) "2021-06-15T10:00:00+00:00" Inputs.labelled_key in
  let src_url :=
    (url_result Scenario.env Inputs.healthy_backend (Some Inputs.labelled_key)
       Resolved.removed).1 in
  let dest_url :=
    (url_result Scenario.env Inputs.healthy_backend (Some dest)
       (url_result Scenario.env Inputs.healthy_backend (Some Inputs.labelled_key)
          Resolved.removed).2).1 in
  exists st',
    upgrade_key Scenario.env Inputs.healthy_backend (Some "validations") None
      Inputs.labelled_key Resolved.session = (Ok tt, st')
    /\ trace st'
       = trace Resolved.session
           ++ [Get Inputs.healthy_backend Inputs.labelled_key;
               SetKey Inputs.healthy_backend (Some dest)
                 (json_dumps Scenario.env Resolved.migrated_json);
               RemoveKey Inputs.healthy_backend Inputs.labelled_key]
           ++ url_calls Inputs.healthy_backend (Some Inputs.labelled_key)
           ++ url_calls Inputs.healthy_backend (Some dest)
    /\ exceptions (upgrade_log st') = exceptions (upgrade_log Resolved.session)
    /\ records (upgrade_log st') (owner_key (Some "validations")) !! "validations"
       = Some (Outcome (outcome_updated empty_outcome ++ [Updated src_url dest_url])
                 (outcome_exceptions empty_outcome))
    /\ validation_run_times st' = validation_run_times Resolved.session.
Proof.
  apply (cached_result_is_rewritten_and_logged_once Scenario.env
           Inputs.healthy_backend (Some "validations") "validations" empty_outcome
           Inputs.labelled_key "my_run" "2021-06-15T10:00:00+00:00"
           Scenario.result_text Scenario.result_json Resolved.migrated_json
           Inputs.timed_disk Resolved.written Resolved.removed Resolved.session).
  - vm_compute. reflexivity.
  - reflexivity.
  - vm_compute. reflexivity.
  - vm_compute. reflexivity.
  - vm_compute. reflexivity.
  - vm_compute. reflexivity.
  - vm_compute. reflexivity.
  - vm_compute. reflexivity.
  - vm_compute. reflexivity.
  - vm_compute. reflexivity.
Defined.

(** ** Keys whose run time cannot be resolved *)

Section Unresolved.

Context {World : Type} (env : Env World).

(** A setter that raises has not written to the cache. *)
Lemma parse_or_provenance_raise rn c (f : World -> result string * World)
    (st : state World) e st' :
  parse_or_provenance env rn (perform c f) st = (Raise e, st') ->
  validation_run_times st' = validation_run_times st.
Proof.
  unfold parse_or_provenance, try_except_ParserError, bind, perform, modify.
  destruct (parse_isoformat env rn (world st)) as [[iso|e1] w]; simpl.
  - intros H; inversion H.
  - destruct (is_ParserError e1); simpl.
    + destruct (f w) as [[iso|e2] w']; simpl; intros H; inversion H; reflexivity.
    + intros H; inversion H; reflexivity.
Qed.

Lemma setter_raise_keeps_cache b k setter (st : state World) e st' :
  run_time_setters_by_backend_type env (backend_type b) = Some setter ->
  setter k b st = (Raise e, st') ->
  validation_run_times st' = validation_run_times st.
Proof.
  intros Hs. destruct (backend_type b); simpl in Hs; inversion Hs; subst; clear Hs.
  - unfold _get_tuple_filesystem_store_backend_run_time, bind at 1, lift.
    destruct (tuple_getitem k (-2)) as [rn|e0].
    + apply parse_or_provenance_raise.
    + intros H; inversion H; reflexivity.
  - unfold _get_tuple_s3_store_backend_run_time, bind at 1, perform at 1.
    destruct (boto3_resource env (world st)) as [[[]|e0] w0].
    + unfold bind at 1, lift. destruct (tuple_getitem k (-2)) as [rn|e1].
      * intros H. apply parse_or_provenance_raise in H. exact H.
      * intros H; inversion H; reflexivity.
    + intros H; inversion H; reflexivity.
  - unfold _get_tuple_gcs_store_backend_run_time, bind at 1, perform at 1.
    destruct (gcs_get_bucket env b (world st)) as [[[]|e0] w0].
    + unfold bind at 1, lift. destruct (tuple_getitem k (-2)) as [rn|e1].
      * intros H. apply parse_or_provenance_raise in H. exact H.
      * intros H; inversion H; reflexivity.
    + intros H; inversion H; reflexivity.
Qed.

(** When the first [try] block raises for a key with a run name, the run
    name is bound, [dest_key] is [None], the log is as it was and the run
    name is not in the cache. *)
Lemma compute_dest_key_raise b k rn (st : state World) e s1 :
  tuple_getitem k (-2) = Ok rn ->
  compute_dest_key env b k st = (Raise e, s1) ->
  upgrade_log s1 = upgrade_log st
  /\ local_run_name s1 = Some rn
  /\ local_dest_key s1 = Some None
  /\ validation_run_times s1 !! rn = None.
Proof.
  intros Hrn H.
  destruct (compute_dest_key_inv env b k rn st _ _ Hrn H) as (L & _ & N & D).
  split; [exact L|]. split; [exact N|].
  split; [destruct D as [[D _]|[_ D]]; [discriminate|exact D]|].
  destruct (validation_run_times st !! rn) as [T|] eqn:HT.
  { rewrite (compute_dest_key_cached env b k rn T st Hrn HT) in H. discriminate. }
  unfold compute_dest_key in H.
  erewrite bind_ok in H by (unfold lift; rewrite Hrn; reflexivity).
  erewrite bind_ok in H by reflexivity.
  erewrite bind_ok in H by reflexivity.
  erewrite bind_ok in H by reflexivity.
  cbn [set_local_dest_key set_local_run_name validation_run_times] in H. rewrite HT in H.
  apply bind_inv in H as [([] & s2 & H1 & H)|(e' & H1 & E)].
  - apply bind_inv in H as [(T & s3 & H2 & H)|(e' & H2 & E)].
    + inversion H.
    + unfold run_time_getitem in H2.
      destruct (validation_run_times s2 !! rn) eqn:E2; inversion H2; subst. exact E2.
  - destruct (run_time_setters_by_backend_type env (backend_type b)) as [setter|] eqn:Es.
    + apply (setter_raise_keeps_cache b k setter _ _ _ Es) in H1.
      rewrite H1. exact HT.
    + inversion H1; subst. exact HT.
Qed.

Lemma read_dest_key_ok (st : state World) v :
  local_dest_key st = Some v -> read_dest_key st = (Ok v, st).
Proof. intros H. unfold read_dest_key. rewrite H. reflexivity. Qed.

Lemma read_run_name_ok (st : state World) v :
  local_run_name st = Some v -> read_run_name st = (Ok v, st).
Proof. intros H. unfold read_run_name. rewrite H. reflexivity. Qed.

Lemma run_time_getitem_missing (st : state World) rn :
  validation_run_times st !! rn = None ->
  run_time_getitem rn st = (Raise (KeyError rn), st).
Proof. intros H. unfold run_time_getitem. rewrite H. reflexivity. Qed.

Lemma records_logged_exception sn site src dest e n o l :
  records l (owner_key sn) !! n = Some o ->
  records
    (set_records (owner_key sn)
       (<[n := if truthy_str (Some (exception_message env e))
               then Outcome (outcome_updated o) true
               else Outcome (outcome_updated o ++ [Updated src dest])
                      (outcome_exceptions o)]> (records l (owner_key sn)))
       (log_with_entry sn site src dest (Some (exception_message env e)) l))
    (owner_key sn) !! n
  = Some (Outcome (outcome_updated o) true).
Proof.
  intros Ho. rewrite records_set_records.
  destruct (decide (owner_key sn = owner_key sn)); [|congruence].
  rewrite lookup_insert_eq, exception_message_truthy. reflexivity.
Qed.

(** X17.  In the loop over a validations store, a key whose run name is
    read but whose run time cannot be resolved is still handed to the second
    [try] statement: the rewrite fails at once on the cache lookup, so the
    key gets two exception entries, the resolution error and then a
    [KeyError] for the run name, both with destination ["N/A"]; nothing is
    read, written or removed, the updated list is unchanged, the flag is set
    and the iteration returns. *)
Theorem unresolved_result_is_reported_twice b sn n o k rn e s1 (st : state World) :
  one_name sn None = true ->
  owner_name sn None = Some n ->
  records (upgrade_log st) (owner_key sn) !! n = Some o ->
  tuple_getitem k (-2) = Ok rn ->
  compute_dest_key env b k st = (Raise e, s1) ->
  let src := (url_result env b (Some k) (world s1)).1 in
  let w := (url_result env b (Some k) (world s1)).2 in
  let src' := (url_result env b (Some k) w).1 in
  exists st',
    upgrade_key env b sn None k st = (Ok tt, st')
    /\ exceptions (upgrade_log st')
       = exceptions (upgrade_log st)
           ++ [entry_for sn None src "N/A" (Some (exception_message env e));
               entry_for sn None src' "N/A"
                 (Some (exception_message env (KeyError rn)))]
    /\ records (upgrade_log st') (owner_key sn) !! n
       = Some (Outcome (outcome_updated o) true)
    /\ trace st' = trace s1 ++ url_calls b (Some k) ++ url_calls b (Some k)
    /\ validation_run_times st' = validation_run_times s1.
Proof.
  intros Hone Hn Ho Hrn H src w src'.
  assert (Hsn : truthy_str sn = true).
  { unfold one_name in Hone. destruct (truthy_str sn); [reflexivity|discriminate]. }
  destruct (compute_dest_key_raise b k rn st e s1 Hrn H) as (L & N & D & C).
  assert (Ho1 : records (upgrade_log s1) (owner_key sn) !! n = Some o)
    by (rewrite L; exact Ho).
  unfold upgrade_key.
  erewrite bind_ok.
  2:{ unfold try_except. rewrite H. unfold log_key_exception.
      erewrite bind_ok by (apply read_dest_key_ok; exact D).
      rewrite (update_upgrade_log_eq env b _ _ sn None _ _ Hone). cbv zeta.
      rewrite (log_with_outcome_ok _ _ _ _ _ _ n o Hn Ho1). reflexivity. }
  fold src w.
  match goal with |- context [logged b (Some k) None ?l ?w0 s1] =>
    set (s2 := logged b (Some k) None l w0 s1) end.
  assert (Ho2 : records (upgrade_log s2) (owner_key sn) !! n
                = Some (Outcome (outcome_updated o) true)).
  { unfold s2, logged. cbn [upgrade_log].
    apply (records_logged_exception sn None _ _ e n o _ Ho1). }
  assert (E : transfer_key env b k sn None s2 = (Raise (KeyError rn), s2)).
  { unfold transfer_key. rewrite Hsn. apply bind_raise.
    erewrite bind_ok by (apply read_dest_key_ok; exact D).
    erewrite bind_ok by (apply read_run_name_ok; exact N).
    unfold _update_validation_result_json. apply bind_raise.
    apply run_time_getitem_missing. exact C. }
  unfold try_except. rewrite E. unfold log_key_exception.
  erewrite bind_ok by (apply read_dest_key_ok; exact D).
  rewrite (update_upgrade_log_eq env b _ _ sn None _ _ Hone). cbv zeta.
  rewrite (log_with_outcome_ok _ _ _ _ _ _ n _ Hn Ho2).
  eexists. split; [reflexivity|].
  unfold logged at 1. cbn [upgrade_log trace validation_run_times].
  split; [|split; [|split]].
  - rewrite exceptions_set_records, exceptions_log_with_entry, exception_message_truthy.
    unfold s2, logged. cbn [upgrade_log world].
    rewrite exceptions_set_records, exceptions_log_with_entry, exception_message_truthy.
    rewrite L, <- app_assoc. reflexivity.
  - apply (records_logged_exception sn None _ _ (KeyError rn) n _ _ Ho2).
  - unfold s2, logged. cbn [trace]. simpl. rewrite !app_nil_r, <- app_assoc. reflexivity.
  - reflexivity.
Qed.

(** X18.  In the loop over a docs site, a key whose run name is read but
    whose run time cannot be resolved is still handed to the second [try]
    statement with [dest_key] equal to [None]: after the resolution error has
    been logged with destination ["N/A"], the backend is asked to
    [move(source_key, None)], the outcome of that call is logged as well, the
    flag of the site is set and the iteration returns. *)
Theorem unresolved_page_is_moved_to_None b site n o k rn e s1 (st : state World) :
  one_name None site = true ->
  owner_name None site = Some n ->
  records (upgrade_log st) (owner_key None) !! n = Some o ->
  tuple_getitem k (-2) = Ok rn ->
  compute_dest_key env b k st = (Raise e, s1) ->
  let src := (url_result env b (Some k) (world s1)).1 in
  exists st' o',
    upgrade_key env b None site k st = (Ok tt, st')
    /\ trace st'
       = trace s1 ++ url_calls b (Some k) ++ [Move b k None] ++ url_calls b (Some k)
    /\ exceptions (upgrade_log st)
         ++ [entry_for None site src "N/A" (Some (exception_message env e))]
       `prefix_of` exceptions (upgrade_log st')
    /\ records (upgrade_log st') (owner_key None) !! n = Some o'
    /\ outcome_exceptions o' = true.
Proof.
  intros Hone Hn Ho Hrn H src.
  destruct (compute_dest_key_raise b k rn st e s1 Hrn H) as (L & N & D & C).
  assert (Ho1 : records (upgrade_log s1) (owner_key None) !! n = Some o)
    by (rewrite L; exact Ho).
  unfold upgrade_key.
  erewrite bind_ok.
  2:{ unfold try_except. rewrite H. unfold log_key_exception.
      erewrite bind_ok by (apply read_dest_key_ok; exact D).
      rewrite (update_upgrade_log_eq env b _ _ None site _ _ Hone). cbv zeta.
      rewrite (log_with_outcome_ok _ _ _ _ _ _ n o Hn Ho1). reflexivity. }
  fold src.
  match goal with |- context [logged b (Some k) None ?l ?w0 s1] =>
    set (s2 := logged b (Some k) None l w0 s1) end.
  assert (Ho2 : records (upgrade_log s2) (owner_key None) !! n
                = Some (Outcome (outcome_updated o) true)).
  { unfold s2, logged. cbn [upgrade_log].
    apply (records_logged_exception None site _ _ e n o _ Ho1). }
  assert (Hx2 : exceptions (upgrade_log s2)
                = exceptions (upgrade_log st)
                    ++ [entry_for None site src "N/A" (Some (exception_message env e))]).
  { unfold s2, logged. cbn [upgrade_log].
    rewrite exceptions_set_records, exceptions_log_with_entry, exception_message_truthy, L.
    reflexivity. }
  assert (T2 : trace s2 = trace s1 ++ url_calls b (Some k)).
  { unfold s2, logged. cbn [trace]. simpl. rewrite app_nil_r. reflexivity. }
  unfold try_except, transfer_key. cbn [truthy_str].
  unfold bind at 1. unfold bind at 1.
  rewrite (read_dest_key_ok s2 None D). unfold perform.
  destruct (move env b k None (world s2)) as [[[]|e'] w'].
  - set (s3 := State _ _ _ w' _ _ _).
    erewrite bind_ok by (apply read_dest_key_ok; exact D).
    rewrite (update_upgrade_log_eq env b _ _ None site _ _ Hone). cbv zeta.
    rewrite (log_with_outcome_ok _ _ _ _ _ _ n _ Hn Ho2).
    eexists _, _. split; [reflexivity|].
    unfold logged. cbn [upgrade_log trace].
    split; [|split; [|split]].
    + unfold s3. cbn [trace]. rewrite T2. simpl. rewrite !app_nil_r, <- !app_assoc.
      reflexivity.
    + rewrite exceptions_set_records, exceptions_log_with_entry.
      unfold s3. cbn [upgrade_log truthy_str]. rewrite Hx2, app_nil_r. reflexivity.
    + rewrite records_set_records.
      destruct (decide (owner_key None = owner_key None)); [|congruence].
      rewrite lookup_insert_eq. reflexivity.
    + reflexivity.
  - set (s3 := State _ _ _ w' _ _ _). unfold log_key_exception.
    erewrite bind_ok by (apply read_dest_key_ok; exact D).
    rewrite (update_upgrade_log_eq env b _ _ None site _ _ Hone). cbv zeta.
    rewrite (log_with_outcome_ok _ _ _ _ _ _ n _ Hn Ho2).
    eexists _, _. split; [reflexivity|].
    unfold logged. cbn [upgrade_log trace].
    split; [|split; [|split]].
    + unfold s3. cbn [trace]. rewrite T2. simpl. rewrite !app_nil_r, <- !app_assoc.
      reflexivity.
    + rewrite exceptions_set_records, exceptions_log_with_entry, exception_message_truthy.
      unfold s3. cbn [upgrade_log]. rewrite Hx2. apply prefix_app_r. reflexivity.
    + apply (records_logged_exception None site _ _ e' n _ _ Ho2).
    + reflexivity.
Qed.

End Unresolved.

Lemma unresolved_result_is_reported_twice_witness :
  let src :=
    (url_result Scenario.env Inputs.healthy_backend (Some Inputs.labelled_key)
       (world Undated.store_state)).1 in
  let w :=
    (url_result Scenario.env Inputs.healthy_backend (Some Inputs.labelled_key)
       (world Undated.store_state)).2 in
  let src' :=
    (url_result Scenario.env Inputs.healthy_backend (Some Inputs.labelled_key) w).1 in
  exists st',
    upgrade_key Scenario.env Inputs.healthy_backend (Some "validations") None
      Inputs.labelled_key Started.store_session = (Ok tt, st')
    /\ exceptions (upgrade_log st')
       = exceptions (upgrade_log Started.store_session)
           ++ [entry_for (Some "validations") None src "N/A"
                 (Some (exception_message Scenario.env
                          (Scenario.FileNotFound Inputs.labelled_key)));
               entry_for (Some "validations") None src' "N/A"
                 (Some (exception_message Scenario.env (KeyError "my_run")))]
    /\ records (upgrade_log st') (owner_key (Some "validations")) !! "validations"
       = Some (Outcome (outcome_updated empty_outcome) true)
    /\ trace st'
       = trace Undated.store_state
           ++ url_calls Inputs.healthy_backend (Some Inputs.labelled_key)
           ++ url_calls Inputs.healthy_backend (Some Inputs.labelled_key)
    /\ validation_run_times st' = validation_run_times Undated.store_state.
Proof.
  apply (unresolved_result_is_reported_twice Scenario.env Inputs.healthy_backend
           (Some "validations") "validations" empty_outcome Inputs.labelled_key
           "my_run" (Scenario.FileNotFound Inputs.labelled_key) Undated.store_state
           Started.store_session).
  - vm_compute. reflexivity.
  - reflexivity.
  - vm_compute. reflexivity.
  - vm_compute. reflexivity.
  - vm_compute. reflexivity.
Defined.

Lemma unresolved_page_is_moved_to_None_witness :
  let src :=
    (url_result Scenario.env Inputs.site_backend (Some Inputs.labelled_key)
       (world Undated.site_state)).1 in
  exists st' o',
    upgrade_key Scenario.env Inputs.site_backend None (Some "local_site")
      Inputs.labelled_key Started.site_session = (Ok tt, st')
    /\ trace st'
       = trace Undated.site_state
           ++ url_calls Inputs.site_backend (Some Inputs.labelled_key)
           ++ [Move Inputs.site_backend Inputs.labelled_key None]
           ++ url_calls Inputs.site_backend (Some Inputs.labelled_key)
    /\ exceptions (upgrade_log Started.site_session)
         ++ [entry_for None (Some "local_site") src "N/A"
               (Some (exception_message Scenario.env
                        (Scenario.FileNotFound Inputs.labelled_key)))]
       `prefix_of` exceptions (upgrade_log st')
    /\ records (upgrade_log st') (owner_key None) !! "local_site" = Some o'
    /\ outcome_exceptions o' = true.
Proof.
  apply (unresolved_page_is_moved_to_None Scenario.env Inputs.site_backend
           (Some "local_site") "local_site" empty_outcome Inputs.labelled_key
           "my_run" (Scenario.FileNotFound Inputs.labelled_key) Undated.site_state
           Started.site_session).
  - vm_compute. reflexivity.
  - reflexivity.
  - vm_compute. reflexivity.
  - vm_compute. reflexivity.
  - vm_compute. reflexivity.
Defined.
